(** * codex-wrapped: terminal graphics layer and usage analytics

    A shallow embedding of the terminal image display code
    (detectTerminal, displayKittyProtocol, displayITerm2Protocol,
    displayInTerminal), of the statistics code (calculateStats and its
    helpers) and of the provider lookup (getModelProvider), with the
    properties the specification states about them.

    Conventions of the embedding:
    - a JavaScript number holding a token count, an index or a day count is
      an integer of Z; the counters stay far below 2^53, where the double
      arithmetic of the runtime is exact;
    - a percentage is a rational of Q: the runtime rounds the quotient, and
      rounding is monotone, so bounds by 0 and 100 carry over;
    - a JavaScript [Map] is an association list in insertion order;
    - [process.stdout] is the list of the strings written so far, and a
      write may fail. *)

From Stdlib Require Import ZArith List String Ascii Bool Lia Arith.
From Stdlib Require Import QArith Permutation Sorted.
From Stdlib Require Import Init.Byte.
From Equations Require Import Equations.
Import ListNotations.

Local Open Scope string_scope.
Local Open Scope Z_scope.

(** ** Strings of the runtime *)

Module Js.

Definition ESC : string := String "027"%char EmptyString.
Definition BEL : string := String "007"%char EmptyString.
Definition LF : string := String "010"%char EmptyString.
Definition BACKSLASH : string := String "092"%char EmptyString.

Definition digitChar (d : Z) : ascii := ascii_of_nat (48 + Z.to_nat d).

(** The decimal digits of a non-negative integer, most significant first. *)
Fixpoint decimalDigits (fuel : nat) (n : Z) (acc : string) : string :=
  let acc' := String (digitChar (n mod 10)) acc in
  match fuel with
  | O => acc'
  | S f => if n / 10 =? 0 then acc' else decimalDigits f (n / 10) acc'
  end.

(** [String(n)] and a template literal's interpolation of an integer [n]. *)
Definition NumberToString (n : Z) : string :=
  if n <? 0
  then "-" ++ decimalDigits (Z.to_nat (- n)) (- n) EmptyString
  else decimalDigits (Z.to_nat n) n EmptyString.

(** [s.padStart(2, "0")]. *)
Definition padStart2 (s : string) : string :=
  match s with
  | String c EmptyString => String "0"%char s
  | EmptyString => "00"
  | _ => s
  end.

(** [s.slice(i, j)] for [0 <= i <= j]. *)
Definition slice (s : string) (i j : nat) : string := substring i (j - i) s.

(** [s.startsWith(p)]. *)
Definition startsWith (s p : string) : bool := prefix p s.

End Js.

(** ** Terminal capability detection *)

Module Terminal.
Import Js.

Inductive TerminalType :=
| ghostty | kitty | iterm | wezterm | konsole | vscode | warp | standard.

Record TerminalInfo := {
  type : TerminalType;
  supportsKittyProtocol : bool;
  supportsITerm2Protocol : bool
}.

(** [process.env]: the variables that are set, with their values. *)
Definition Env : Type := list (string * string)%type.

Fixpoint getenv (env : Env) (name : string) : option string :=
  match env with
  | [] => None
  | (k, v) :: rest => if String.eqb k name then Some v else getenv rest name
  end.

(** [env.X === "lit"]. *)
Definition strictEq (v : option string) (lit : string) : bool :=
  match v with
  | Some s => String.eqb s lit
  | None => false
  end.

(** The truthiness of [env.X]: set, and not the empty string. *)
Definition truthy (v : option string) : bool :=
  match v with
  | Some s => negb (String.eqb s EmptyString)
  | None => false
  end.

Definition detectTerminal (env : Env) : TerminalInfo :=
  let TERM := getenv env "TERM" in
  let TERM_PROGRAM := getenv env "TERM_PROGRAM" in
  if strictEq TERM "xterm-ghostty" then
    {| type := ghostty; supportsKittyProtocol := true; supportsITerm2Protocol := false |}
  else if strictEq TERM "xterm-kitty" || truthy (getenv env "KITTY_WINDOW_ID") then
    {| type := kitty; supportsKittyProtocol := true; supportsITerm2Protocol := false |}
  else if strictEq TERM_PROGRAM "WezTerm" then
    {| type := wezterm; supportsKittyProtocol := true; supportsITerm2Protocol := true |}
  else if strictEq TERM_PROGRAM "iTerm.app" then
    {| type := iterm; supportsKittyProtocol := false; supportsITerm2Protocol := true |}
  else if strictEq TERM_PROGRAM "konsole" || truthy (getenv env "KONSOLE_VERSION") then
    {| type := konsole; supportsKittyProtocol := true; supportsITerm2Protocol := false |}
  else if strictEq TERM_PROGRAM "vscode" then
    {| type := vscode; supportsKittyProtocol := false; supportsITerm2Protocol := true |}
  else if strictEq TERM_PROGRAM "WarpTerminal" then
    {| type := warp; supportsKittyProtocol := true; supportsITerm2Protocol := false |}
  else
    {| type := standard; supportsKittyProtocol := false; supportsITerm2Protocol := false |}.

Definition getTerminalName (env : Env) : TerminalType := type (detectTerminal env).

(** *** The detector as the specification words it

    A fixed, ordered table of environment signals; each names a family, and
    each family declares its protocols once. *)

Definition familyProtocols (t : TerminalType) : bool * bool :=
  match t with
  | ghostty => (true, false)
  | kitty => (true, false)
  | wezterm => (true, true)
  | iterm => (false, true)
  | konsole => (true, false)
  | vscode => (false, true)
  | warp => (true, false)
  | standard => (false, false)
  end.

Definition familyInfo (t : TerminalType) : TerminalInfo :=
  {| type := t;
     supportsKittyProtocol := fst (familyProtocols t);
     supportsITerm2Protocol := snd (familyProtocols t) |}.

Definition Signal : Type := ((Env -> bool) * TerminalType)%type.

Definition signals : list Signal :=
  [ (fun env => strictEq (getenv env "TERM") "xterm-ghostty", ghostty);
    (fun env => strictEq (getenv env "TERM") "xterm-kitty", kitty);
    (fun env => truthy (getenv env "KITTY_WINDOW_ID"), kitty);
    (fun env => strictEq (getenv env "TERM_PROGRAM") "WezTerm", wezterm);
    (fun env => strictEq (getenv env "TERM_PROGRAM") "iTerm.app", iterm);
    (fun env => strictEq (getenv env "TERM_PROGRAM") "konsole", konsole);
    (fun env => truthy (getenv env "KONSOLE_VERSION"), konsole);
    (fun env => strictEq (getenv env "TERM_PROGRAM") "vscode", vscode);
    (fun env => strictEq (getenv env "TERM_PROGRAM") "WarpTerminal", warp) ].

Definition firstSignal (env : Env) : option Signal :=
  find (fun s => fst s env) signals.

Definition detectBySignals (env : Env) : TerminalInfo :=
  match firstSignal env with
  | Some (_, family) => familyInfo family
  | None => familyInfo standard
  end.

(** *** Buffers and base64

    A [Buffer] is its bytes; [toBase64] is the text that
    [buffer.toString("base64")] returns, with padding. *)

Definition Buffer : Type := list byte.

Definition base64Alphabet : string :=
  "ABCDEFGHIJKLMNOPQRSTUVWXYZabcdefghijklmnopqrstuvwxyz0123456789+/".

Definition base64Char (n : N) : ascii :=
  match get (N.to_nat n) base64Alphabet with
  | Some c => c
  | None => "="%char
  end.

Fixpoint toBase64 (buf : Buffer) : string :=
  match buf with
  | [] => EmptyString
  | [a] =>
      let x := Byte.to_N a in
      String (base64Char (N.shiftr x 2))
        (String (base64Char (N.shiftl (N.land x 3) 4)) "==")
  | [a; b] =>
      let x := Byte.to_N a in
      let y := Byte.to_N b in
      String (base64Char (N.shiftr x 2))
        (String (base64Char (N.lor (N.shiftl (N.land x 3) 4) (N.shiftr y 4)))
           (String (base64Char (N.shiftl (N.land y 15) 2)) "="))
  | a :: b :: c :: rest =>
      let x := Byte.to_N a in
      let y := Byte.to_N b in
      let z := Byte.to_N c in
      String (base64Char (N.shiftr x 2))
        (String (base64Char (N.lor (N.shiftl (N.land x 3) 4) (N.shiftr y 4)))
           (String (base64Char (N.lor (N.shiftl (N.land y 15) 2) (N.shiftr z 6)))
              (String (base64Char (N.land z 63)) (toBase64 rest))))
  end.

(** [Buffer.from(s)] for a string of ASCII characters. *)
Definition BufferFrom (s : string) : Buffer := list_byte_of_string s.

(** *** The output stream and exceptions

    A computation runs on the strings written to [process.stdout] so far and
    either returns a value or throws; what was written before a throw stays
    written. *)

Inductive Outcome (A : Type) : Type :=
| Returned (a : A) (out : list string)
| Thrown (out : list string).

Arguments Returned {A} a out.
Arguments Thrown {A} out.

Definition M (A : Type) : Type := list string -> Outcome A.

Definition ret {A} (a : A) : M A := fun out => Returned a out.

Definition throw {A} : M A := fun out => Thrown out.

Definition bind {A B} (m : M A) (k : A -> M B) : M B :=
  fun out =>
    match m out with
    | Returned a out' => k a out'
    | Thrown out' => Thrown out'
    end.

(** [try { body } catch { handler }]. *)
Definition tryCatch {A} (body handler : M A) : M A :=
  fun out =>
    match body out with
    | Returned a out' => Returned a out'
    | Thrown out' => handler out'
    end.

Notation "x <- m ;; k" := (bind m (fun x => k))
  (at level 61, m at next level, right associativity).
Notation "m ;;; k" := (bind m (fun _ => k))
  (at level 61, right associativity).

Definition chunkSize : nat := 4096.

Section Display.

(** Whether encoding a buffer to a string succeeds (the runtime refuses a
    string beyond its length limit), and whether a write to the stream
    succeeds, given what the stream holds. *)
Variable encodes : Buffer -> bool.
Variable accepts : list string -> string -> bool.

Definition toStringBase64 (buf : Buffer) : M string :=
  if encodes buf then ret (toBase64 buf) else throw.

Definition stdout_write (s : string) : M unit :=
  fun out => if accepts out s then Returned tt (out ++ [s]) else Thrown out.

(** The [for] loop of [displayKittyProtocol], from index [i] on. *)
Equations kittyLoop (base64Data : string) (i : nat) : M unit
  by wf (String.length base64Data - i)%nat lt :=
kittyLoop base64Data i with lt_dec i (String.length base64Data) := {
  | left _ =>
      let chunk := slice base64Data i (i + chunkSize) in
      let isLast := (String.length base64Data <=? i + chunkSize)%nat in
      (if (i =? 0)%nat
       then stdout_write (ESC ++ "_Ga=T,f=100,m=" ++ (if isLast then "0" else "1")
                            ++ ";" ++ chunk ++ ESC ++ BACKSLASH)
       else stdout_write (ESC ++ "_Gm=" ++ (if isLast then "0" else "1")
                            ++ ";" ++ chunk ++ ESC ++ BACKSLASH)) ;;;
      kittyLoop base64Data (i + chunkSize)%nat
  | right _ => ret tt }.
Next Obligation. unfold chunkSize. lia. Qed.

Definition displayKittyProtocol (pngBuffer : Buffer) : M unit :=
  base64Data <- toStringBase64 pngBuffer ;;
  kittyLoop base64Data 0 ;;;
  stdout_write LF.

Definition displayITerm2Protocol (pngBuffer : Buffer) : M unit :=
  base64Data <- toStringBase64 pngBuffer ;;
  filename <- toStringBase64 (BufferFrom "codex-wrapped-noyrlimit.png") ;;
  stdout_write (ESC ++ "]1337;File=name=" ++ filename
                  ++ ";size=" ++ NumberToString (Z.of_nat (List.length pngBuffer))
                  ++ ";inline=1:" ++ base64Data ++ BEL ++ LF).

(** The body of [displayInTerminal] once the terminal is known. *)
Definition displayOn (terminal : TerminalInfo) (pngBuffer : Buffer) : M bool :=
  tryCatch
    (if supportsKittyProtocol terminal then
       displayKittyProtocol pngBuffer ;;; ret true
     else if supportsITerm2Protocol terminal then
       displayITerm2Protocol pngBuffer ;;; ret true
     else ret false)
    (ret false).

Definition displayInTerminal (env : Env) (pngBuffer : Buffer) : M bool :=
  let terminal := detectTerminal env in
  displayOn terminal pngBuffer.

End Display.

(** A frame of the chunked protocol: whether it is the first one, its
    more-data flag and its chunk; [frameText] is the frame on the wire. *)
Record KittyFrame := {
  isFirst : bool;
  moreData : bool;
  chunk : string
}.

Definition frameText (f : KittyFrame) : string :=
  if isFirst f
  then ESC ++ "_Ga=T,f=100,m=" ++ (if moreData f then "1" else "0")
         ++ ";" ++ chunk f ++ ESC ++ BACKSLASH
  else ESC ++ "_Gm=" ++ (if moreData f then "1" else "0")
         ++ ";" ++ chunk f ++ ESC ++ BACKSLASH.

(** A stream that takes every write, and an encoder that never fails. *)
Definition reliable : list string -> string -> bool := fun _ _ => true.
Definition anyBuffer : Buffer -> bool := fun _ => true.

(** The frames the loop emits from index [i] on when no write fails. *)
Equations kittyFrames (base64Data : string) (i : nat) : list KittyFrame
  by wf (String.length base64Data - i)%nat lt :=
kittyFrames base64Data i with lt_dec i (String.length base64Data) := {
  | left _ =>
      {| isFirst := (i =? 0)%nat;
         moreData := negb (String.length base64Data <=? i + chunkSize)%nat;
         chunk := slice base64Data i (i + chunkSize) |}
      :: kittyFrames base64Data (i + chunkSize)%nat
  | right _ => [] }.
Next Obligation. unfold chunkSize. lia. Qed.

(** Rendering [pngBuffer] through the chunked protocol on an empty, reliable
    stream ends normally and leaves exactly the frames [fs], then the
    newline. *)
Definition emitsFrames (pngBuffer : Buffer) (fs : list KittyFrame) : Prop :=
  displayKittyProtocol anyBuffer reliable pngBuffer []
  = Returned tt (map frameText fs ++ [LF]).

(** The quotient of [a] by [b], rounded up. *)
Definition ceilDiv (a b : nat) : nat := ((a + (b - 1)) / b)%nat.

(** A stream that refuses every write. *)
Definition closedStream : list string -> string -> bool := fun _ _ => false.

End Terminal.

(** ** Dates of the runtime

    The [Date] of the runtime, after ECMAScript: a date is its time value,
    the milliseconds since 1970-01-01T00:00Z; the local zone is a fixed
    offset of [tz] minutes east of UTC (a zone that changes its offset over
    the year is outside this embedding). *)

Module Dates.
Import Js.

Definition msPerDay : Z := 86400000.

Definition Day (t : Z) : Z := t / msPerDay.

Definition DaysInYear (y : Z) : Z :=
  if negb (y mod 4 =? 0) then 365
  else if negb (y mod 100 =? 0) then 366
  else if negb (y mod 400 =? 0) then 365
  else 366.

Definition InLeapYear (y : Z) : bool := DaysInYear y =? 366.

Definition DayFromYear (y : Z) : Z :=
  365 * (y - 1970) + (y - 1969) / 4 - (y - 1901) / 100 + (y - 1601) / 400.

(** The year of day [d]: the largest [y] with [DayFromYear y <= d]; the
    mean year length gives a guess that is off by one year at most. *)
Definition YearFromDay (d : Z) : Z :=
  let y0 := 1970 + (400 * d) / 146097 in
  if d <? DayFromYear y0 then y0 - 1
  else if DayFromYear (y0 + 1) <=? d then y0 + 1
  else y0.

Definition DayWithinYear (d : Z) : Z := d - DayFromYear (YearFromDay d).

(** The days of a year before month [m] (0 is January). *)
Definition daysBeforeMonth (leap : bool) (m : Z) : Z :=
  let l := if leap then 1 else 0 in
  if m <=? 0 then 0
  else if m =? 1 then 31
  else if m =? 2 then 59 + l
  else if m =? 3 then 90 + l
  else if m =? 4 then 120 + l
  else if m =? 5 then 151 + l
  else if m =? 6 then 181 + l
  else if m =? 7 then 212 + l
  else if m =? 8 then 243 + l
  else if m =? 9 then 273 + l
  else if m =? 10 then 304 + l
  else if m =? 11 then 334 + l
  else 365 + l.

Definition monthOfDayWithinYear (leap : bool) (n : Z) : Z :=
  if n <? daysBeforeMonth leap 1 then 0
  else if n <? daysBeforeMonth leap 2 then 1
  else if n <? daysBeforeMonth leap 3 then 2
  else if n <? daysBeforeMonth leap 4 then 3
  else if n <? daysBeforeMonth leap 5 then 4
  else if n <? daysBeforeMonth leap 6 then 5
  else if n <? daysBeforeMonth leap 7 then 6
  else if n <? daysBeforeMonth leap 8 then 7
  else if n <? daysBeforeMonth leap 9 then 8
  else if n <? daysBeforeMonth leap 10 then 9
  else if n <? daysBeforeMonth leap 11 then 10
  else 11.

Definition MonthFromDay (d : Z) : Z :=
  monthOfDayWithinYear (InLeapYear (YearFromDay d)) (DayWithinYear d).

Definition DateFromDay (d : Z) : Z :=
  DayWithinYear d
  - daysBeforeMonth (InLeapYear (YearFromDay d)) (MonthFromDay d) + 1.

Definition WeekDay (d : Z) : Z := (d + 4) mod 7.

(** The day number of the calendar date [y]-[m]-[dt], [m] from 0. *)
Definition MakeDay (y m dt : Z) : Z :=
  DayFromYear y + daysBeforeMonth (InLeapYear y) m + dt - 1.

Definition DaysInMonth (y m : Z) : Z :=
  daysBeforeMonth (InLeapYear y) (m + 1) - daysBeforeMonth (InLeapYear y) m.

Definition digitValue (c : ascii) : option Z :=
  let n := Z.of_nat (nat_of_ascii c) in
  if (48 <=? n) && (n <=? 57) then Some (n - 48) else None.

(** [new Date(s)] for a date-only string [YYYY-MM-DD]: by ECMAScript such a
    string is read as midnight UTC of that date. [None] is the invalid
    date; any other form of string is outside this embedding and is taken as
    invalid. *)
Definition DateFromString (s : string) : option Z :=
  match s with
  | String y1 (String y2 (String y3 (String y4 (String s1
      (String m1 (String m2 (String s2
        (String d1 (String d2 EmptyString))))))))) =>
      if Ascii.eqb s1 "-" && Ascii.eqb s2 "-" then
        match digitValue y1, digitValue y2, digitValue y3, digitValue y4,
              digitValue m1, digitValue m2, digitValue d1, digitValue d2 with
        | Some a, Some b, Some c, Some d, Some e, Some f, Some g, Some h =>
            let y := 1000 * a + 100 * b + 10 * c + d in
            let m := 10 * e + f in
            let dt := 10 * g + h in
            if (1 <=? m) && (m <=? 12) && (1 <=? dt) && (dt <=? DaysInMonth y (m - 1))
            then Some (MakeDay y (m - 1) dt * msPerDay)
            else None
        | _, _, _, _, _, _, _, _ => None
        end
      else None
  | _ => None
  end.

Section Zone.

Variable tz : Z.

Definition LocalTime (t : Z) : Z := t + tz * 60000.

Definition getFullYear (t : Z) : Z := YearFromDay (Day (LocalTime t)).
Definition getMonth (t : Z) : Z := MonthFromDay (Day (LocalTime t)).
Definition getDate (t : Z) : Z := DateFromDay (Day (LocalTime t)).
Definition getDay (t : Z) : Z := WeekDay (Day (LocalTime t)).

Definition formatDateKey (date : Z) : string :=
  let year := getFullYear date in
  let month := padStart2 (NumberToString (getMonth date + 1)) in
  let day := padStart2 (NumberToString (getDate date)) in
  NumberToString year ++ "-" ++ month ++ "-" ++ day.

End Zone.

(** The key of day [d]: what [formatDateKey] writes for a moment of the
    local day [d]; and the day a key stands for. *)
Definition keyOfDay (d : Z) : string := formatDateKey 0 (d * msPerDay).

Definition dayOf (key : string) : Z :=
  match DateFromString key with
  | Some t => Day t
  | None => 0
  end.

(** A date key of the year [year], written as [formatDateKey] writes it. *)
Definition keyOfYear (year : Z) (key : string) : Prop :=
  exists d, YearFromDay d = year /\ key = keyOfDay d.

(** A key that reads as the day [d]. *)
Definition readsAs (key : string) (d : Z) : Prop :=
  DateFromString key = Some (d * msPerDay).

(** A date key of a four-digit year [year]. *)
Definition dateKeyOf (year : Z) (key : string) : Prop :=
  1000 <= year <= 9999 /\ keyOfYear year key.

(** Every character is a digit. *)
Fixpoint allDigits (s : string) : Prop :=
  match s with
  | EmptyString => True
  | String c rest => (exists k, 0 <= k <= 9 /\ c = digitChar k) /\ allDigits rest
  end.

(** The month and date part of the key of the [n]th day of a year. *)
Definition monthDateText (leap : bool) (n : Z) : string :=
  let m := monthOfDayWithinYear leap n in
  let dt := n - daysBeforeMonth leap m + 1 in
  String (digitChar ((m + 1) / 10))
    (String (digitChar ((m + 1) mod 10))
       (String "-"
          (String (digitChar (dt / 10))
             (String (digitChar (dt mod 10)) EmptyString)))).

(** The days of a year with their month and date texts, and the check that
    the texts are ordered as the days are. *)
Definition daysOfYear : list Z := map Z.of_nat (seq 0 366).

Definition monthDateTable (leap : bool) : list (Z * string) :=
  map (fun n => (n, monthDateText leap n)) daysOfYear.

Definition orderedPair (p1 p2 : Z * string) : bool :=
  if fst p1 <? fst p2
  then match String.compare (snd p1) (snd p2) with
       | Lt => true
       | _ => false
       end
  else true.

Definition allOrdered (table : list (Z * string)) : bool :=
  forallb (fun p1 => forallb (orderedPair p1) table) table.

End Dates.

(** ** Maps of the runtime

    A [Map] keeps its entries in insertion order; setting a key that is
    present keeps the key's place. *)

Module JsMap.
Section WithValue.

Context {V : Type}.

Definition t : Type := list (string * V).

Fixpoint get (m : t) (k : string) : option V :=
  match m with
  | [] => None
  | (k', v) :: rest => if String.eqb k' k then Some v else get rest k
  end.

Definition has (m : t) (k : string) : bool :=
  match get m k with
  | Some _ => true
  | None => false
  end.

Fixpoint set (m : t) (k : string) (v : V) : t :=
  match m with
  | [] => [(k, v)]
  | (k', v') :: rest =>
      if String.eqb k' k then (k, v) :: rest else (k', v') :: set rest k v
  end.

Definition keys (m : t) : list string := map fst m.

Definition size (m : t) : nat := List.length m.

(** The invariant of a map: no key twice. *)
Definition wf (m : t) : Prop := NoDup (keys m).

End WithValue.
Arguments t V : clear implicits.
End JsMap.

(** ** Provider lookup *)

Module Models.

Record ModelInfo := {
  id : string;
  name : string;
  provider : string
}.

(** The fields [id] and [name] of a provider, under names of their own. *)
Record ProviderInfo := {
  providerId : string;
  providerName : string
}.

(** [cachedData]: the two tables fetched once from the models service; they
    are objects used as maps, and only looked up here. *)
Record ModelsDevData := {
  models : JsMap.t ModelInfo;
  providers : JsMap.t ProviderInfo
}.

Definition EMPTY_DATA : ModelsDevData := {| models := []; providers := [] |}.

(** A string in a condition: the empty string counts as false. *)
Definition truthyString (s : string) : bool := negb (String.eqb s EmptyString).

Definition getModelProvider (cachedData : ModelsDevData) (modelId : string) : string :=
  match JsMap.get (models cachedData) modelId with
  | Some info => if truthyString (provider info) then provider info else "unknown"
  | None => "unknown"
  end.

End Models.

(** ** Usage statistics *)

Module Event.
(** Modelled from the spec: the record type [CodexUsageEvent] is declared by
    the collector, which is not among the sources; these are the fields of
    the specification's UsageEvent, under the names the statistics code
    reads them by. *)
Record t := {
  timestamp : Z;
  model : string;
  inputTokens : Z;
  cachedInputTokens : Z;
  outputTokens : Z;
  reasoningOutputTokens : Z;
  totalTokens : Z
}.

(** The counts of an event are non-negative integers. *)
Definition nonneg (e : t) : Prop :=
  0 <= inputTokens e /\ 0 <= cachedInputTokens e /\ 0 <= outputTokens e
  /\ 0 <= reasoningOutputTokens e /\ 0 <= totalTokens e.
End Event.

Module Usage.
(** [ModelUsageTotals]. *)
Record t := {
  inputTokens : Z;
  cachedInputTokens : Z;
  outputTokens : Z;
  reasoningTokens : Z;
  totalTokens : Z
}.

Definition fresh : t :=
  {| inputTokens := 0; cachedInputTokens := 0; outputTokens := 0;
     reasoningTokens := 0; totalTokens := 0 |}.
End Usage.

Module ModelStats.
Record t := {
  id : string;
  name : string;
  providerId : string;
  count : Z;
  percentage : Q
}.
End ModelStats.

Module ProviderStats.
Record t := {
  id : string;
  name : string;
  count : Z;
  percentage : Q
}.
End ProviderStats.

Module Stats.
Import Js Dates Models.

Definition CodexUsageEvent : Type := Event.t.
Definition ModelUsageTotals : Type := Usage.t.

Definition getEventTotal (event : CodexUsageEvent) : Z :=
  let computed := Event.inputTokens event + Event.outputTokens event in
  Z.max (Event.totalTokens event) computed.

(** The entry returned is the one held by the map: what the caller adds to
    it afterwards is written back under the same key. *)
Definition getOrCreateModelUsage (map : JsMap.t ModelUsageTotals) (modelId : string)
  : ModelUsageTotals * JsMap.t ModelUsageTotals :=
  match JsMap.get map modelId with
  | Some existing => (existing, map)
  | None => (Usage.fresh, JsMap.set map modelId Usage.fresh)
  end.

(** The five running totals of [calculateStats]. *)
Record Totals := {
  totalInputTokens : Z;
  totalCachedInputTokens : Z;
  totalOutputTokens : Z;
  totalReasoningTokens : Z;
  totalTokens : Z
}.

Definition zeroTotals : Totals :=
  {| totalInputTokens := 0; totalCachedInputTokens := 0; totalOutputTokens := 0;
     totalReasoningTokens := 0; totalTokens := 0 |}.

(** One turn of the loop over [usageData.events]. *)
Definition addEvent (acc : Totals * JsMap.t ModelUsageTotals) (event : CodexUsageEvent)
  : Totals * JsMap.t ModelUsageTotals :=
  let '(tot, modelUsageTotals) := acc in
  let eventTotal := getEventTotal event in
  let tot' :=
    {| totalInputTokens := totalInputTokens tot + Event.inputTokens event;
       totalCachedInputTokens := totalCachedInputTokens tot + Event.cachedInputTokens event;
       totalOutputTokens := totalOutputTokens tot + Event.outputTokens event;
       totalReasoningTokens := totalReasoningTokens tot + Event.reasoningOutputTokens event;
       totalTokens := totalTokens tot + eventTotal |} in
  let '(usage, map1) := getOrCreateModelUsage modelUsageTotals (Event.model event) in
  let usage' :=
    {| Usage.inputTokens := Usage.inputTokens usage + Event.inputTokens event;
       Usage.cachedInputTokens := Usage.cachedInputTokens usage + Event.cachedInputTokens event;
       Usage.outputTokens := Usage.outputTokens usage + Event.outputTokens event;
       Usage.reasoningTokens := Usage.reasoningTokens usage + Event.reasoningOutputTokens event;
       Usage.totalTokens := Usage.totalTokens usage + eventTotal |} in
  (tot', JsMap.set map1 (Event.model event) usage').

Definition aggregate (events : list CodexUsageEvent) : Totals * JsMap.t ModelUsageTotals :=
  fold_left addEvent events (zeroTotals, []).

(** The running totals alone, and the totals of one model alone. *)
Definition addToTotals (tot : Totals) (event : CodexUsageEvent) : Totals :=
  fst (addEvent (tot, []) event).

Definition addToUsage (usage : ModelUsageTotals) (event : CodexUsageEvent)
  : ModelUsageTotals :=
  {| Usage.inputTokens := Usage.inputTokens usage + Event.inputTokens event;
     Usage.cachedInputTokens :=
       Usage.cachedInputTokens usage + Event.cachedInputTokens event;
     Usage.outputTokens := Usage.outputTokens usage + Event.outputTokens event;
     Usage.reasoningTokens :=
       Usage.reasoningTokens usage + Event.reasoningOutputTokens event;
     Usage.totalTokens := Usage.totalTokens usage + getEventTotal event |}.

Definition addForModel (modelId : string) (entry : option ModelUsageTotals)
    (event : CodexUsageEvent) : option ModelUsageTotals :=
  if String.eqb (Event.model event) modelId
  then Some (addToUsage (match entry with Some u => u | None => Usage.fresh end) event)
  else entry.

Definition sampleEvent (model : string) (input cached output reasoning total : Z)
  : CodexUsageEvent :=
  {| Event.timestamp := 0; Event.model := model; Event.inputTokens := input;
     Event.cachedInputTokens := cached; Event.outputTokens := output;
     Event.reasoningOutputTokens := reasoning; Event.totalTokens := total |}.

(** The sum of a weight over the entries of a map. *)
Definition sumBy {V : Type} (w : V -> Z) (m : JsMap.t V) : Z :=
  fold_right (fun kv acc => w (snd kv) + acc) 0 m.

(** What [aggregate] keeps true of every entry of [modelUsageTotals]. *)
Definition usageOk (usage : ModelUsageTotals) : Prop :=
  0 <= Usage.inputTokens usage /\ 0 <= Usage.outputTokens usage
  /\ 0 <= Usage.reasoningTokens usage
  /\ Usage.inputTokens usage + Usage.outputTokens usage <= Usage.totalTokens usage.

(** No reasoning tokens without a total: for an event, and for an entry. *)
Definition reasoningCounted (event : CodexUsageEvent) : Prop :=
  getEventTotal event = 0 -> Event.reasoningOutputTokens event = 0.

Definition usageTight (usage : ModelUsageTotals) : Prop :=
  Usage.totalTokens usage = 0 -> Usage.reasoningTokens usage = 0.

Definition entriesOk (map : JsMap.t ModelUsageTotals) : Prop :=
  Forall (fun kv => usageOk (snd kv)) map.

Definition entriesTight (map : JsMap.t ModelUsageTotals) : Prop :=
  Forall (fun kv => usageTight (snd kv)) map.

(** [list.sort(cmp)]: the sort of the runtime is stable; an element goes
    before the first one it does not have to follow. *)
Section Sort.
Context {A : Type}.
Variable cmp : A -> A -> Z.

Fixpoint insertBy (x : A) (l : list A) : list A :=
  match l with
  | [] => [x]
  | y :: rest => if cmp x y <=? 0 then x :: l else y :: insertBy x rest
  end.

Definition sortBy (l : list A) : list A := fold_right insertBy [] l.
End Sort.

(** [count / denominator * 100], guarded as in the source. *)
Definition percentOf (count percentageDenominator : Z) : Q :=
  if percentageDenominator >? 0
  then (inject_Z count / inject_Z percentageDenominator * 100)%Q
  else 0%Q.

Section Ranking.

Variable cachedData : ModelsDevData.
(** The display names bear on no property below and are taken as given. *)
Variable getModelDisplayName : string -> string.
Variable getProviderDisplayName : string -> string.

Definition resolveProviderId (modelId : string) : string :=
  let provider := getModelProvider cachedData modelId in
  if truthyString provider && negb (String.eqb provider "unknown") then provider
  else if startsWith modelId "gpt" || startsWith modelId "openai" then "openai"
  else "openai".

Definition tokenTotalOf (usage : ModelUsageTotals) : Z :=
  if Usage.totalTokens usage >? 0 then Usage.totalTokens usage
  else Usage.inputTokens usage + Usage.outputTokens usage + Usage.reasoningTokens usage.

(** The loop over [modelUsageTotals.entries()]. *)
Fixpoint collectModelStats (entries : list (string * ModelUsageTotals))
    (providerCounts : JsMap.t Z) (modelStats : list ModelStats.t)
  : JsMap.t Z * list ModelStats.t :=
  match entries with
  | [] => (providerCounts, modelStats)
  | (modelId, usage) :: rest =>
      let tokenTotal := tokenTotalOf usage in
      if tokenTotal <=? 0 then collectModelStats rest providerCounts modelStats
      else
        let providerId := resolveProviderId modelId in
        let previous :=
          match JsMap.get providerCounts providerId with
          | Some n => n
          | None => 0
          end in
        collectModelStats rest
          (JsMap.set providerCounts providerId (previous + tokenTotal))
          (modelStats ++
             [ {| ModelStats.id := modelId;
                  ModelStats.name := getModelDisplayName modelId;
                  ModelStats.providerId := providerId;
                  ModelStats.count := tokenTotal;
                  ModelStats.percentage := 0%Q |} ])
  end.

(** The ranked part of the result of [calculateStats]. *)
Record Ranking := {
  percentageDenominator : Z;
  topModels : list ModelStats.t;
  topProviders : list ProviderStats.t
}.

Definition rank (totalTokens : Z) (modelUsageTotals : JsMap.t ModelUsageTotals)
  : Ranking :=
  let '(providerCounts, modelStats) := collectModelStats modelUsageTotals [] [] in
  let totalModelTokens :=
    fold_left (fun sum model => sum + ModelStats.count model) modelStats 0 in
  let percentageDenominator :=
    if totalTokens >? 0 then totalTokens else totalModelTokens in
  {| percentageDenominator := percentageDenominator;
     topModels :=
       map (fun model =>
              {| ModelStats.id := ModelStats.id model;
                 ModelStats.name := ModelStats.name model;
                 ModelStats.providerId := ModelStats.providerId model;
                 ModelStats.count := ModelStats.count model;
                 ModelStats.percentage :=
                   percentOf (ModelStats.count model) percentageDenominator |})
           (firstn 3
              (sortBy (fun a b => ModelStats.count b - ModelStats.count a) modelStats));
     topProviders :=
       map (fun '(id, count) =>
              {| ProviderStats.id := id;
                 ProviderStats.name := getProviderDisplayName id;
                 ProviderStats.count := count;
                 ProviderStats.percentage := percentOf count percentageDenominator |})
           (firstn 3 (sortBy (fun a b => snd b - snd a) providerCounts)) |}.

(** Totals and ranking of [calculateStats] for the collected events. *)
Definition rankEvents (events : list CodexUsageEvent) : Ranking :=
  let '(tot, modelUsageTotals) := aggregate events in
  rank (totalTokens tot) modelUsageTotals.

End Ranking.

(** The count a model is ranked by, when it is ranked at all. *)
Definition rankedTotal (usage : ModelUsageTotals) : Z := Z.max 0 (tokenTotalOf usage).

Definition unrankedEvents : list CodexUsageEvent :=
  [ sampleEvent "gpt-5" 0 0 0 0 1; sampleEvent "o3" 0 0 0 500 0 ].

(** *** Weekdays *)

(** [counts[i] += n]; an index outside the array leaves its seven numbers
    as they are. *)
Fixpoint addAt (i : nat) (n : Z) (counts : list Z) : list Z :=
  match counts, i with
  | [], _ => []
  | c :: rest, O => (c + n) :: rest
  | c :: rest, S j => c :: addAt j n rest
  end.

Record WeekdayActivity := {
  counts : list Z;
  mostActiveDay : Z;
  mostActiveDayName : string;
  maxCount : Z
}.

Definition WEEKDAY_NAMES_FULL : list string :=
  ["Sunday"; "Monday"; "Tuesday"; "Wednesday"; "Thursday"; "Friday"; "Saturday"].

Definition buildWeekdayActivity (counts : list Z) : WeekdayActivity :=
  let '(mostActiveDay, maxCount) :=
    fold_left
      (fun (acc : Z * Z) (i : nat) =>
         let '(mostActiveDay, maxCount) := acc in
         if nth i counts 0 >? maxCount then (Z.of_nat i, nth i counts 0)
         else (mostActiveDay, maxCount))
      (seq 0 7) (0, 0) in
  {| counts := counts;
     mostActiveDay := mostActiveDay;
     mostActiveDayName := nth (Z.to_nat mostActiveDay) WEEKDAY_NAMES_FULL EmptyString;
     maxCount := maxCount |}.

Section Clock.

(** The offset of the local zone, in minutes east of UTC, and the time
    value of the present moment. *)
Variable tz : Z.
Variable now : Z.

(** The loop of [calculateStats] over [dailyActivity.entries()]. *)
Definition weekdayCounts (dailyActivity : JsMap.t Z) : list Z :=
  fold_left
    (fun weekdayCounts '(date, count) =>
       match DateFromString date with
       | Some t => addAt (Z.to_nat (getDay tz t)) count weekdayCounts
       | None => weekdayCounts
       end)
    dailyActivity [0; 0; 0; 0; 0; 0; 0].

Definition weekdayActivity (dailyActivity : JsMap.t Z) : WeekdayActivity :=
  buildWeekdayActivity (weekdayCounts dailyActivity).

(** *** Streaks *)

(** [Math.round(a / b)] for [b > 0]: the nearest integer, halves up. *)
Definition roundDiv (a b : Z) : Z := (2 * a + b) / (2 * b).

Record Scan := {
  maxStreak : Z;
  tempStreak : Z;
  tempStreakStart : nat;
  maxStreakStart : nat;
  maxStreakEnd : nat
}.

(** One turn of the scan: [prev] and [curr] are [activeDates[i - 1]] and
    [activeDates[i]]. A difference with an invalid date is not a number and
    is not 1. *)
Definition scanStep (prev curr : string) (i : nat) (st : Scan) : Scan :=
  let consecutive :=
    match DateFromString prev, DateFromString curr with
    | Some prevDate, Some currDate =>
        let diffTime := currDate - prevDate in
        let diffDays := roundDiv diffTime (1000 * 60 * 60 * 24) in
        diffDays =? 1
    | _, _ => false
    end in
  if consecutive then
    let tempStreak' := tempStreak st + 1 in
    if tempStreak' >? maxStreak st then
      {| maxStreak := tempStreak'; tempStreak := tempStreak';
         tempStreakStart := tempStreakStart st;
         maxStreakStart := tempStreakStart st; maxStreakEnd := i |}
    else
      {| maxStreak := maxStreak st; tempStreak := tempStreak';
         tempStreakStart := tempStreakStart st;
         maxStreakStart := maxStreakStart st; maxStreakEnd := maxStreakEnd st |}
  else
    {| maxStreak := maxStreak st; tempStreak := 1; tempStreakStart := i;
       maxStreakStart := maxStreakStart st; maxStreakEnd := maxStreakEnd st |}.

Fixpoint scanFrom (prev : string) (rest : list string) (i : nat) (st : Scan) : Scan :=
  match rest with
  | [] => st
  | curr :: rest' => scanFrom curr rest' (S i) (scanStep prev curr i st)
  end.

(** The scan on the day numbers of the dates: the longest run so far. *)
Fixpoint scanDays (prev : Z) (rest : list Z) (temp longest : Z) : Z :=
  match rest with
  | [] => longest
  | curr :: rest' =>
      if curr - prev =? 1
      then scanDays curr rest' (temp + 1)
             (if temp + 1 >? longest then temp + 1 else longest)
      else scanDays curr rest' 1 longest
  end.

(** [countStreakBackwards]; the loop has no bound of its own and runs here
    on [fuel] turns: [None] when they do not suffice. *)
Fixpoint countBack (fuel : nat) (dailyActivity : JsMap.t Z) (checkDate : Z)
    (streak : Z) : option Z :=
  match fuel with
  | O => None
  | S fuel' =>
      let checkDate' := checkDate - 24 * 60 * 60 * 1000 in
      if JsMap.has dailyActivity (formatDateKey tz checkDate')
      then countBack fuel' dailyActivity checkDate' (streak + 1)
      else Some streak
  end.

Definition countStreakBackwards (fuel : nat) (dailyActivity : JsMap.t Z)
    (startDate : Z) : option Z :=
  countBack fuel dailyActivity startDate 1.

Record StreakResult := {
  resultMaxStreak : Z;
  resultCurrentStreak : Z;
  resultMaxStreakDays : list string
}.

(** The order of [sort()] without a comparator: by the characters' codes. *)
Definition keyOrder (a b : string) : Z := if String.leb a b then -1 else 1.

(** The keys that the max streak looks at, and [activeDates]: these keys,
    sorted. *)
Definition keysOfYear (dailyActivity : JsMap.t Z) (year : Z) : list string :=
  filter (fun date => startsWith date (NumberToString year)) (JsMap.keys dailyActivity).

Definition activeDatesOf (dailyActivity : JsMap.t Z) (year : Z) : list string :=
  sortBy keyOrder (keysOfYear dailyActivity year).

Definition calculateStreaks (fuel : nat) (dailyActivity : JsMap.t Z) (year : Z)
  : option StreakResult :=
  let activeDates := activeDatesOf dailyActivity year in
  match activeDates with
  | [] =>
      Some {| resultMaxStreak := 0; resultCurrentStreak := 0;
              resultMaxStreakDays := [] |}
  | first :: rest =>
      let st :=
        scanFrom first rest 1
          {| maxStreak := 1; tempStreak := 1; tempStreakStart := 0;
             maxStreakStart := 0; maxStreakEnd := 0 |} in
      let maxStreakDays :=
        firstn (S (maxStreakEnd st) - maxStreakStart st)
          (skipn (maxStreakStart st) activeDates) in
      let today := formatDateKey tz now in
      let yesterday := formatDateKey tz (now - 24 * 60 * 60 * 1000) in
      let currentStreak :=
        if JsMap.has dailyActivity today
        then countStreakBackwards fuel dailyActivity now
        else if JsMap.has dailyActivity yesterday
        then countStreakBackwards fuel dailyActivity (now - 24 * 60 * 60 * 1000)
        else Some 0 in
      match currentStreak with
      | Some current =>
          Some {| resultMaxStreak := maxStreak st; resultCurrentStreak := current;
                  resultMaxStreakDays := maxStreakDays |}
      | None => None
      end
  end.

(** The date keys the current streak counts: the anchor day and the days
    before it, as long as they are keys. *)
Fixpoint daysBack (fuel : nat) (dailyActivity : JsMap.t Z) (checkDate : Z)
  : list string :=
  match fuel with
  | O => []
  | S fuel' =>
      let checkDate' := checkDate - 24 * 60 * 60 * 1000 in
      if JsMap.has dailyActivity (formatDateKey tz checkDate')
      then formatDateKey tz checkDate' :: daysBack fuel' dailyActivity checkDate'
      else []
  end.

Definition trailingRun (fuel : nat) (dailyActivity : JsMap.t Z) : list string :=
  if JsMap.has dailyActivity (formatDateKey tz now)
  then formatDateKey tz now :: daysBack fuel dailyActivity now
  else if JsMap.has dailyActivity (formatDateKey tz (now - 24 * 60 * 60 * 1000))
  then formatDateKey tz (now - 24 * 60 * 60 * 1000)
         :: daysBack fuel dailyActivity (now - 24 * 60 * 60 * 1000)
  else [].

End Clock.

(** *** The summary

    [calculateStats], on what the collector hands over. The fields that come
    from the collaborators outside these sources (sessions, messages,
    projects, first session, cost) are left out. *)

(** Modelled from the spec: the collector's result, of which the statistics
    read the events and the daily activity. *)
Record UsageData := {
  events : list CodexUsageEvent;
  dailyActivity : JsMap.t Z
}.

Record CodexStats := {
  statsYear : Z;
  statsTotals : Totals;
  statsRanking : Ranking;
  statsStreaks : StreakResult;
  statsDailyActivity : JsMap.t Z;
  statsWeekdayActivity : WeekdayActivity
}.

Definition calculateStats (tz now : Z) (fuel : nat) (cachedData : ModelsDevData)
    (getModelDisplayName getProviderDisplayName : string -> string)
    (year : Z) (usageData : UsageData) : option CodexStats :=
  let weekdayCounts := weekdayCounts tz (dailyActivity usageData) in
  let '(tot, modelUsageTotals) := aggregate (events usageData) in
  let ranking :=
    rank cachedData getModelDisplayName getProviderDisplayName
      (totalTokens tot) modelUsageTotals in
  match calculateStreaks tz now fuel (dailyActivity usageData) year with
  | Some streaks =>
      Some {| statsYear := year;
              statsTotals := tot;
              statsRanking := ranking;
              statsStreaks := streaks;
              statsDailyActivity := dailyActivity usageData;
              statsWeekdayActivity := buildWeekdayActivity weekdayCounts |}
  | None => None
  end.

(** Sample data: activity in three years, seen on 2025-01-03 at 10:00 UTC,
    and the first days of 2024, seen on 2024-01-03 at 10:00 UTC. *)
Definition threeYears : JsMap.t Z :=
  [ ("2023-03-01", 2); ("2023-03-02", 1); ("2023-03-03", 4); ("2023-03-04", 1);
    ("2023-03-05", 1); ("2024-06-01", 3); ("2025-01-01", 1); ("2025-01-02", 2);
    ("2025-01-03", 1) ].

Definition january2025 : Z := 20091 * msPerDay + 36000000.

Definition firstDays2024 : JsMap.t Z :=
  [ ("2024-01-01", 1); ("2024-01-02", 1); ("2024-01-03", 1); ("2024-01-05", 1) ].

Definition january2024 : Z := 19725 * msPerDay + 36000000.

End Stats.

(** ** Activity patterns *)

Module Activity.
Import Js Dates Stats.

(** The sum of a list of counts. *)
Definition total (l : list Z) : Z := fold_right Z.add 0 l.


End Activity.

(** ** The most active day *)

Module MostActive.
Import Js Dates Stats.

(** [s.split(sep)] for a separator of one character. *)
Fixpoint splitOn (sep : ascii) (s : string) : list string :=
  match s with
  | EmptyString => [EmptyString]
  | String c rest =>
      if Ascii.eqb c sep then EmptyString :: splitOn sep rest
      else match splitOn sep rest with
           | part :: parts => String c part :: parts
           | [] => [String c EmptyString]
           end
  end.

Fixpoint digitsValue (s : string) (acc : Z) : option Z :=
  match s with
  | EmptyString => Some acc
  | String c rest =>
      match digitValue c with
      | Some d => digitsValue rest (10 * acc + d)
      | None => None
      end
  end.

(** [Number(s)] for a string of decimal digits, the empty string being 0.
    Any other string is outside this embedding: [None]. (A value beyond
    2^53 is rounded by the runtime; as a part of a date it is out of the
    range of dates either way.) *)
Definition NumberOf (s : string) : option Z := digitsValue s 0.

(** The number read from the digits of [n], after the number [a]. *)
Fixpoint horner (fuel : nat) (n a : Z) : Z :=
  match fuel with
  | O => 10 * a + n mod 10
  | S f =>
      if n / 10 =? 0 then 10 * a + n mod 10
      else 10 * horner f (n / 10) a + n mod 10
  end.

(** The year of [new Date(year, month, day)]: a year from 0 to 99 stands
    for 1900 and that many years. *)
Definition fullYear (year : Z) : Z :=
  if (0 <=? year) && (year <=? 99) then 1900 + year else year.

(** MakeDay of ECMAScript for any month number. *)
Definition MakeDayOf (year month date : Z) : Z :=
  MakeDay (year + month / 12) (month mod 12) date.

Definition maxTime : Z := 8640000000000000.

(** TimeClip: a time value outside the range of dates is the invalid
    date, [None]. *)
Definition TimeClip (t : Z) : option Z :=
  if Z.abs t <=? maxTime then Some t else None.

Section Zone.
Variable tz : Z.

(** [new Date(year, month, day)]: midnight of that day on the local
    calendar. *)
Definition DateOf (year month day : Z) : option Z :=
  TimeClip (MakeDayOf (fullYear year) month day * msPerDay - tz * 60000).

Definition monthNames : list string :=
  ["Jan"; "Feb"; "Mar"; "Apr"; "May"; "Jun";
   "Jul"; "Aug"; "Sep"; "Oct"; "Nov"; "Dec"].

(** The text [`${monthNames[dateObj.getMonth()]} ${dateObj.getDate()}`]; the
    getters of an invalid date give NaN. *)
Definition monthAndDate (dateObj : option Z) : string :=
  match dateObj with
  | Some t =>
      nth (Z.to_nat (getMonth tz t)) monthNames "undefined"
      ++ " " ++ NumberToString (getDate tz t)
  | None => "undefined NaN"
  end.

(** The parsing and formatting of the winning key. [None] when one of the
    first three parts is missing or is not a string of digits: such a key
    is outside this embedding. *)
Definition formattedDateOf (maxDate : string) : option string :=
  match map NumberOf (splitOn "-" maxDate) with
  | Some year :: Some month :: Some day :: _ =>
      Some (monthAndDate (DateOf year (month - 1) day))
  | _ => None
  end.

Record MostActiveDay := {
  date : string;
  count : Z;
  formattedDate : option string
}.

(** The loop over [dailyActivity.entries()]. *)
Definition greatest (dailyActivity : JsMap.t Z) : string * Z :=
  fold_left
    (fun (acc : string * Z) '(date, count) =>
       let '(maxDate, maxCount) := acc in
       if count >? maxCount then (date, count) else (maxDate, maxCount))
    dailyActivity (EmptyString, 0).

Definition findMostActiveDay (dailyActivity : JsMap.t Z) : option MostActiveDay :=
  if (JsMap.size dailyActivity =? 0)%nat then None
  else
    let '(maxDate, maxCount) := greatest dailyActivity in
    if negb (Models.truthyString maxDate) then None
    else Some {| date := maxDate;
                 count := maxCount;
                 formattedDate := formattedDateOf maxDate |}.

End Zone.

End MostActive.

(** ** Runs of days *)

Module Runs.
Import Js Dates Stats.

(** Two keys that read as one day and the day after it. *)
Definition nextDay (prev curr : string) : Prop :=
  exists t, DateFromString prev = Some t
            /\ DateFromString curr = Some (t + msPerDay).



End Runs.

(** ** Dates of the heatmap *)

Module Heatmap.
Import Js Dates MostActive.

(** [count / maxCount] against the six thresholds. The runtime divides and
    compares doubles; for counts below 2^50 the outcome of each comparison
    is that of the exact quotient against the exact decimal fraction, which
    is what is written here. *)
Definition getIntensityLevel (count maxCount : Z) : Z :=
  if count =? 0 then 0
  else if maxCount =? 0 then 0
  else
    let ratio := (inject_Z count / inject_Z maxCount)%Q in
    if Qle_bool ratio (1 # 10) then 1
    else if Qle_bool ratio (1 # 4) then 2
    else if Qle_bool ratio (2 # 5) then 3
    else if Qle_bool ratio (3 # 5) then 4
    else if Qle_bool ratio (4 # 5) then 5
    else 6.

Section Clock.

(** The offset of the local zone, in minutes east of UTC, and the time
    value of the present moment. A [Date] object is its time value, or
    [None] when it is the invalid date. *)
Variable tz : Z.
Variable now : Z.

(** [a <= b] on two dates: false when either is invalid. *)
Definition dateLe (a b : option Z) : bool :=
  match a, b with
  | Some x, Some y => x <=? y
  | _, _ => false
  end.

Definition TimeWithinDay (t : Z) : Z := t mod msPerDay.

(** [date.setDate(dt)]: the same month and time of day on the local
    calendar, the day of the month replaced. *)
Definition setDate (date : option Z) (dt : option Z) : option Z :=
  match date, dt with
  | Some t, Some dt =>
      let local := LocalTime tz t in
      TimeClip (MakeDayOf (YearFromDay (Day local)) (MonthFromDay (Day local)) dt
                  * msPerDay
                + TimeWithinDay local - tz * 60000)
  | _, _ => None
  end.

(** [week.some((d) => d !== "")]. *)
Definition hasDate (week : list string) : bool :=
  existsb (fun d => negb (String.eqb d EmptyString)) week.

(** [if (currentWeek.length > 0 && currentWeek.some(...)) weeks.push(currentWeek)]. *)
Definition pushWeek (weeks : list (list string)) (currentWeek : list string)
  : list (list string) :=
  if (0 <? List.length currentWeek)%nat && hasDate currentWeek
  then (weeks ++ [currentWeek])%list
  else weeks.

(** The [while] loop of [generateWeeksForYear], on [fuel] turns; it gives
    [weeks] and [currentWeek] as they are when the loop is left. *)
Fixpoint weeksLoop (fuel : nat) (year : Z) (endDate currentDate : option Z)
    (currentWeek : list string) (weeks : list (list string))
  : option (list (list string) * list string) :=
  match fuel with
  | O => None
  | S fuel' =>
      if dateLe currentDate endDate || (0 <? List.length currentWeek)%nat then
        let dayOfWeek := option_map (getDay tz) currentDate in
        let inYear :=
          match currentDate with
          | Some t => getFullYear tz t =? year
          | None => false
          end in
        let currentWeek1 :=
          if inYear && dateLe currentDate endDate then
            match currentDate with
            | Some t => (currentWeek ++ [formatDateKey tz t])%list
            | None => currentWeek
            end
          else if inYear then (currentWeek ++ [EmptyString])%list
          else currentWeek in
        let isSaturday :=
          match dayOfWeek with
          | Some w => w =? 6
          | None => false
          end in
        let weeks1 := if isSaturday then pushWeek weeks currentWeek1 else weeks in
        let currentWeek2 := if isSaturday then [] else currentWeek1 in
        let currentDate1 :=
          setDate currentDate (option_map (fun t => getDate tz t + 1) currentDate) in
        let tooFar :=
          match currentDate1 with
          | Some t => getFullYear tz t >? year + 1
          | None => false
          end in
        if tooFar then Some (weeks1, currentWeek2)
        else weeksLoop fuel' year endDate currentDate1 currentWeek2 weeks1
      else Some (weeks, currentWeek)
  end.

Definition generateWeeksForYear (fuel : nat) (year : Z) : option (list (list string)) :=
  let startDate := DateOf tz year 0 1 in
  let startDay := option_map (getDay tz) startDate in
  let adjustedStart :=
    match startDay with
    | Some 0 => startDate
    | Some w => setDate startDate (option_map (fun t => getDate tz t - w) startDate)
    | None => setDate startDate None
    end in
  let isCurrentYear := year =? getFullYear tz now in
  let endDate := if isCurrentYear then Some now else DateOf tz year 11 31 in
  match weeksLoop fuel year endDate adjustedStart [] [] with
  | Some (weeks, currentWeek) => Some (pushWeek weeks currentWeek)
  | None => None
  end.

(** [isWrappedAvailable]: whether the year can be shown, and whether a
    message says why not. *)
Definition isWrappedAvailable (year : Z) : bool * bool :=
  let currentYear := getFullYear tz now in
  if year <? currentYear then (true, false)
  else if year >? currentYear then (false, true)
  else (true, false).

(** Midnight of the local day [d], as a time value. *)
Definition midnight (d : Z) : Z := d * msPerDay - tz * 60000.

(** The last day the weeks of [year] list: today in the current year, the
    31st of December in any other. *)
Definition lastListed (year : Z) : Z :=
  if year =? getFullYear tz now then Day (LocalTime tz now) else MakeDay year 11 31.

End Clock.

(** A week that is kept has from one to seven entries, a date among them. *)
Definition keptWeek (week : list string) : Prop :=
  (1 <= List.length week <= 7)%nat /\ hasDate week = true.

(** The keys of [n] days from day [first] on. *)
Definition keysFrom (first : Z) (n : nat) : list string :=
  map (fun i => keyOfDay (first + Z.of_nat i)) (seq 0 n).

(** The dates of a list of weeks, one after the other, padding left out. *)
Definition datesOf (weeks : list (list string)) : list string :=
  filter (fun d => negb (String.eqb d EmptyString)) (List.concat weeks).

(** The end of the listing, as a date. *)
Definition endDateOf (tz now year : Z) : option Z :=
  if year =? getFullYear tz now then Some now else DateOf tz year 11 31.

(** What the loop keeps true when it stands at day [d]: the dates listed
    so far are those of the year up to the day before, the current week
    has no more entries than days have gone by since Sunday, and past the
    last day listed the loop is at most in the week it was in. *)
Definition weeksOk (tz now year : Z) (d : Z) (currentWeek : list string)
    (weeks : list (list string)) : Prop :=
  filter (fun s => negb (String.eqb s EmptyString)) (List.concat weeks ++ currentWeek)%list
  = keysFrom (DayFromYear year)
      (Z.to_nat (Z.min d (lastListed tz now year + 1) - DayFromYear year))
  /\ Z.of_nat (List.length currentWeek) <= WeekDay d
  /\ Forall keptWeek weeks
  /\ (lastListed tz now year < d -> currentWeek <> [] ->
      d - lastListed tz now year <= WeekDay d)
  /\ (year <> getFullYear tz now ->
      Forall (fun s => s <> EmptyString) (List.concat weeks ++ currentWeek)%list).

(** The turns the loop still takes, at most. *)
Definition turnsLeft (tz now year : Z) (d : Z) (currentWeek : list string) : Z :=
  if d <=? lastListed tz now year then lastListed tz now year - d + 9
  else if (List.length currentWeek =? 0)%nat then 0
  else 7 - WeekDay d.

End Heatmap.

(** ** Display names

    Identifiers and names are strings of bytes; the classes of characters
    that the code tests (digits, letters, the underscore) are ASCII, and a
    byte outside ASCII is in none of them. Changing the case of a character
    is modelled for ASCII letters; an identifier with other letters is
    outside this embedding where its case is changed. *)

Module Names.
Import Js Models.

Definition charIn (lo hi : nat) (c : ascii) : bool :=
  (lo <=? nat_of_ascii c)%nat && (nat_of_ascii c <=? hi)%nat.

Definition isDigitChar (c : ascii) : bool := charIn 48 57 c.
Definition isUpperChar (c : ascii) : bool := charIn 65 90 c.
Definition isLowerChar (c : ascii) : bool := charIn 97 122 c.

(** The class [\w] of regular expressions. *)
Definition isWordChar (c : ascii) : bool :=
  isDigitChar c || isUpperChar c || isLowerChar c || Ascii.eqb c "_".

Definition toUpperChar (c : ascii) : ascii :=
  if isLowerChar c then ascii_of_nat (nat_of_ascii c - 32) else c.

Definition toLowerChar (c : ascii) : ascii :=
  if isUpperChar c then ascii_of_nat (nat_of_ascii c + 32) else c.

Fixpoint mapString (f : ascii -> ascii) (s : string) : string :=
  match s with
  | EmptyString => EmptyString
  | String c rest => String (f c) (mapString f rest)
  end.

(** [s.toLowerCase()] on ASCII. *)
Definition toLowerCase (s : string) : string := mapString toLowerChar s.

Definition headChar (s : string) : option ascii :=
  match s with
  | EmptyString => None
  | String c _ => Some c
  end.

(** What may follow a match: [\b] after a word character, and the
    lookahead [(?=[-0-9])]. *)
Definition wordEnds (next : option ascii) : bool :=
  match next with
  | None => true
  | Some c => negb (isWordChar c)
  end.

Definition dashOrDigit (next : option ascii) : bool :=
  match next with
  | Some c => Ascii.eqb c "-" || isDigitChar c
  | None => false
  end.

(** Whether [/\bgpt.../i] matches at the characters [g], [p], [t] followed
    by [rest], given whether the character before is a word character. *)
Definition gptAt (after : option ascii -> bool) (prevWord : bool)
    (g p t : ascii) (rest : string) : bool :=
  negb prevWord
  && Ascii.eqb (toLowerChar g) "g" && Ascii.eqb (toLowerChar p) "p"
  && Ascii.eqb (toLowerChar t) "t" && after (headChar rest).

(** [s.replace(/\bgpt<after>/gi, "GPT")]: the scan from left to right, a
    match being replaced and skipped. *)
Fixpoint replaceGpt (after : option ascii -> bool) (prevWord : bool) (s : string)
  : string :=
  match s with
  | EmptyString => EmptyString
  | String c s1 =>
      match s1 with
      | String p (String t rest) =>
          if gptAt after prevWord c p t rest
          then String "G" (String "P" (String "T" (replaceGpt after true rest)))
          else String c (replaceGpt after (isWordChar c) s1)
      | _ => String c (replaceGpt after (isWordChar c) s1)
      end
  end.

(** Whether the expression matches at the start of [s], and [s] without
    its first [n] characters. *)
Definition gptHead (after : option ascii -> bool) (prevWord : bool) (s : string)
  : bool :=
  match s with
  | String g (String p (String t rest)) => gptAt after prevWord g p t rest
  | _ => false
  end.

Fixpoint dropString (n : nat) (s : string) : string :=
  match n, s with
  | S m, String _ rest => dropString m rest
  | _, _ => s
  end.

Definition normalizeModelName (name : string) : string :=
  replaceGpt dashOrDigit false (replaceGpt wordEnds false name).

(** The two replacements as one: what may follow is the end of a word or a
    digit. *)
Definition wordEndsOrDigit (next : option ascii) : bool :=
  wordEnds next || dashOrDigit next.

(** [s.split(/[-_]/)]. *)
Definition isSeparator (c : ascii) : bool := Ascii.eqb c "-" || Ascii.eqb c "_".

Fixpoint splitBy (isSep : ascii -> bool) (s : string) : list string :=
  match s with
  | EmptyString => [EmptyString]
  | String c rest =>
      if isSep c then EmptyString :: splitBy isSep rest
      else match splitBy isSep rest with
           | part :: parts => String c part :: parts
           | [] => [String c EmptyString]
           end
  end.

(** [part.charAt(0).toUpperCase() + part.slice(1)]. *)
Definition capitalize (part : string) : string :=
  match part with
  | EmptyString => EmptyString
  | String c rest => String (toUpperChar c) rest
  end.

Definition formatPart (part : string) : string :=
  if match headChar part with Some c => isDigitChar c | None => false end then part
  else if String.eqb (toLowerCase part) "gpt" then "GPT"
  else capitalize part.

Definition formatModelIdAsName (modelId : string) : string :=
  String.concat " " (map formatPart (splitBy isSeparator modelId)).

(** The tables are object literals: a key that is not in the table is
    looked up on the prototype of objects, whose member functions have a
    [name]. *)
Definition inheritedName (key : string) : option string :=
  if String.eqb key "constructor" then Some "Object"
  else if existsb (String.eqb key)
            ["toString"; "toLocaleString"; "valueOf"; "hasOwnProperty";
             "isPrototypeOf"; "propertyIsEnumerable"; "__defineGetter__";
             "__defineSetter__"; "__lookupGetter__"; "__lookupSetter__"]
  then Some key
  else None.

Definition getModelDisplayName (cachedData : ModelsDevData) (modelId : string)
  : string :=
  match JsMap.get (models cachedData) modelId with
  | Some info =>
      if truthyString (name info) then normalizeModelName (name info)
      else normalizeModelName (formatModelIdAsName modelId)
  | None =>
      match inheritedName modelId with
      | Some inherited => normalizeModelName inherited
      | None => normalizeModelName (formatModelIdAsName modelId)
      end
  end.

Definition getProviderDisplayName (cachedData : ModelsDevData) (providerId : string)
  : string :=
  match JsMap.get (providers cachedData) providerId with
  | Some info =>
      if truthyString (providerName info) then providerName info
      else capitalize providerId
  | None =>
      match inheritedName providerId with
      | Some inherited => inherited
      | None => capitalize providerId
      end
  end.

Definition getProviderLogoUrl (providerId : string) : string :=
  "https://models.dev/logos/" ++ providerId ++ ".svg".

(** The identifier with every separator turned into a space. *)
Definition spaced (modelId : string) : string :=
  mapString (fun c => if isSeparator c then " "%char else c) modelId.

(** A condition on what follows a match that does not look at the case of
    the character. *)
Definition caseBlind (after : option ascii -> bool) : Prop :=
  forall c, after (Some (toLowerChar c)) = after (Some c).

(** Every character is ASCII. *)
Definition isAscii (s : string) : Prop :=
  forall c, In c (list_ascii_of_string s) -> (nat_of_ascii c < 128)%nat.

End Names.

(** ** Platform packages

    The names of the platform packages, as the build writes them, as the
    installer asks for them and as the launcher looks for them. *)

Module Packaging.
Import Js MostActive.

Definition targetpackageName : string := "codex-wrapped-noyrlimit".

Inductive Os := linux | darwin | win32.
Inductive Arch := arm64 | x64.

(** A build target; [musl] stands for [abi: "musl"] and [baseline] for
    [avx2: false]. *)
Record Target := {
  os : Os;
  arch : Arch;
  musl : bool;
  baseline : bool
}.

Definition osText (o : Os) : string :=
  match o with
  | linux => "linux"
  | darwin => "darwin"
  | win32 => "win32"
  end.

Definition archText (a : Arch) : string :=
  match a with
  | arm64 => "arm64"
  | x64 => "x64"
  end.

(** [parts.filter(Boolean)]: the parts that are there. *)
Fixpoint present (parts : list (option string)) : list string :=
  match parts with
  | [] => []
  | Some part :: rest => part :: present rest
  | None :: rest => present rest
  end.

Definition getTargetName (item : Target) : string :=
  String.concat "-"
    (present
       [ Some targetpackageName;
         Some (match os item with win32 => "windows" | o => osText o end);
         Some (archText (arch item));
         (if baseline item then Some "baseline" else None);
         (if musl item then Some "musl" else None) ]).


(** [getPackageName] of the installer, on what [os.platform()] and
    [os.arch()] return and on what the detection of AVX2 and of musl finds;
    [None] is [null]. *)
Definition getPackageName (platform arch : string) (detectAVX2 detectMusl : bool)
  : option string :=
  let platform' :=
    if String.eqb platform "darwin" then Some "darwin"
    else if String.eqb platform "linux" then Some "linux"
    else if String.eqb platform "win32" then Some "windows"
    else None in
  match platform' with
  | None => None
  | Some p =>
      let arch' :=
        if String.eqb arch "x64" then Some "x64"
        else if String.eqb arch "arm64" then Some "arm64"
        else None in
      match arch' with
      | None => None
      | Some a =>
          let parts := [targetpackageName; p; a] in
          let parts1 :=
            if String.eqb a "x64" && negb detectAVX2
            then (parts ++ ["baseline"])%list else parts in
          let parts2 :=
            if String.eqb p "linux" && detectMusl
            then (parts1 ++ ["musl"])%list else parts1 in
          Some (String.concat "-" parts2)
      end
  end.

(** The package tried when the one asked for is not installed:
    [packageName.split("-").slice(0, 3).join("-")]. *)
Definition basePackage (packageName : string) : string :=
  String.concat "-" (firstn 3 (splitOn "-" packageName)).




End Packaging.

(** ** Tallies *)

Module Tally.
Import Js Models Stats.

(** The sum of a count over the events. *)
Definition eventSum (count : CodexUsageEvent -> Z) (events : list CodexUsageEvent) : Z :=
  fold_right (fun event acc => count event + acc) 0 events.

(** The models of the events, each once, in the order first seen. *)
Definition modelsSeen (events : list CodexUsageEvent) : list string :=
  fold_left
    (fun seen event =>
       if existsb (String.eqb (Event.model event)) seen then seen
       else (seen ++ [Event.model event])%list)
    events [].

(** The entries of the model totals that the ranking keeps: those with a
    positive token total. *)
Definition rankedEntries (modelUsageTotals : JsMap.t ModelUsageTotals)
  : JsMap.t ModelUsageTotals :=
  filter (fun kv => 0 <? tokenTotalOf (snd kv)) modelUsageTotals.

(** The tokens of the ranked models of one provider. *)
Definition providerShare (cachedData : ModelsDevData) (providerId : string)
    (modelUsageTotals : JsMap.t ModelUsageTotals) : Z :=
  sumBy tokenTotalOf
    (filter (fun kv => String.eqb (resolveProviderId cachedData (fst kv)) providerId)
       (rankedEntries modelUsageTotals)).

(** The entry [modelStats.push] makes for an entry of the model totals. *)
Definition statOf (cachedData : ModelsDevData) (getModelDisplayName : string -> string)
    (kv : string * ModelUsageTotals) : ModelStats.t :=
  {| ModelStats.id := fst kv;
     ModelStats.name := getModelDisplayName (fst kv);
     ModelStats.providerId := resolveProviderId cachedData (fst kv);
     ModelStats.count := tokenTotalOf (snd kv);
     ModelStats.percentage := 0%Q |}.

(** The count of a provider in [providerCounts], 0 when it is not there. *)
Definition countOf (providerCounts : JsMap.t Z) (providerId : string) : Z :=
  match JsMap.get providerCounts providerId with
  | Some n => n
  | None => 0
  end.

(** [firstSessionDate] of [calculateStats].  A Date is its time value, or
    [None] for the invalid date; [earliestSessionDate] is the collector's
    Date, or nothing; [historyFirstTs] is the history's first timestamp, a
    whole number of seconds, or nothing; [now] is what [new Date()] reads. *)
Definition historyDateOf (historyFirstTs : option Z) : option (option Z) :=
  match historyFirstTs with
  | Some ts => if ts =? 0 then None else Some (MostActive.TimeClip (ts * 1000))
  | None => None
  end.

(** [a < b] on two Dates: false when either is the invalid date. *)
Definition dateLt (a b : option Z) : bool :=
  match a, b with
  | Some x, Some y => x <? y
  | _, _ => false
  end.

Definition firstSessionDateOf (now : Z) (earliestSessionDate : option (option Z))
    (historyFirstTs : option Z) : option Z :=
  let historyDate := historyDateOf historyFirstTs in
  let firstSessionDate :=
    match earliestSessionDate with
    | Some earliest => earliest
    | None =>
        match historyDate with
        | Some history => history
        | None => Some now
        end
    end in
  match historyDate, earliestSessionDate with
  | Some history, Some earliest =>
      if dateLt history earliest then history else firstSessionDate
  | _, _ => firstSessionDate
  end.

(** [Math.floor((Date.now() - firstSessionDate.getTime()) / (1000 * 60 * 60 * 24))],
    [None] for NaN. *)
Definition daysSinceFirstSession (dateNow : Z) (firstSessionDate : option Z)
  : option Z :=
  match firstSessionDate with
  | Some t => Some ((dateNow - t) / (1000 * 60 * 60 * 24))
  | None => None
  end.

End Tally.

(** ** The publish script *)

Module Publish.
Import Js Names.

(** [getFlagValue(flag)] over the arguments [args] of the command line:
    [--flag value] or [--flag=value], whichever comes first; [None] is
    [undefined]. *)
Definition fullOf (flag : string) : string := "--" ++ flag.

Definition eqPrefixOf (flag : string) : string := fullOf flag ++ "=".

Fixpoint getFlagValueFrom (flag : string) (args : list string) : option string :=
  match args with
  | [] => None
  | arg :: rest =>
      if String.eqb arg (fullOf flag) then
        match rest with
        | next :: _ =>
            match next with
            | EmptyString => None
            | _ => if negb (startsWith next "--") then Some next else None
            end
        | [] => None
        end
      else if startsWith arg (eqPrefixOf flag) then
        Some (dropString (String.length (eqPrefixOf flag)) arg)
      else getFlagValueFrom flag rest
  end.

Definition getFlagValue (args : list string) (flag : string) : option string :=
  getFlagValueFrom flag args.

(** An argument that names the flag, in either form. *)
Definition namesFlag (flag arg : string) : bool :=
  String.eqb arg (fullOf flag) || startsWith arg (eqPrefixOf flag).

(** What [publishWithRetry] does, in order. *)
Inductive Effect : Type :=
| NpmPublish (dryRun : bool) (targetPath : string)
| Log (seconds : Z)
| Sleep (ms : Z).

Inductive Completion (Error : Type) : Type :=
| Returned
| Thrown (error : Error).

Arguments Returned {Error}.
Arguments Thrown {Error} error.

Definition maxRetries : nat := 6.

(** [Math.min(10 * 60_000, baseMs * 2 ** attempt)]. *)
Definition delayMs (attempt : nat) : Z :=
  Z.min (10 * 60000) (30000 * 2 ^ Z.of_nat attempt).

Section Retry.

Variable Error : Type.
(** The errors that tell of a rate limit. *)
Variable isRateLimited : Error -> bool.
Variable dryRun : bool.
(** What the [attempt]-th [npm publish] throws, [None] when it succeeds. *)
Variable publish : nat -> option Error.
(** What [Math.floor(Math.random() * 5_000)] gives in the [attempt]-th turn. *)
Variable jitterMs : nat -> Z.

Definition waitMs (attempt : nat) : Z := delayMs attempt + jitterMs attempt.

(** The loop from [attempt] on, with [turns] turns left of the seven. *)
Fixpoint retryFrom (targetPath : string) (turns attempt : nat)
  : list Effect * Completion Error :=
  match turns with
  | O => ([], Returned)
  | S turns' =>
      match publish attempt with
      | None => ([NpmPublish dryRun targetPath], Returned)
      | Some error =>
          if negb (isRateLimited error) || (attempt =? maxRetries)%nat then
            ([NpmPublish dryRun targetPath], Thrown error)
          else
            let '(effects, completion) := retryFrom targetPath turns' (S attempt) in
            (NpmPublish dryRun targetPath
               :: Log ((waitMs attempt + 500) / 1000)
               :: Sleep (waitMs attempt)
               :: effects,
             completion)
      end
  end.

Definition publishWithRetry (targetPath : string) : list Effect * Completion Error :=
  retryFrom targetPath (maxRetries + 1) 0.

(** The effects of [calls] calls of which all but the last were retried. *)
Definition retried (targetPath : string) (first calls : nat) : list Effect :=
  List.concat
    (map (fun attempt =>
            [NpmPublish dryRun targetPath;
             Log ((waitMs attempt + 500) / 1000);
             Sleep (waitMs attempt)])
       (seq first calls)).

End Retry.

Arguments retryFrom {Error}.
Arguments publishWithRetry {Error}.

(** The time slept, in milliseconds. *)
Definition slept (effects : list Effect) : Z :=
  fold_right (fun effect acc =>
                match effect with
                | Sleep ms => ms + acc
                | _ => acc
                end) 0 effects.

End Publish.

(** * Properties *)

(** ** Terminal capability detection *)

Module TerminalFacts.
Import Js Terminal.

Lemma find_signal_none (env : Env) :
  (forall s, In s signals -> fst s env = false) -> firstSignal env = None.
Proof.
  intros H. unfold firstSignal.
  destruct (find (fun s => fst s env) signals) as [s|] eqn:E; [|reflexivity].
  apply find_some in E. destruct E as [Hin Hs].
  rewrite (H s Hin) in Hs. discriminate.
Qed.

Lemma detectTerminal_signals (env : Env) : detectTerminal env = detectBySignals env.
Proof.
  unfold detectTerminal, detectBySignals, firstSignal, signals.
  cbn [find fst].
  destruct (strictEq (getenv env "TERM") "xterm-ghostty"); [reflexivity|].
  destruct (strictEq (getenv env "TERM") "xterm-kitty"); [reflexivity|].
  destruct (truthy (getenv env "KITTY_WINDOW_ID")); [reflexivity|].
  destruct (strictEq (getenv env "TERM_PROGRAM") "WezTerm"); [reflexivity|].
  destruct (strictEq (getenv env "TERM_PROGRAM") "iTerm.app"); [reflexivity|].
  destruct (strictEq (getenv env "TERM_PROGRAM") "konsole"); [reflexivity|].
  destruct (truthy (getenv env "KONSOLE_VERSION")); [reflexivity|].
  destruct (strictEq (getenv env "TERM_PROGRAM") "vscode"); [reflexivity|].
  destruct (strictEq (getenv env "TERM_PROGRAM") "WarpTerminal"); reflexivity.
Qed.

(** C9: detection is a first match over the fixed, ordered table of
    environment signals: the first signal that holds names the family, the
    family fixes both protocol flags, and an environment in which no signal
    holds gives the default family with both flags false. *)
Theorem detectTerminal_first_match (env : Env) :
  detectTerminal env
  = match find (fun s => fst s env) signals with
    | Some (_, family) => familyInfo family
    | None => familyInfo standard
    end
  /\ (supportsKittyProtocol (detectTerminal env),
      supportsITerm2Protocol (detectTerminal env))
     = familyProtocols (type (detectTerminal env))
  /\ ((forall s, In s signals -> fst s env = false) ->
      detectTerminal env
      = {| type := standard;
           supportsKittyProtocol := false;
           supportsITerm2Protocol := false |}).
Proof.
  split; [apply detectTerminal_signals|]. split.
  - rewrite detectTerminal_signals. unfold detectBySignals.
    destruct (firstSignal env) as [[p family]|]; [destruct family|]; reflexivity.
  - intros H. rewrite detectTerminal_signals. unfold detectBySignals.
    rewrite (find_signal_none env H). reflexivity.
Qed.

Lemma detectTerminal_first_match_witness :
  let env := [("TERM", "xterm-256color"); ("TERM_PROGRAM", "Apple_Terminal")] in
  detectTerminal env
  = {| type := standard;
       supportsKittyProtocol := false;
       supportsITerm2Protocol := false |}.
Proof.
  intros env.
  apply (proj2 (proj2 (detectTerminal_first_match env))).
  intros s Hin. unfold signals in Hin. simpl in Hin.
  repeat (destruct Hin as [<-|Hin]; [reflexivity|]). contradiction.
Defined.

End TerminalFacts.

(** ** Rendering *)

Module DisplayFacts.
Import Js Terminal.

(** The encoder on the usual test vectors, and one rendering in full. *)
Example toBase64_vectors :
  toBase64 (BufferFrom "Man") = "TWFu"
  /\ toBase64 (BufferFrom "Ma") = "TWE="
  /\ toBase64 (BufferFrom "M") = "TQ=="
  /\ toBase64 [] = EmptyString.
Proof. repeat split; reflexivity. Qed.

Example displayKittyProtocol_Man :
  displayKittyProtocol anyBuffer reliable (BufferFrom "Man") []
  = Returned tt [ESC ++ "_Ga=T,f=100,m=0;TWFu" ++ ESC ++ BACKSLASH; LF].
Proof. reflexivity. Qed.

Example displayITerm2Protocol_Man :
  displayITerm2Protocol anyBuffer reliable (BufferFrom "Man") []
  = Returned tt
      [ESC ++ "]1337;File=name=Y29kZXgtd3JhcHBlZC1ub3lybGltaXQucG5n;size=3;inline=1:TWFu"
         ++ BEL ++ LF].
Proof. reflexivity. Qed.

Lemma kittyLoop_lt accepts (b : string) (i : nat) :
  (i < String.length b)%nat ->
  kittyLoop accepts b i
  = (stdout_write accepts
       (frameText {| isFirst := (i =? 0)%nat;
                     moreData := negb (String.length b <=? i + chunkSize)%nat;
                     chunk := slice b i (i + chunkSize) |}) ;;;
     kittyLoop accepts b (i + chunkSize)).
Proof.
  intros H. rewrite (kittyLoop_equation_1 accepts b i).
  destruct (lt_dec i (String.length b)); [|lia].
  cbn [kittyLoop_unfold_clause_1]. unfold frameText. cbn [isFirst moreData chunk].
  destruct (i =? 0)%nat, (String.length b <=? i + chunkSize)%nat; reflexivity.
Qed.

Lemma kittyLoop_ge accepts (b : string) (i : nat) :
  (String.length b <= i)%nat -> kittyLoop accepts b i = ret tt.
Proof.
  intros H. rewrite (kittyLoop_equation_1 accepts b i).
  destruct (lt_dec i (String.length b)); [lia|reflexivity].
Qed.

Lemma kittyLoop_reliable (b : string) (i : nat) (out : list string) :
  kittyLoop reliable b i out = Returned tt (out ++ map frameText (kittyFrames b i)).
Proof.
  revert out. funelim (kittyFrames b i); intros out.
  - rewrite kittyLoop_lt by assumption. unfold bind.
    unfold stdout_write at 1. unfold reliable at 1.
    rewrite H, <- app_assoc. reflexivity.
  - rewrite kittyLoop_ge by lia. cbn. rewrite app_nil_r. reflexivity.
Qed.

Lemma displayKittyProtocol_reliable (pngBuffer : Buffer) :
  emitsFrames pngBuffer (kittyFrames (toBase64 pngBuffer) 0).
Proof.
  unfold emitsFrames, displayKittyProtocol, toStringBase64, anyBuffer.
  unfold bind at 1 2. unfold ret at 1.
  rewrite kittyLoop_reliable. reflexivity.
Qed.

Lemma frameText_inj (f g : KittyFrame) : frameText f = frameText g -> f = g.
Proof.
  destruct f as [ff fm fc], g as [gf gm gc]. unfold frameText. cbn.
  assert (Happ : forall a b : string, a ++ ESC ++ BACKSLASH = b ++ ESC ++ BACKSLASH -> a = b).
  { induction a as [|x a IH]; destruct b as [|y b]; cbn; intros E;
      try reflexivity.
    - destruct b as [|? [|? ?]]; cbn in E; discriminate.
    - destruct a as [|? [|? ?]]; cbn in E; discriminate.
    - injection E as -> E. f_equal. apply IH, E. }
  destruct ff, gf, fm, gm; cbn; intros E; try discriminate;
    injection E as E; apply Happ in E; subst; reflexivity.
Qed.

Lemma map_frameText_inj (fs gs : list KittyFrame) :
  map frameText fs = map frameText gs -> fs = gs.
Proof.
  revert gs. induction fs as [|f fs IH]; destruct gs as [|g gs]; cbn;
    intros E; try discriminate; [reflexivity|].
  injection E as E1 E2. f_equal; [apply frameText_inj, E1|apply IH, E2].
Qed.

(** What a reliable stream holds after the rendering determines the frames. *)
Lemma emitsFrames_unique (pngBuffer : Buffer) (fs gs : list KittyFrame) :
  emitsFrames pngBuffer fs -> emitsFrames pngBuffer gs -> fs = gs.
Proof.
  unfold emitsFrames. intros -> E. injection E as E.
  apply app_inv_tail in E. apply map_frameText_inj. exact E.
Qed.

Lemma length_substring_le (n m : nat) (s : string) :
  (String.length (substring n m s) <= m)%nat.
Proof.
  revert n m. induction s as [|c s IH]; intros [|n] [|m]; cbn; try lia.
  - specialize (IH 0%nat m). lia.
  - apply (IH n 0%nat).
  - apply (IH n (S m)).
Qed.

Lemma ceilDiv_step (x c : nat) :
  (0 < c)%nat -> (0 < x)%nat -> ceilDiv x c = S (ceilDiv (x - c) c).
Proof.
  intros Hc Hx. unfold ceilDiv.
  destruct (le_lt_dec x c) as [Hle|Hgt].
  - replace (x - c)%nat with 0%nat by lia. cbn [plus].
    rewrite (Nat.div_small (c - 1) c) by lia.
    replace (x + (c - 1))%nat with ((x - 1) + 1 * c)%nat by lia.
    rewrite Nat.div_add by lia. rewrite Nat.div_small by lia. reflexivity.
  - replace (x + (c - 1))%nat with ((x - c + (c - 1)) + 1 * c)%nat by lia.
    rewrite Nat.div_add by lia. lia.
Qed.

Lemma kittyFrames_length (b : string) (i : nat) :
  List.length (kittyFrames b i) = ceilDiv (String.length b - i) chunkSize.
Proof.
  funelim (kittyFrames b i).
  - cbn [List.length]. rewrite H.
    rewrite (ceilDiv_step (String.length base64Data - i) chunkSize);
      [|unfold chunkSize; lia|lia].
    do 2 f_equal. lia.
  - replace (String.length base64Data - i)%nat with 0%nat by lia.
    reflexivity.
Qed.

Lemma kittyFrames_chunks (b : string) (i : nat) :
  Forall (fun f => (String.length (chunk f) <= chunkSize)%nat) (kittyFrames b i).
Proof.
  funelim (kittyFrames b i); constructor; [|exact H].
  cbn [chunk]. unfold slice.
  replace (i + chunkSize - i)%nat with chunkSize by lia.
  apply length_substring_le.
Qed.

Lemma kittyFrames_nil (b : string) (i : nat) :
  (String.length b <= i)%nat -> kittyFrames b i = [].
Proof.
  intros H. simp kittyFrames.
  destruct (lt_dec i (String.length b)); [lia|reflexivity].
Qed.

Lemma kittyFrames_cons (b : string) (i : nat) :
  (i < String.length b)%nat ->
  kittyFrames b i
  = {| isFirst := (i =? 0)%nat;
       moreData := negb (String.length b <=? i + chunkSize)%nat;
       chunk := slice b i (i + chunkSize) |}
    :: kittyFrames b (i + chunkSize).
Proof.
  intros H. rewrite (kittyFrames_equation_1 b i).
  destruct (lt_dec i (String.length b)); [reflexivity|lia].
Qed.

(** Every frame but the last announces more data; the last one does not. *)
Lemma kittyFrames_flags (b : string) (i : nat) (d : KittyFrame) :
  (forall f, In f (removelast (kittyFrames b i)) -> moreData f = true)
  /\ (kittyFrames b i <> [] -> moreData (last (kittyFrames b i) d) = false).
Proof.
  funelim (kittyFrames b i).
  - destruct (le_lt_dec (String.length base64Data) (i + chunkSize)) as [Hle|Hgt].
    + rewrite (kittyFrames_nil base64Data (i + chunkSize) Hle).
      cbn [removelast last moreData]. split; [contradiction|].
      intros _. apply Nat.leb_le in Hle. rewrite Hle. reflexivity.
    + destruct (H d) as [Hinit Hlast].
      rewrite (kittyFrames_cons base64Data (i + chunkSize) Hgt) in *.
      split.
      * cbn [removelast]. intros f [<-|Hin].
        -- cbn [moreData]. apply Nat.leb_gt in Hgt. rewrite Hgt. reflexivity.
        -- apply Hinit, Hin.
      * intros _. cbn [last]. apply Hlast. discriminate.
  - split; [contradiction|]. intros C. contradiction C. reflexivity.
Qed.

Lemma substring_app (s : string) (i n m : nat) :
  substring i (n + m) s = substring i n s ++ substring (i + n) m s.
Proof.
  revert i n m. induction s as [|c s IH]; intros [|i] [|n] m; cbn.
  all: try (destruct m; reflexivity).
  - rewrite (IH 0%nat n m). reflexivity.
  - rewrite <- (IH i 0%nat m). reflexivity.
  - apply (IH i (S n) m).
Qed.

Lemma substring_past (s : string) (i n : nat) :
  (String.length s <= i)%nat -> substring i n s = EmptyString.
Proof.
  revert i n. induction s as [|c s IH]; intros [|i] [|n]; cbn; intros H;
    try reflexivity; try lia; apply IH; lia.
Qed.

Lemma substring_clip (s : string) (i n : nat) :
  (String.length s - i <= n)%nat ->
  substring i n s = substring i (String.length s - i) s.
Proof.
  revert i n. induction s as [|c s IH]; intros [|i] [|n]; cbn; intros H;
    try reflexivity; try lia.
  - rewrite (IH 0%nat n) by lia. rewrite Nat.sub_0_r. reflexivity.
  - apply IH. lia.
  - apply IH. lia.
Qed.

Lemma substring_all (s : string) : substring 0 (String.length s) s = s.
Proof. induction s as [|c s IH]; cbn; [|rewrite IH]; reflexivity. Qed.

(** The chunks, put end to end, are the base64 text from [i] on. *)
Lemma kittyFrames_concat (b : string) (i : nat) :
  fold_right (fun f acc => chunk f ++ acc) EmptyString (kittyFrames b i)
  = substring i (String.length b - i) b.
Proof.
  funelim (kittyFrames b i).
  - cbn [fold_right chunk]. rewrite H. unfold slice.
    replace (i + chunkSize - i)%nat with chunkSize by lia.
    destruct (le_lt_dec (String.length base64Data) (i + chunkSize)) as [Hle|Hgt].
    + rewrite (substring_past base64Data (i + chunkSize)) by exact Hle.
      rewrite (substring_clip base64Data i chunkSize) by lia.
      clear. induction (substring _ _ _); cbn; congruence.
    + replace (String.length base64Data - i)%nat
        with (chunkSize + (String.length base64Data - (i + chunkSize)))%nat by lia.
      apply eq_sym, substring_app.
  - cbn. symmetry. apply substring_past. lia.
Qed.

Lemma ceilDiv_least (a b : nat) :
  (0 < b)%nat ->
  (a <= ceilDiv a b * b)%nat
  /\ forall k, (a <= k * b)%nat -> (ceilDiv a b <= k)%nat.
Proof.
  intros Hb. unfold ceilDiv. split.
  - pose proof (Nat.div_mod_eq (a + (b - 1)) b) as E.
    pose proof (Nat.mod_upper_bound (a + (b - 1)) b ltac:(lia)) as U. nia.
  - intros k Hk. apply Nat.lt_succ_r.
    apply Nat.Div0.div_lt_upper_bound. nia.
Qed.

(** C8: on the chunked protocol every payload is sent in
    ceil(base64Length / 4096) frames; no chunk is longer than 4096
    characters, every frame but the last carries m=1 and the last carries
    m=0. (The chunks, end to end, are the base64 text.) *)
Theorem kitty_frame_count (pngBuffer : Buffer) :
  exists fs : list KittyFrame,
    emitsFrames pngBuffer fs
    /\ List.length fs = ceilDiv (String.length (toBase64 pngBuffer)) 4096
    /\ Forall (fun f => (String.length (chunk f) <= 4096)%nat) fs
    /\ (forall f, In f (removelast fs) -> moreData f = true)
    /\ (forall d, fs <> [] -> moreData (last fs d) = false)
    /\ fold_right (fun f acc => chunk f ++ acc) EmptyString fs = toBase64 pngBuffer.
Proof.
  exists (kittyFrames (toBase64 pngBuffer) 0).
  split; [apply displayKittyProtocol_reliable|].
  split; [rewrite kittyFrames_length, Nat.sub_0_r; reflexivity|].
  split; [apply kittyFrames_chunks|].
  split; [apply (kittyFrames_flags _ _ {| isFirst := true; moreData := true; chunk := EmptyString |})|].
  split; [intros d; apply kittyFrames_flags|].
  rewrite kittyFrames_concat, Nat.sub_0_r. apply substring_all.
Qed.

Lemma kitty_frame_count_witness :
  exists fs : list KittyFrame,
    emitsFrames (repeat x00 3073) fs /\ List.length fs = 2%nat.
Proof.
  destruct (kitty_frame_count (repeat x00 3073)) as (fs & Hemit & Hlen & _).
  exists fs. split; [exact Hemit|]. rewrite Hlen. vm_compute. reflexivity.
Defined.

(** C2, as stated, fails: a zero-length payload goes through no iteration
    of the loop, so no frame at all is emitted. *)
Lemma empty_payload_one_frame_fails :
  ~ (exists f : KittyFrame,
       emitsFrames [] [f] /\ moreData f = false /\ chunk f = EmptyString).
Proof.
  intros (f & Hemit & _).
  pose proof (displayKittyProtocol_reliable []) as H0.
  rewrite kittyFrames_nil in H0 by (cbn; lia).
  pose proof (emitsFrames_unique _ _ _ Hemit H0) as E. discriminate E.
Qed.

(** C2, amended: a zero-length payload emits no frame, only the newline; a
    payload whose base64 text is not empty and has at most 4096 characters
    emits exactly one frame, the first-chunk one, with m=0 and the whole
    text as its chunk. *)
Theorem small_payload_frames :
  displayKittyProtocol anyBuffer reliable [] [] = Returned tt [LF]
  /\ forall pngBuffer : Buffer,
       (0 < String.length (toBase64 pngBuffer) <= 4096)%nat ->
       emitsFrames pngBuffer
         [ {| isFirst := true; moreData := false; chunk := toBase64 pngBuffer |} ].
Proof.
  split.
  - pose proof (displayKittyProtocol_reliable []) as H0.
    rewrite kittyFrames_nil in H0 by (cbn; lia). exact H0.
  - intros pngBuffer [Hpos Hle].
    pose proof (displayKittyProtocol_reliable pngBuffer) as H0.
    rewrite kittyFrames_cons in H0 by exact Hpos.
    rewrite kittyFrames_nil in H0 by (unfold chunkSize; lia).
    replace (String.length (toBase64 pngBuffer) <=? 0 + chunkSize)%nat
      with true in H0 by (symmetry; apply Nat.leb_le; unfold chunkSize; lia).
    unfold slice in H0. cbn [Nat.eqb negb] in H0.
    rewrite substring_clip in H0 by (unfold chunkSize; lia).
    rewrite Nat.sub_0_r, substring_all in H0. exact H0.
Qed.

Lemma small_payload_frames_witness :
  emitsFrames (BufferFrom "Man")
    [ {| isFirst := true; moreData := false; chunk := "TWFu" |} ].
Proof.
  apply (proj2 small_payload_frames (BufferFrom "Man")).
  change (String.length (toBase64 (BufferFrom "Man"))) with 4%nat. lia.
Defined.

(** C7: rendering never throws: it returns a boolean whatever the payload,
    the capability and the state of the stream; with both protocol flags
    false it writes nothing and returns false; and when the encoding or a
    write fails inside either protocol, the failure is caught and the result
    is false. *)
Theorem displayInTerminal_never_throws
    (encodes : Buffer -> bool) (accepts : list string -> string -> bool)
    (pngBuffer : Buffer) (out : list string) :
  (forall terminal, exists b out',
      displayOn encodes accepts terminal pngBuffer out = Returned b out')
  /\ (forall env, exists b out',
      displayInTerminal encodes accepts env pngBuffer out = Returned b out')
  /\ (forall terminal,
      supportsKittyProtocol terminal = false ->
      supportsITerm2Protocol terminal = false ->
      displayOn encodes accepts terminal pngBuffer out = Returned false out)
  /\ (forall terminal out',
      supportsKittyProtocol terminal = true ->
      displayKittyProtocol encodes accepts pngBuffer out = Thrown out' ->
      displayOn encodes accepts terminal pngBuffer out = Returned false out')
  /\ (forall terminal out',
      supportsKittyProtocol terminal = false ->
      supportsITerm2Protocol terminal = true ->
      displayITerm2Protocol encodes accepts pngBuffer out = Thrown out' ->
      displayOn encodes accepts terminal pngBuffer out = Returned false out').
Proof.
  assert (Hall : forall terminal, exists b out',
             displayOn encodes accepts terminal pngBuffer out = Returned b out').
  { intros [t k i]. unfold displayOn, tryCatch, bind, ret.
    cbn [supportsKittyProtocol supportsITerm2Protocol].
    destruct k; [|destruct i].
    - destruct (displayKittyProtocol encodes accepts pngBuffer out); eauto.
    - destruct (displayITerm2Protocol encodes accepts pngBuffer out); eauto.
    - eauto. }
  split; [exact Hall|]. split; [intros env; apply Hall|].
  repeat split.
  - intros [t k i]. cbn. intros -> ->. reflexivity.
  - intros [t k i] out'. cbn [supportsKittyProtocol]. intros -> E.
    unfold displayOn, tryCatch, bind, ret. cbn [supportsKittyProtocol].
    rewrite E. reflexivity.
  - intros [t k i] out'. cbn [supportsKittyProtocol supportsITerm2Protocol].
    intros -> -> E.
    unfold displayOn, tryCatch, bind, ret.
    cbn [supportsKittyProtocol supportsITerm2Protocol].
    rewrite E. reflexivity.
Qed.

Lemma displayInTerminal_never_throws_witness :
  displayOn anyBuffer closedStream (familyInfo standard) (BufferFrom "Man") []
  = Returned false []
  /\ displayOn anyBuffer closedStream (familyInfo kitty) (BufferFrom "Man") []
     = Returned false []
  /\ displayOn anyBuffer closedStream (familyInfo iterm) (BufferFrom "Man") []
     = Returned false [].
Proof.
  pose proof (displayInTerminal_never_throws anyBuffer closedStream
                (BufferFrom "Man") []) as (_ & _ & Hnone & Hkitty & Hiterm).
  split; [apply Hnone; reflexivity|].
  split; [apply Hkitty; vm_compute; reflexivity|].
  apply Hiterm; vm_compute; reflexivity.
Defined.

End DisplayFacts.

(** ** Maps *)

Module JsMapFacts.

Section WithValue.
Context {V : Type}.
Implicit Types (m : JsMap.t V) (k : string) (v : V).

Lemma get_set_same m k v : JsMap.get (JsMap.set m k v) k = Some v.
Proof.
  induction m as [|[k' v'] m IH]; cbn.
  - rewrite String.eqb_refl. reflexivity.
  - destruct (String.eqb k' k) eqn:E; cbn.
    + rewrite String.eqb_refl. reflexivity.
    + rewrite E. exact IH.
Qed.

Lemma get_set_other m k k' v :
  k <> k' -> JsMap.get (JsMap.set m k v) k' = JsMap.get m k'.
Proof.
  intros Hne. induction m as [|[k0 v0] m IH]; cbn.
  - apply String.eqb_neq in Hne. rewrite Hne. reflexivity.
  - destruct (String.eqb k0 k) eqn:E; cbn.
    + apply String.eqb_eq in E. subst k0.
      apply String.eqb_neq in Hne. rewrite Hne. reflexivity.
    + destruct (String.eqb k0 k'); [reflexivity|exact IH].
Qed.

Lemma get_In m k v : JsMap.get m k = Some v -> In (k, v) m.
Proof.
  induction m as [|[k' v'] m IH]; cbn; [discriminate|].
  destruct (String.eqb k' k) eqn:E.
  - apply String.eqb_eq in E. intros [= ->]. left. congruence.
  - intros H. right. apply IH, H.
Qed.

Lemma has_In m k : JsMap.has m k = true <-> In k (JsMap.keys m).
Proof.
  unfold JsMap.has, JsMap.keys. induction m as [|[k' v'] m IH]; cbn.
  - split; [discriminate|contradiction].
  - destruct (String.eqb k' k) eqn:E.
    + apply String.eqb_eq in E. split; [intros _; left; exact E|reflexivity].
    + apply String.eqb_neq in E. rewrite IH. split; [tauto|].
      intros [H|H]; [contradiction|exact H].
Qed.

Lemma Forall_set (P : string * V -> Prop) m k v :
  Forall P m -> P (k, v) -> Forall P (JsMap.set m k v).
Proof.
  intros Hm Hkv. induction Hm as [|[k' v'] m Hx Hm IH]; cbn.
  - constructor; [exact Hkv|constructor].
  - destruct (String.eqb k' k); constructor; assumption.
Qed.

End WithValue.

End JsMapFacts.

(** ** Usage events and their totals *)

Module AggregateFacts.
Import Js Models Stats JsMapFacts.


(** A fold whose steps commute does not depend on the order of the list. *)
Lemma fold_left_permutation {A B : Type} (f : A -> B -> A) :
  (forall a x y, f (f a x) y = f (f a y) x) ->
  forall l l', Permutation l l' -> forall a, fold_left f l a = fold_left f l' a.
Proof.
  intros Hcomm l l' Hperm.
  induction Hperm as [|x l l' _ IH|x y l|l l' l'' _ IH1 _ IH2]; intros a; cbn.
  - reflexivity.
  - apply IH.
  - rewrite Hcomm. reflexivity.
  - rewrite IH1. apply IH2.
Qed.

Lemma addEvent_fst tot map event :
  fst (addEvent (tot, map) event) = addToTotals tot event.
Proof.
  unfold addToTotals, addEvent.
  destruct (getOrCreateModelUsage map (Event.model event)).
  destruct (getOrCreateModelUsage [] (Event.model event)). reflexivity.
Qed.

Lemma addEvent_snd tot map event :
  snd (addEvent (tot, map) event)
  = JsMap.set map (Event.model event)
      (addToUsage (match JsMap.get map (Event.model event) with
                   | Some u => u
                   | None => Usage.fresh
                   end) event).
Proof.
  unfold addEvent, getOrCreateModelUsage.
  destruct (JsMap.get map (Event.model event)) as [u|] eqn:E; cbn [snd].
  - reflexivity.
  - unfold addToUsage.
    induction map as [|[k v] map IH]; cbn in *.
    + rewrite String.eqb_refl. reflexivity.
    + destruct (String.eqb k (Event.model event)) eqn:Ek; [discriminate|].
      cbn. rewrite Ek. f_equal. apply IH, E.
Qed.

Lemma addEvent_get tot map event modelId :
  JsMap.get (snd (addEvent (tot, map) event)) modelId
  = addForModel modelId (JsMap.get map modelId) event.
Proof.
  rewrite addEvent_snd. unfold addForModel.
  destruct (String.eqb (Event.model event) modelId) eqn:E.
  - apply String.eqb_eq in E. subst modelId. apply get_set_same.
  - apply String.eqb_neq in E. apply get_set_other, E.
Qed.

Lemma aggregate_from_fst events tot map :
  fst (fold_left addEvent events (tot, map)) = fold_left addToTotals events tot.
Proof.
  revert tot map. induction events as [|e events IH]; intros tot map; cbn [fold_left].
  - reflexivity.
  - destruct (addEvent (tot, map) e) as [tot' map'] eqn:E.
    rewrite IH. f_equal. rewrite <- (addEvent_fst tot map e), E. reflexivity.
Qed.

Lemma aggregate_from_get events tot map modelId :
  JsMap.get (snd (fold_left addEvent events (tot, map))) modelId
  = fold_left (addForModel modelId) events (JsMap.get map modelId).
Proof.
  revert tot map. induction events as [|e events IH]; intros tot map; cbn [fold_left].
  - reflexivity.
  - destruct (addEvent (tot, map) e) as [tot' map'] eqn:E.
    rewrite IH. f_equal. rewrite <- (addEvent_get tot map e), E. reflexivity.
Qed.

Lemma addToTotals_comm tot x y :
  addToTotals (addToTotals tot x) y = addToTotals (addToTotals tot y) x.
Proof.
  unfold addToTotals, addEvent.
  repeat match goal with
         | |- context [getOrCreateModelUsage ?m ?k] =>
             destruct (getOrCreateModelUsage m k)
         end.
  cbn. f_equal; lia.
Qed.

Lemma addToUsage_comm usage x y :
  addToUsage (addToUsage usage x) y = addToUsage (addToUsage usage y) x.
Proof. unfold addToUsage. cbn. f_equal; lia. Qed.

Lemma addForModel_comm modelId entry x y :
  addForModel modelId (addForModel modelId entry x) y
  = addForModel modelId (addForModel modelId entry y) x.
Proof.
  unfold addForModel.
  destruct (String.eqb (Event.model x) modelId), (String.eqb (Event.model y) modelId);
    try reflexivity.
  f_equal. apply addToUsage_comm.
Qed.

(** C5: folding the usage events does not depend on their order: a
    permutation of the events gives the same five grand totals and, for
    every model id, the same ModelUsageTotals (or none for both). *)
Theorem aggregate_order_independent (events events' : list CodexUsageEvent) :
  Permutation events events' ->
  fst (aggregate events) = fst (aggregate events')
  /\ forall modelId,
       JsMap.get (snd (aggregate events)) modelId
       = JsMap.get (snd (aggregate events')) modelId.
Proof.
  intros Hperm. unfold aggregate. split.
  - rewrite !aggregate_from_fst.
    apply fold_left_permutation; [apply addToTotals_comm|exact Hperm].
  - intros modelId. rewrite !aggregate_from_get.
    apply fold_left_permutation; [apply addForModel_comm|exact Hperm].
Qed.

Lemma aggregate_order_independent_witness :
  let e1 := sampleEvent "gpt-5" 100 10 20 5 120 in
  let e2 := sampleEvent "o3" 7 0 9 3 0 in
  let e3 := sampleEvent "gpt-5" 1 1 1 1 1 in
  fst (aggregate [e1; e2; e3]) = fst (aggregate [e3; e1; e2])
  /\ forall modelId,
       JsMap.get (snd (aggregate [e1; e2; e3])) modelId
       = JsMap.get (snd (aggregate [e3; e1; e2])) modelId.
Proof.
  intros e1 e2 e3. apply aggregate_order_independent.
  apply Permutation_sym.
  apply (Permutation_cons_app [e1; e2] [] e3). apply Permutation_refl.
Defined.

(** C6: the effective total of an event is max(totalTokens, inputTokens +
    outputTokens); it is never below inputTokens + outputTokens, and it is
    totalTokens itself when that field is at least inputTokens +
    outputTokens. *)
Theorem getEventTotal_is_max (event : CodexUsageEvent) :
  getEventTotal event
  = Z.max (Event.totalTokens event)
      (Event.inputTokens event + Event.outputTokens event)
  /\ Event.inputTokens event + Event.outputTokens event <= getEventTotal event
  /\ (Event.inputTokens event + Event.outputTokens event <= Event.totalTokens event ->
      getEventTotal event = Event.totalTokens event).
Proof.
  unfold getEventTotal. cbv zeta. repeat split; lia.
Qed.

Lemma getEventTotal_is_max_witness :
  getEventTotal
    {| Event.timestamp := 0; Event.model := "gpt-5"; Event.inputTokens := 120;
       Event.cachedInputTokens := 20; Event.outputTokens := 30;
       Event.reasoningOutputTokens := 10; Event.totalTokens := 150 |}
  = 150.
Proof.
  apply (proj2 (proj2 (getEventTotal_is_max
    {| Event.timestamp := 0; Event.model := "gpt-5"; Event.inputTokens := 120;
       Event.cachedInputTokens := 20; Event.outputTokens := 30;
       Event.reasoningOutputTokens := 10; Event.totalTokens := 150 |}))).
  cbn. lia.
Defined.

(** C10: when the provider lookup gives nothing or "unknown" for a model,
    the resolved provider is "openai", whatever the model id starts with;
    no resolved provider is ever "unknown". *)
Theorem resolveProviderId_fallback (cachedData : ModelsDevData) (modelId : string) :
  ((truthyString (getModelProvider cachedData modelId) = false
    \/ getModelProvider cachedData modelId = "unknown") ->
   resolveProviderId cachedData modelId = "openai")
  /\ (JsMap.get (models cachedData) modelId = None ->
      resolveProviderId cachedData modelId = "openai")
  /\ resolveProviderId cachedData modelId <> "unknown".
Proof.
  assert (H : (truthyString (getModelProvider cachedData modelId) = false
               \/ getModelProvider cachedData modelId = "unknown") ->
              resolveProviderId cachedData modelId = "openai").
  { unfold resolveProviderId. cbv zeta. intros [E|E]; rewrite E.
    - cbn [andb]. destruct (_ || _); reflexivity.
    - cbn. destruct (_ || _); reflexivity. }
  split; [exact H|]. split.
  - intros E. apply H. right. unfold getModelProvider. rewrite E. reflexivity.
  - unfold resolveProviderId. cbv zeta.
    destruct (truthyString (getModelProvider cachedData modelId)
              && negb (getModelProvider cachedData modelId =? "unknown")%string) eqn:E.
    + apply andb_prop in E. destruct E as [_ E].
      apply negb_true_iff, String.eqb_neq in E. exact E.
    + destruct (_ || _); discriminate.
Qed.

Lemma resolveProviderId_fallback_witness :
  resolveProviderId
    {| models := [("claude-x", {| id := "claude-x"; name := "Claude X";
                                  provider := "unknown" |})];
       providers := [] |}
    "claude-x" = "openai"
  /\ resolveProviderId EMPTY_DATA "mistral-large" = "openai".
Proof.
  split.
  - apply (proj1 (resolveProviderId_fallback _ _)). right. reflexivity.
  - apply (proj1 (proj2 (resolveProviderId_fallback _ _))). reflexivity.
Defined.

End AggregateFacts.

(** ** Ranking *)

Module RankingFacts.
Import Js Models Stats JsMapFacts AggregateFacts.

Lemma sumBy_set {V : Type} (w : V -> Z) (m : JsMap.t V) k v :
  sumBy w (JsMap.set m k v)
  = sumBy w m - match JsMap.get m k with Some u => w u | None => 0 end + w v.
Proof.
  unfold sumBy. induction m as [|[k' v'] m IH]; cbn.
  - lia.
  - destruct (String.eqb k' k); cbn; [lia|]. rewrite IH. lia.
Qed.

Lemma sumBy_bound {V : Type} (w : V -> Z) (m : JsMap.t V) k v :
  Forall (fun kv => 0 <= w (snd kv)) m -> In (k, v) m -> 0 <= w v <= sumBy w m.
Proof.
  unfold sumBy.
  intros Hall. induction Hall as [|[k' v'] m Hx Hall IH]; cbn; [contradiction|].
  cbn in Hx.
  assert (0 <= fold_right (fun kv acc => w (snd kv) + acc) 0 m).
  { clear -Hall. induction Hall as [|kv m ? ? IH]; cbn; lia. }
  intros [[= -> ->]|Hin]; [lia|]. specialize (IH Hin). lia.
Qed.

Lemma sumBy_ext {V : Type} (w w' : V -> Z) (m : JsMap.t V) :
  Forall (fun kv => w (snd kv) = w' (snd kv)) m -> sumBy w m = sumBy w' m.
Proof.
  unfold sumBy.
  intros H. induction H as [|kv m E _ IH]; cbn; [reflexivity|]. rewrite E, IH. reflexivity.
Qed.

(** *** What the aggregation keeps true *)

Lemma addToUsage_ok usage event :
  Event.nonneg event -> usageOk usage -> usageOk (addToUsage usage event).
Proof.
  unfold Event.nonneg, usageOk, addToUsage, getEventTotal. cbn. lia.
Qed.

Lemma addToUsage_tight usage event :
  Event.nonneg event -> reasoningCounted event -> usageOk usage ->
  usageTight usage -> usageTight (addToUsage usage event).
Proof.
  unfold Event.nonneg, reasoningCounted, usageOk, usageTight, addToUsage, getEventTotal.
  cbn. lia.
Qed.

Lemma fresh_ok : usageOk Usage.fresh /\ usageTight Usage.fresh.
Proof. unfold usageOk, usageTight; cbn. lia. Qed.

Lemma get_Forall {V : Type} (P : V -> Prop) (m : JsMap.t V) k v :
  Forall (fun kv => P (snd kv)) m -> JsMap.get m k = Some v -> P v.
Proof.
  intros H E. apply get_In in E. rewrite Forall_forall in H. apply (H _ E).
Qed.

Lemma addEvent_invariant tot map event :
  Event.nonneg event ->
  entriesOk map -> sumBy Usage.totalTokens map = totalTokens tot ->
  entriesOk (snd (addEvent (tot, map) event))
  /\ sumBy Usage.totalTokens (snd (addEvent (tot, map) event))
     = totalTokens (fst (addEvent (tot, map) event))
  /\ (reasoningCounted event -> entriesTight map ->
      entriesTight (snd (addEvent (tot, map) event))).
Proof.
  intros Hev Hok Hsum. rewrite addEvent_snd, addEvent_fst.
  set (old := match JsMap.get map (Event.model event) with
              | Some u => u | None => Usage.fresh end).
  assert (Hold : usageOk old).
  { unfold old. destruct (JsMap.get map (Event.model event)) eqn:E.
    - apply (get_Forall usageOk _ _ _ Hok E).
    - apply fresh_ok. }
  split; [|split].
  - apply Forall_set; [exact Hok|]. cbn. apply addToUsage_ok; assumption.
  - rewrite sumBy_set. unfold addToTotals, addEvent.
    destruct (getOrCreateModelUsage [] (Event.model event)). cbn [fst totalTokens].
    subst old. unfold ModelUsageTotals in *.
    destruct (JsMap.get map (Event.model event)); cbn; lia.
  - intros Hrc Htight. apply Forall_set; [exact Htight|]. cbn.
    apply addToUsage_tight; try assumption.
    subst old. destruct (JsMap.get map (Event.model event)) eqn:E.
    + apply (get_Forall usageTight _ _ _ Htight E).
    + apply fresh_ok.
Qed.

Lemma aggregate_invariant events :
  Forall Event.nonneg events ->
  entriesOk (snd (aggregate events))
  /\ sumBy Usage.totalTokens (snd (aggregate events))
     = totalTokens (fst (aggregate events))
  /\ (Forall reasoningCounted events -> entriesTight (snd (aggregate events))).
Proof.
  unfold aggregate.
  assert (G : forall acc,
             Forall Event.nonneg events ->
             entriesOk (snd acc) ->
             sumBy Usage.totalTokens (snd acc) = totalTokens (fst acc) ->
             entriesOk (snd (fold_left addEvent events acc))
             /\ sumBy Usage.totalTokens (snd (fold_left addEvent events acc))
                = totalTokens (fst (fold_left addEvent events acc))
             /\ (Forall reasoningCounted events -> entriesTight (snd acc) ->
                 entriesTight (snd (fold_left addEvent events acc)))).
  { induction events as [|e events IH]; intros [tot map] Hev Hok Hsum; cbn [fold_left].
    - auto.
    - inversion Hev as [|? ? He Hev']; subst.
      destruct (addEvent_invariant tot map e He Hok Hsum) as (Hok' & Hsum' & Ht').
      destruct (IH (addEvent (tot, map) e) Hev' Hok' Hsum') as (H1 & H2 & H3).
      split; [exact H1|]. split; [exact H2|].
      intros Hrc Htight. inversion Hrc; subst. apply H3; [assumption|].
      apply Ht'; assumption. }
  intros Hev. destruct (G (zeroTotals, []) Hev) as (H1 & H2 & H3).
  - constructor.
  - reflexivity.
  - split; [exact H1|]. split; [exact H2|]. intros Hrc. apply H3; [exact Hrc|constructor].
Qed.

(** *** Sorting and cutting keep to the elements given *)

Lemma In_insertBy {A : Type} (cmp : A -> A -> Z) (x y : A) (l : list A) :
  In x (insertBy cmp y l) <-> x = y \/ In x l.
Proof.
  induction l as [|z l IH]; cbn.
  - intuition congruence.
  - destruct (cmp y z <=? 0); cbn; [intuition congruence|].
    rewrite IH. intuition congruence.
Qed.

Lemma In_sortBy {A : Type} (cmp : A -> A -> Z) (x : A) (l : list A) :
  In x (sortBy cmp l) <-> In x l.
Proof.
  unfold sortBy. induction l as [|y l IH]; cbn; [reflexivity|].
  rewrite In_insertBy, IH. intuition congruence.
Qed.

Lemma In_top3 {A : Type} (cmp : A -> A -> Z) (x : A) (l : list A) :
  In x (firstn 3 (sortBy cmp l)) -> In x l.
Proof.
  intros H. apply (In_sortBy cmp). rewrite <- (firstn_skipn 3 (sortBy cmp l)).
  apply in_or_app. left. exact H.
Qed.

(** *** Percentages *)

Lemma percentOf_nonneg (count denominator : Z) :
  0 <= count -> (0 <= percentOf count denominator)%Q.
Proof.
  intros Hc. unfold percentOf.
  destruct denominator as [|p|p]; cbn; unfold Qle; cbn; lia.
Qed.

Lemma percentOf_le_100 (count denominator : Z) :
  0 <= count <= denominator -> 0 < denominator ->
  (percentOf count denominator <= 100)%Q.
Proof.
  intros Hc Hd. unfold percentOf.
  destruct denominator as [|p|p]; try lia. cbn.
  unfold Qle, Qdiv, Qmult, Qinv; cbn. lia.
Qed.

(** *** The loop over the model totals *)

Section Collect.

Variable cachedData : ModelsDevData.
Variable getModelDisplayName : string -> string.
Variable getProviderDisplayName : string -> string.

Lemma collectModelStats_spec entries :
  forall providerCounts modelStats providerCounts' modelStats',
    collectModelStats cachedData getModelDisplayName entries providerCounts modelStats
    = (providerCounts', modelStats') ->
    Forall (fun kv => 0 <= snd kv) providerCounts ->
    Forall (fun kv => 0 <= snd kv) providerCounts'
    /\ sumBy (fun n => n) providerCounts'
       = sumBy (fun n => n) providerCounts + sumBy rankedTotal entries
    /\ forall x, In x modelStats' ->
         In x modelStats
         \/ exists k usage, In (k, usage) entries
              /\ ModelStats.count x = tokenTotalOf usage /\ 0 < tokenTotalOf usage.
Proof.
  induction entries as [|[modelId usage] entries IH];
    intros pc ms pc' ms' E Hpc; cbn [collectModelStats] in E.
  - injection E as <- <-. split; [exact Hpc|]. split; [cbn; lia|]. auto.
  - cbv zeta in E. unfold sumBy at 3. cbn [fold_right snd]. fold (sumBy rankedTotal entries).
    unfold rankedTotal at 1.
    destruct (tokenTotalOf usage <=? 0) eqn:Et.
    + apply Z.leb_le in Et.
      destruct (IH _ _ _ _ E Hpc) as (H1 & H2 & H3).
      split; [exact H1|]. split; [lia|].
      intros x Hx. destruct (H3 x Hx) as [H|(k & u & Hin & Hc)]; [left; exact H|].
      right. exists k, u. split; [right; exact Hin|exact Hc].
    + apply Z.leb_gt in Et.
      set (pid := resolveProviderId cachedData modelId) in *.
      assert (Hprev : 0 <= match JsMap.get pc pid with Some n => n | None => 0 end).
      { destruct (JsMap.get pc pid) as [n|] eqn:Eg; [|lia].
        apply (get_Forall (fun n => 0 <= n) _ _ _ Hpc Eg). }
      assert (Hpc1 : Forall (fun kv : string * Z => 0 <= snd kv)
                       (JsMap.set pc pid
                          (match JsMap.get pc pid with Some n => n | None => 0 end
                           + tokenTotalOf usage))).
      { apply Forall_set; [exact Hpc|]. cbn. lia. }
      destruct (IH _ _ _ _ E Hpc1) as (H1 & H2 & H3).
      split; [exact H1|]. split.
      * rewrite H2, sumBy_set. lia.
      * intros x Hx. destruct (H3 x Hx) as [H|(k & u & Hin & Hc)].
        -- apply in_app_or in H. destruct H as [H|[<-|[]]]; [left; exact H|].
           right. exists modelId, usage. cbn. split; [left; reflexivity|lia].
        -- right. exists k, u. split; [right; exact Hin|exact Hc].
Qed.

End Collect.

Lemma tokenTotalOf_nonneg usage : usageOk usage -> 0 <= tokenTotalOf usage.
Proof.
  unfold usageOk, tokenTotalOf. intros H.
  destruct (Usage.totalTokens usage >? 0) eqn:E; lia.
Qed.

Lemma tokenTotalOf_tight usage :
  usageOk usage -> usageTight usage -> tokenTotalOf usage = Usage.totalTokens usage.
Proof.
  unfold usageOk, usageTight, tokenTotalOf. intros H Ht.
  destruct (Usage.totalTokens usage >? 0) eqn:E; lia.
Qed.

(** Every ranked entry and the count it carries. *)
Lemma rank_entries cachedData getModelDisplayName getProviderDisplayName
    (total : Z) (map : JsMap.t ModelUsageTotals) :
  0 < total -> entriesOk map ->
  let r := rank cachedData getModelDisplayName getProviderDisplayName total map in
  percentageDenominator r = total
  /\ (forall m, In m (topModels r) ->
        ModelStats.percentage m = percentOf (ModelStats.count m) total
        /\ exists k usage, In (k, usage) map /\ ModelStats.count m = tokenTotalOf usage)
  /\ (forall p, In p (topProviders r) ->
        ProviderStats.percentage p = percentOf (ProviderStats.count p) total
        /\ 0 <= ProviderStats.count p <= sumBy rankedTotal map).
Proof.
  intros Htotal Hok. unfold rank.
  destruct (collectModelStats cachedData getModelDisplayName map [] [])
    as [providerCounts modelStats] eqn:Ec.
  destruct (collectModelStats_spec _ _ _ _ _ _ _ Ec (Forall_nil _)) as (Hpc & Hsum & Hms).
  replace (total >? 0) with true by (symmetry; apply Z.gtb_lt; exact Htotal).
  cbn [percentageDenominator topModels topProviders]. cbv zeta.
  split; [reflexivity|]. split.
  - intros m Hm. apply in_map_iff in Hm. destruct Hm as (x & <- & Hx).
    cbn [ModelStats.percentage ModelStats.count]. split; [reflexivity|].
    apply In_top3 in Hx. destruct (Hms x Hx) as [[]|(k & u & Hin & Hc & _)].
    exists k, u. split; assumption.
  - intros p Hp. apply in_map_iff in Hp. destruct Hp as ([id c] & <- & Hx).
    cbn [ProviderStats.percentage ProviderStats.count]. split; [reflexivity|].
    apply In_top3 in Hx.
    pose proof (sumBy_bound (fun n => n) providerCounts id c Hpc Hx) as Hb.
    cbn in Hsum. lia.
Qed.

(** C1, amended: when the grand total is positive the denominator is the
    grand total and every ranked entry, model or provider, has a
    non-negative percentage; the percentage is at most 100 provided no
    event carries reasoning tokens while its effective total is zero. *)
Theorem rank_percentages (cachedData : ModelsDevData)
    (getModelDisplayName getProviderDisplayName : string -> string)
    (events : list CodexUsageEvent) :
  Forall Event.nonneg events ->
  0 < totalTokens (fst (aggregate events)) ->
  let r := rankEvents cachedData getModelDisplayName getProviderDisplayName events in
  percentageDenominator r = totalTokens (fst (aggregate events))
  /\ (forall m, In m (topModels r) -> (0 <= ModelStats.percentage m)%Q)
  /\ (forall p, In p (topProviders r) -> (0 <= ProviderStats.percentage p)%Q)
  /\ (Forall reasoningCounted events ->
      (forall m, In m (topModels r) -> (ModelStats.percentage m <= 100)%Q)
      /\ (forall p, In p (topProviders r) -> (ProviderStats.percentage p <= 100)%Q)).
Proof.
  intros Hev Htotal.
  destruct (aggregate_invariant events Hev) as (Hok & Hsum & Htight).
  unfold rankEvents. destruct (aggregate events) as [tot map]. cbn [fst snd] in *.
  destruct (rank_entries cachedData getModelDisplayName getProviderDisplayName
              (totalTokens tot) map Htotal Hok) as (Hden & Hmodels & Hproviders).
  cbv zeta in *.
  set (r := rank cachedData getModelDisplayName getProviderDisplayName
              (totalTokens tot) map) in *.
  assert (Hentry : forall k usage, In (k, usage) map -> usageOk usage).
  { intros k usage Hin. unfold entriesOk in Hok. rewrite Forall_forall in Hok.
    apply (Hok _ Hin). }
  split; [exact Hden|]. split; [|split].
  - intros m Hm. destruct (Hmodels m Hm) as (-> & k & usage & Hin & ->).
    apply percentOf_nonneg, tokenTotalOf_nonneg, (Hentry k usage Hin).
  - intros p Hp. destruct (Hproviders p Hp) as (-> & Hc).
    apply percentOf_nonneg. lia.
  - intros Hrc. specialize (Htight Hrc).
    assert (Hall : Forall (fun kv : string * ModelUsageTotals =>
                             0 <= Usage.totalTokens (snd kv)) map).
    { apply Forall_forall. intros [k usage] Hin. cbn.
      pose proof (Hentry k usage Hin) as H. unfold usageOk in H. lia. }
    assert (Hranked : sumBy rankedTotal map = totalTokens tot).
    { rewrite <- Hsum. apply sumBy_ext. apply Forall_forall. intros [k usage] Hin. cbn.
      unfold entriesTight in Htight. rewrite Forall_forall in Htight.
      unfold rankedTotal.
      rewrite (tokenTotalOf_tight usage (Hentry k usage Hin) (Htight _ Hin)).
      rewrite Forall_forall in Hall. specialize (Hall _ Hin). cbn in Hall. lia. }
    split.
    + intros m Hm. destruct (Hmodels m Hm) as (-> & k & usage & Hin & ->).
      unfold entriesTight in Htight. rewrite Forall_forall in Htight.
      rewrite (tokenTotalOf_tight usage (Hentry k usage Hin) (Htight _ Hin)).
      apply percentOf_le_100; [|exact Htotal].
      pose proof (sumBy_bound Usage.totalTokens map k usage Hall Hin). lia.
    + intros p Hp. destruct (Hproviders p Hp) as (-> & Hc).
      apply percentOf_le_100; [lia|exact Htotal].
Qed.

(** C1, as stated, fails: a model whose events carry reasoning tokens but
    no total is ranked by its reasoning tokens, which the grand total does
    not contain; its percentage is 50000. *)
Lemma percentage_above_100 :
  Forall Event.nonneg unrankedEvents
  /\ 0 < totalTokens (fst (aggregate unrankedEvents))
  /\ exists m,
       In m (topModels (rankEvents EMPTY_DATA (fun s => s) (fun s => s) unrankedEvents))
       /\ ModelStats.id m = "o3"
       /\ ~ (ModelStats.percentage m <= 100)%Q.
Proof.
  split; [|split].
  - repeat constructor; cbn; lia.
  - reflexivity.
  - eexists. split; [left; reflexivity|]. split; [reflexivity|].
    cbn. unfold Qle. cbn. lia.
Qed.

Lemma rank_percentages_witness :
  Forall (fun m => (0 <= ModelStats.percentage m)%Q /\ (ModelStats.percentage m <= 100)%Q)
    (topModels (rankEvents EMPTY_DATA (fun s => s) (fun s => s)
                  [ sampleEvent "gpt-5" 100 10 20 5 120; sampleEvent "o3" 7 0 9 3 0 ])).
Proof.
  set (events := [ sampleEvent "gpt-5" 100 10 20 5 120; sampleEvent "o3" 7 0 9 3 0 ]).
  assert (Hev : Forall Event.nonneg events) by (repeat constructor; cbn; lia).
  assert (Htotal : 0 < totalTokens (fst (aggregate events))) by reflexivity.
  assert (Hrc : Forall reasoningCounted events).
  { repeat constructor; unfold reasoningCounted; cbn; lia. }
  destruct (rank_percentages EMPTY_DATA (fun s => s) (fun s => s) events Hev Htotal)
    as (_ & Hlow & _ & Hhigh).
  apply Forall_forall. intros m Hm.
  split; [apply Hlow, Hm|apply (proj1 (Hhigh Hrc)), Hm].
Defined.

End RankingFacts.

(** ** Weekdays *)

Module WeekdayFacts.
Import Js Dates Stats.

Lemma sunday_key : DateFromString "2024-01-07" = Some (19729 * msPerDay)
  /\ WeekDay 19729 = 0.
Proof. split; reflexivity. Qed.

Lemma getDay_west (tz : Z) :
  -1440 < tz < 0 -> getDay tz (19729 * msPerDay) = 6.
Proof.
  intros H. unfold getDay, LocalTime, Day, msPerDay.
  replace ((19729 * 86400000 + tz * 60000) / 86400000) with 19728.
  - reflexivity.
  - apply (Z.div_unique _ _ _ (86400000 + tz * 60000)); lia.
Qed.

Lemma getDay_east (tz : Z) :
  0 <= tz < 1440 -> getDay tz (19729 * msPerDay) = 0.
Proof.
  intros H. unfold getDay, LocalTime, Day, msPerDay.
  replace ((19729 * 86400000 + tz * 60000) / 86400000) with 19729.
  - reflexivity.
  - apply (Z.div_unique _ _ _ (tz * 60000)); lia.
Qed.

(** C3 fails on the code: the date key is read as midnight UTC and its
    weekday is then taken in the local zone, so in every zone west of UTC
    the single Sunday entry 2024-01-07 lands in bucket 6 (Saturday) and
    mostActiveDay is 6; only from UTC eastwards is it bucket 0. *)
Theorem sunday_key_west_of_utc (tz : Z) :
  (-1440 < tz < 0 ->
   weekdayCounts tz [("2024-01-07", 1)] = [0; 0; 0; 0; 0; 0; 1]
   /\ mostActiveDay (weekdayActivity tz [("2024-01-07", 1)]) = 6)
  /\ (0 <= tz < 1440 ->
      weekdayCounts tz [("2024-01-07", 1)] = [1; 0; 0; 0; 0; 0; 0]
      /\ mostActiveDay (weekdayActivity tz [("2024-01-07", 1)]) = 0).
Proof.
  assert (Hc : weekdayCounts tz [("2024-01-07", 1)]
               = addAt (Z.to_nat (getDay tz (19729 * msPerDay))) 1 [0; 0; 0; 0; 0; 0; 0]).
  { unfold weekdayCounts. cbn [fold_left].
    rewrite (proj1 sunday_key). reflexivity. }
  split; intros H; unfold weekdayActivity; rewrite Hc.
  - rewrite (getDay_west tz H). split; reflexivity.
  - rewrite (getDay_east tz H). split; reflexivity.
Qed.

Lemma sunday_key_west_of_utc_witness :
  weekdayCounts (-300) [("2024-01-07", 1)] = [0; 0; 0; 0; 0; 0; 1]
  /\ mostActiveDay (weekdayActivity (-300) [("2024-01-07", 1)]) = 6.
Proof.
  apply (proj1 (sunday_key_west_of_utc (-300))). lia.
Defined.

End WeekdayFacts.

(** ** The calendar *)

Module DateFacts.
Import Js Dates.

(** The calendar on known dates: 2024-01-07 was a Sunday, 2000 had a
    29th of February, and the keys are written with their zeros. *)
Example dates_known :
  DateFromString "1970-01-01" = Some 0
  /\ DateFromString "2024-01-07" = Some 1704585600000
  /\ WeekDay (Day 1704585600000) = 0
  /\ formatDateKey 0 951782400000 = "2000-02-29"
  /\ formatDateKey 0 (-1) = "1969-12-31"
  /\ formatDateKey (-300) 1704585600000 = "2024-01-06"
  /\ DateFromString "2023-02-29" = None.
Proof. repeat split; reflexivity. Qed.

Lemma DayFromYear_succ (y : Z) : DayFromYear (y + 1) = DayFromYear y + DaysInYear y.
Proof.
  unfold DayFromYear, DaysInYear.
  destruct (y mod 4 =? 0) eqn:E4; destruct (y mod 100 =? 0) eqn:E100;
    destruct (y mod 400 =? 0) eqn:E400; cbn [negb];
    rewrite ?Z.eqb_eq, ?Z.eqb_neq in *;
    Z.div_mod_to_equations; lia.
Qed.

Lemma DayFromYear_mono (y y' : Z) : y <= y' -> DayFromYear y <= DayFromYear y'.
Proof. intros H. unfold DayFromYear. Z.div_mod_to_equations. lia. Qed.

Lemma DaysInYear_cases (y : Z) :
  (InLeapYear y = false /\ DaysInYear y = 365)
  \/ (InLeapYear y = true /\ DaysInYear y = 366).
Proof.
  unfold InLeapYear, DaysInYear.
  destruct (y mod 4 =? 0), (y mod 100 =? 0), (y mod 400 =? 0); cbn; auto.
Qed.

Lemma YearFromDay_spec (d : Z) :
  DayFromYear (YearFromDay d) <= d < DayFromYear (YearFromDay d + 1).
Proof.
  unfold YearFromDay. cbv zeta.
  set (y0 := 1970 + 400 * d / 146097).
  assert (Hlo : DayFromYear (y0 - 1) <= d).
  { unfold DayFromYear, y0. Z.div_mod_to_equations. lia. }
  assert (Hhi : d < DayFromYear (y0 + 1 + 1)).
  { unfold DayFromYear, y0. Z.div_mod_to_equations. lia. }
  destruct (d <? DayFromYear y0) eqn:E1.
  - apply Z.ltb_lt in E1. replace (y0 - 1 + 1) with y0 by lia. lia.
  - apply Z.ltb_ge in E1. destruct (DayFromYear (y0 + 1) <=? d) eqn:E2.
    + apply Z.leb_le in E2. lia.
    + apply Z.leb_gt in E2. lia.
Qed.

Lemma YearFromDay_unique (d y : Z) :
  DayFromYear y <= d < DayFromYear (y + 1) -> YearFromDay d = y.
Proof.
  intros H. pose proof (YearFromDay_spec d) as S.
  destruct (Z.lt_trichotomy (YearFromDay d) y) as [Hlt|[Heq|Hgt]]; [|exact Heq|].
  - pose proof (DayFromYear_mono (YearFromDay d + 1) y ltac:(lia)). lia.
  - pose proof (DayFromYear_mono (y + 1) (YearFromDay d) ltac:(lia)). lia.
Qed.

Lemma DayWithinYear_bound (d : Z) :
  0 <= DayWithinYear d < DaysInYear (YearFromDay d).
Proof.
  unfold DayWithinYear. pose proof (YearFromDay_spec d) as S.
  rewrite DayFromYear_succ in S. lia.
Qed.

(** The month and the date of a day of the year. *)
Lemma month_date_bound (leap : bool) (n : Z) :
  0 <= n < 365 + (if leap then 1 else 0) ->
  let m := monthOfDayWithinYear leap n in
  0 <= m <= 11
  /\ daysBeforeMonth leap m <= n < daysBeforeMonth leap (m + 1).
Proof.
  intros H. unfold monthOfDayWithinYear.
  destruct leap; cbn in H |- *;
    repeat match goal with
           | |- context [if ?a <? ?b then _ else _] => destruct (Z.ltb_spec a b)
           end; cbn; lia.
Qed.

Lemma MakeDay_of_day (d : Z) :
  MakeDay (YearFromDay d) (MonthFromDay d) (DateFromDay d) = d.
Proof. unfold MakeDay, DateFromDay, MonthFromDay, DayWithinYear. lia. Qed.

Lemma day_fields_bound (d : Z) :
  0 <= MonthFromDay d <= 11
  /\ 1 <= DateFromDay d <= DaysInMonth (YearFromDay d) (MonthFromDay d)
  /\ DaysInMonth (YearFromDay d) (MonthFromDay d) <= 31.
Proof.
  pose proof (DayWithinYear_bound d) as Hn.
  assert (Hn' : 0 <= DayWithinYear d
                < 365 + (if InLeapYear (YearFromDay d) then 1 else 0)).
  { destruct (DaysInYear_cases (YearFromDay d)) as [[-> E]|[-> E]]; lia. }
  pose proof (month_date_bound _ _ Hn') as (Hm & Hd). cbv zeta in *.
  unfold DateFromDay, DaysInMonth, MonthFromDay in *.
  split; [exact Hm|]. split; [lia|].
  set (m := monthOfDayWithinYear _ _) in *. clearbody m.
  assert (Hcases : m = 0 \/ m = 1 \/ m = 2 \/ m = 3 \/ m = 4 \/ m = 5 \/ m = 6
                   \/ m = 7 \/ m = 8 \/ m = 9 \/ m = 10 \/ m = 11) by lia.
  destruct (InLeapYear (YearFromDay d));
    repeat (destruct Hcases as [->|Hcases]; [cbn; lia|]); subst; cbn; lia.
Qed.

Lemma Day_of_day (d : Z) : Day (d * msPerDay) = d.
Proof. unfold Day, msPerDay. apply Z.div_mul. lia. Qed.

(** A whole day earlier in time is the day before on the local calendar. *)
Lemma Day_LocalTime_back (tz t : Z) :
  Day (LocalTime tz (t - 24 * 60 * 60 * 1000)) = Day (LocalTime tz t) - 1.
Proof.
  unfold Day, LocalTime, msPerDay.
  replace (t - 24 * 60 * 60 * 1000 + tz * 60000)
    with (t + tz * 60000 + (-1) * 86400000) by lia.
  rewrite Z.div_add by lia. lia.
Qed.

Lemma formatDateKey_keyOfDay (tz t : Z) :
  formatDateKey tz t = keyOfDay (Day (LocalTime tz t)).
Proof.
  unfold keyOfDay, formatDateKey, getFullYear, getMonth, getDate.
  replace (LocalTime 0 (Day (LocalTime tz t) * msPerDay))
    with (Day (LocalTime tz t) * msPerDay) by (unfold LocalTime; lia).
  rewrite Day_of_day. reflexivity.
Qed.

(** *** Numbers as text *)

Lemma digitValue_digitChar (k : Z) :
  0 <= k <= 9 -> digitValue (digitChar k) = Some k.
Proof.
  intros H.
  assert (Hc : k = 0 \/ k = 1 \/ k = 2 \/ k = 3 \/ k = 4 \/ k = 5 \/ k = 6
               \/ k = 7 \/ k = 8 \/ k = 9) by lia.
  repeat (destruct Hc as [->|Hc]; [reflexivity|]). subst. reflexivity.
Qed.

Lemma decimalDigits_step (fuel : nat) (n : Z) (acc : string) :
  decimalDigits (S fuel) n acc
  = if n / 10 =? 0 then String (digitChar (n mod 10)) acc
    else decimalDigits fuel (n / 10) (String (digitChar (n mod 10)) acc).
Proof. reflexivity. Qed.

Lemma decimalDigits_longer (fuel : nat) (n : Z) (acc : string) :
  (S (String.length acc) <= String.length (decimalDigits fuel n acc))%nat.
Proof.
  revert n acc. induction fuel as [|fuel IH]; intros n acc.
  - cbn. lia.
  - rewrite decimalDigits_step. destruct (n / 10 =? 0); [cbn; lia|].
    specialize (IH (n / 10) (String (digitChar (n mod 10)) acc)).
    cbn [String.length] in IH. lia.
Qed.

Lemma decimalDigits_digits (fuel : nat) (n : Z) (acc : string) :
  allDigits acc -> allDigits (decimalDigits fuel n acc).
Proof.
  revert n acc. induction fuel as [|fuel IH]; intros n acc Hacc.
  - cbn [decimalDigits allDigits]. split; [|exact Hacc].
    exists (n mod 10). split; [|reflexivity].
    pose proof (Z.mod_pos_bound n 10 ltac:(lia)). lia.
  - rewrite decimalDigits_step.
    assert (Hd : allDigits (String (digitChar (n mod 10)) acc)).
    { cbn [allDigits]. split; [|exact Hacc].
      exists (n mod 10). split; [|reflexivity].
      pose proof (Z.mod_pos_bound n 10 ltac:(lia)). lia. }
    destruct (n / 10 =? 0); [exact Hd|]. apply IH, Hd.
Qed.

Lemma NumberToString_1 (n : Z) :
  0 <= n <= 9 -> NumberToString n = String (digitChar n) EmptyString.
Proof.
  intros H. unfold NumberToString.
  replace (n <? 0) with false by (symmetry; apply Z.ltb_ge; lia).
  replace (digitChar n) with (digitChar (n mod 10)) by (rewrite Z.mod_small by lia; reflexivity).
  destruct (Z.to_nat n) as [|f]; [reflexivity|].
  rewrite decimalDigits_step.
  replace (n / 10 =? 0) with true; [reflexivity|].
  symmetry. apply Z.eqb_eq. apply Z.div_small. lia.
Qed.

Lemma NumberToString_2 (n : Z) :
  10 <= n <= 99 ->
  NumberToString n
  = String (digitChar (n / 10)) (String (digitChar (n mod 10)) EmptyString).
Proof.
  intros H. unfold NumberToString.
  replace (n <? 0) with false by (symmetry; apply Z.ltb_ge; lia).
  destruct (Z.to_nat n) as [|[|f]] eqn:Ef; try lia.
  rewrite !decimalDigits_step.
  replace (n / 10 =? 0) with false by (symmetry; apply Z.eqb_neq; Z.div_mod_to_equations; lia).
  replace (n / 10 / 10 =? 0) with true by (symmetry; apply Z.eqb_eq; Z.div_mod_to_equations; lia).
  replace ((n / 10) mod 10) with (n / 10) by (Z.div_mod_to_equations; lia).
  reflexivity.
Qed.

Lemma NumberToString_3 (n : Z) :
  100 <= n <= 999 ->
  exists a b c, NumberToString n = String a (String b (String c EmptyString)).
Proof.
  intros H. unfold NumberToString.
  replace (n <? 0) with false by (symmetry; apply Z.ltb_ge; lia).
  destruct (Z.to_nat n) as [|[|[|f]]] eqn:Ef; try lia.
  rewrite !decimalDigits_step.
  replace (n / 10 =? 0) with false by (symmetry; apply Z.eqb_neq; Z.div_mod_to_equations; lia).
  replace (n / 10 / 10 =? 0) with false by (symmetry; apply Z.eqb_neq; Z.div_mod_to_equations; lia).
  replace (n / 10 / 10 / 10 =? 0) with true by (symmetry; apply Z.eqb_eq; Z.div_mod_to_equations; lia).
  eauto.
Qed.

Lemma NumberToString_4 (n : Z) :
  1000 <= n <= 9999 ->
  NumberToString n
  = String (digitChar (n / 1000))
      (String (digitChar (n / 100 mod 10))
         (String (digitChar (n / 10 mod 10))
            (String (digitChar (n mod 10)) EmptyString))).
Proof.
  intros H. unfold NumberToString.
  replace (n <? 0) with false by (symmetry; apply Z.ltb_ge; lia).
  destruct (Z.to_nat n) as [|[|[|[|f]]]] eqn:Ef; try lia.
  rewrite !decimalDigits_step.
  replace (n / 10 =? 0) with false by (symmetry; apply Z.eqb_neq; Z.div_mod_to_equations; lia).
  replace (n / 10 / 10 =? 0) with false by (symmetry; apply Z.eqb_neq; Z.div_mod_to_equations; lia).
  replace (n / 10 / 10 / 10 =? 0) with false by (symmetry; apply Z.eqb_neq; Z.div_mod_to_equations; lia).
  replace (n / 10 / 10 / 10 / 10 =? 0) with true by (symmetry; apply Z.eqb_eq; Z.div_mod_to_equations; lia).
  replace ((n / 10 / 10 / 10) mod 10) with (n / 1000) by (Z.div_mod_to_equations; lia).
  replace ((n / 10 / 10) mod 10) with (n / 100 mod 10) by (Z.div_mod_to_equations; lia).
  reflexivity.
Qed.

Lemma NumberToString_5 (n : Z) :
  10000 <= n ->
  exists a b c d e rest,
    NumberToString n = String a (String b (String c (String d (String e rest))))
    /\ exists k, 0 <= k <= 9 /\ e = digitChar k.
Proof.
  intros H. unfold NumberToString.
  replace (n <? 0) with false by (symmetry; apply Z.ltb_ge; lia).
  destruct (Z.to_nat n) as [|[|[|[|f]]]] eqn:Ef; try lia.
  rewrite !decimalDigits_step.
  replace (n / 10 =? 0) with false by (symmetry; apply Z.eqb_neq; Z.div_mod_to_equations; lia).
  replace (n / 10 / 10 =? 0) with false by (symmetry; apply Z.eqb_neq; Z.div_mod_to_equations; lia).
  replace (n / 10 / 10 / 10 =? 0) with false by (symmetry; apply Z.eqb_neq; Z.div_mod_to_equations; lia).
  replace (n / 10 / 10 / 10 / 10 =? 0) with false by (symmetry; apply Z.eqb_neq; Z.div_mod_to_equations; lia).
  set (acc := String _ (String _ (String _ (String _ EmptyString)))).
  assert (Hacc : allDigits acc).
  { unfold acc. cbn [allDigits].
    repeat split; eexists; (split; [|reflexivity]); Z.div_mod_to_equations; lia. }
  pose proof (decimalDigits_digits f (n / 10 / 10 / 10 / 10) acc Hacc) as Hd.
  pose proof (decimalDigits_longer f (n / 10 / 10 / 10 / 10) acc) as Hl.
  destruct (decimalDigits f (n / 10 / 10 / 10 / 10) acc)
    as [|a [|b [|c [|d [|e rest]]]]]; cbn in Hl; try lia.
  exists a, b, c, d, e, rest. split; [reflexivity|].
  cbn [allDigits] in Hd. tauto.
Qed.

Lemma NumberToString_neg (n : Z) :
  n < 0 -> exists rest, NumberToString n = String "-"%char rest.
Proof.
  intros H. unfold NumberToString.
  replace (n <? 0) with true by (symmetry; apply Z.ltb_lt; lia).
  eexists. reflexivity.
Qed.

Lemma padStart2_form (k : Z) :
  0 <= k <= 99 ->
  padStart2 (NumberToString k)
  = String (digitChar (k / 10)) (String (digitChar (k mod 10)) EmptyString).
Proof.
  intros H. destruct (Z.le_gt_cases k 9) as [Hs|Hl].
  - rewrite NumberToString_1 by lia. cbn.
    rewrite Z.div_small, Z.mod_small by lia. reflexivity.
  - rewrite NumberToString_2 by lia. reflexivity.
Qed.

(** *** Date keys *)

Lemma keyOfDay_form (d : Z) :
  keyOfDay d
  = NumberToString (YearFromDay d)
    ++ String "-"
         (String (digitChar ((MonthFromDay d + 1) / 10))
            (String (digitChar ((MonthFromDay d + 1) mod 10))
               (String "-"
                  (String (digitChar (DateFromDay d / 10))
                     (String (digitChar (DateFromDay d mod 10)) EmptyString))))).
Proof.
  pose proof (day_fields_bound d) as (Hm & Hd & Hdm).
  unfold keyOfDay, formatDateKey, getFullYear, getMonth, getDate.
  replace (LocalTime 0 (d * msPerDay)) with (d * msPerDay) by (unfold LocalTime; lia).
  rewrite Day_of_day. cbv zeta.
  rewrite (padStart2_form (MonthFromDay d + 1)) by lia.
  rewrite (padStart2_form (DateFromDay d)) by lia.
  reflexivity.
Qed.

Lemma DateFromString_inv (s : string) (t : Z) :
  DateFromString s = Some t ->
  exists y1 y2 y3 y4 m1 m2 d1 d2,
    s = String y1 (String y2 (String y3 (String y4 (String "-"
          (String m1 (String m2 (String "-"
            (String d1 (String d2 EmptyString)))))))))
    /\ digitValue y1 <> None /\ digitValue y2 <> None
    /\ digitValue y3 <> None /\ digitValue y4 <> None.
Proof.
  destruct s as [|y1 [|y2 [|y3 [|y4 [|s1 [|m1 [|m2 [|s2 [|d1 [|d2 [|? ?]]]]]]]]]]];
    try discriminate.
  unfold DateFromString.
  destruct (Ascii.eqb s1 "-") eqn:E1; [|discriminate].
  destruct (Ascii.eqb s2 "-") eqn:E2; [|discriminate].
  apply Ascii.eqb_eq in E1, E2. subst s1 s2. cbn [andb].
  destruct (digitValue y1) eqn:D1; [|discriminate].
  destruct (digitValue y2) eqn:D2; [|discriminate].
  destruct (digitValue y3) eqn:D3; [|discriminate].
  destruct (digitValue y4) eqn:D4; [|discriminate].
  intros _. exists y1, y2, y3, y4, m1, m2, d1, d2.
  rewrite D1, D2, D3, D4. split; [reflexivity|]. repeat split; discriminate.
Qed.

Lemma DateFromString_keyOfDay (d : Z) :
  1000 <= YearFromDay d <= 9999 ->
  DateFromString (keyOfDay d) = Some (d * msPerDay).
Proof.
  intros Hy. pose proof (day_fields_bound d) as (Hm & Hd & Hdm).
  rewrite keyOfDay_form, (NumberToString_4 _ Hy).
  set (y := YearFromDay d) in *. set (m := MonthFromDay d) in *.
  set (dt := DateFromDay d) in *.
  cbn [append]. unfold DateFromString.
  change (Ascii.eqb "-" "-") with true. cbn [andb].
  rewrite !digitValue_digitChar by (Z.div_mod_to_equations; lia).
  cbv zeta.
  replace (1000 * (y / 1000) + 100 * (y / 100 mod 10) + 10 * (y / 10 mod 10) + y mod 10)
    with y by (Z.div_mod_to_equations; lia).
  replace (10 * ((m + 1) / 10) + (m + 1) mod 10) with (m + 1)
    by (Z.div_mod_to_equations; lia).
  replace (10 * (dt / 10) + dt mod 10) with dt by (Z.div_mod_to_equations; lia).
  replace (m + 1 - 1) with m by lia.
  replace ((1 <=? m + 1) && (m + 1 <=? 12) && (1 <=? dt) && (dt <=? DaysInMonth y m))
    with true.
  - unfold y, m, dt. rewrite MakeDay_of_day. reflexivity.
  - symmetry. rewrite !andb_true_iff, !Z.leb_le. lia.
Qed.

Lemma digitChar_not_dash (k : Z) : 0 <= k <= 9 -> digitChar k <> "-"%char.
Proof.
  intros H E. pose proof (digitValue_digitChar k H) as D. rewrite E in D. discriminate D.
Qed.

(** Reading back a key that [formatDateKey] wrote gives its day, and only a
    key of a four-digit year can be read back at all. *)
Lemma DateFromString_keyOfDay_inv (d t : Z) :
  DateFromString (keyOfDay d) = Some t ->
  1000 <= YearFromDay d <= 9999 /\ t = d * msPerDay.
Proof.
  intros H.
  assert (Hy : 1000 <= YearFromDay d <= 9999).
  { apply DateFromString_inv in H.
    destruct H as (y1 & y2 & y3 & y4 & m1 & m2 & d1 & d2 & E & H1 & H2 & H3 & H4).
    rewrite keyOfDay_form in E.
    set (y := YearFromDay d) in *.
    assert (Hc : y < 0 \/ 0 <= y <= 9 \/ 10 <= y <= 99 \/ 100 <= y <= 999
                 \/ 1000 <= y <= 9999 \/ 10000 <= y) by lia.
    destruct Hc as [Hc|[Hc|[Hc|[Hc|[Hc|Hc]]]]].
    - destruct (NumberToString_neg y Hc) as (rest & En). rewrite En in E.
      cbn [append] in E. injection E as <- _. contradiction H1. reflexivity.
    - rewrite (NumberToString_1 y Hc) in E. cbn [append] in E.
      injection E as _ <- _. contradiction H2. reflexivity.
    - rewrite (NumberToString_2 y Hc) in E. cbn [append] in E.
      injection E as _ _ <- _. contradiction H3. reflexivity.
    - destruct (NumberToString_3 y Hc) as (a & b & c & En). rewrite En in E.
      cbn [append] in E. injection E as _ _ _ <- _. contradiction H4. reflexivity.
    - exact Hc.
    - destruct (NumberToString_5 y Hc) as (a & b & c & e & f & rest & En & k & Hk & Ek).
      rewrite En in E. cbn [append] in E. injection E as _ _ _ _ Ef _.
      rewrite Ek in Ef. exfalso. apply (digitChar_not_dash k Hk). exact Ef. }
  split; [exact Hy|]. rewrite (DateFromString_keyOfDay d Hy) in H. congruence.
Qed.

Lemma keyOfDay_inj (d d' : Z) :
  1000 <= YearFromDay d' <= 9999 -> keyOfDay d = keyOfDay d' -> d = d'.
Proof.
  intros Hy E. pose proof (DateFromString_keyOfDay d' Hy) as H. rewrite <- E in H.
  apply DateFromString_keyOfDay_inv in H. destruct H as [_ H].
  unfold msPerDay in H. lia.
Qed.

Lemma dayOf_keyOfDay (d : Z) : 1000 <= YearFromDay d <= 9999 -> dayOf (keyOfDay d) = d.
Proof.
  intros Hy. unfold dayOf. rewrite (DateFromString_keyOfDay d Hy). apply Day_of_day.
Qed.

(** *** The order of date keys *)

Lemma prefix_append (p r : string) : prefix p (p ++ r) = true.
Proof.
  induction p as [|c p IH]; cbn; [destruct r; reflexivity|].
  destruct (ascii_dec c c) as [_|N]; [exact IH|contradiction N; reflexivity].
Qed.

Lemma keyOfDay_startsWith (d : Z) :
  startsWith (keyOfDay d) (NumberToString (YearFromDay d)) = true.
Proof. unfold startsWith. rewrite keyOfDay_form. apply prefix_append. Qed.

Lemma compare_refl (s : string) : String.compare s s = Eq.
Proof.
  pose proof (String.compare_antisym s s) as H.
  destruct (String.compare s s); [reflexivity|discriminate H|discriminate H].
Qed.

Lemma compare_append (p a b : string) :
  String.compare (p ++ a) (p ++ b) = String.compare a b.
Proof.
  induction p as [|c p IH]; cbn; [reflexivity|].
  assert (E : Ascii.compare c c = Eq).
  { pose proof (Ascii.compare_antisym c c) as H.
    destruct (Ascii.compare c c); [reflexivity|discriminate H|discriminate H]. }
  rewrite E. exact IH.
Qed.

Lemma monthDateOrdered_true (leap : bool) : allOrdered (monthDateTable leap) = true.
Proof. destruct leap; vm_compute; reflexivity. Qed.

Lemma allOrdered_pair (table : list (Z * string)) (p1 p2 : Z * string) :
  allOrdered table = true -> In p1 table -> In p2 table -> orderedPair p1 p2 = true.
Proof.
  unfold allOrdered. intros H H1 H2. rewrite forallb_forall in H.
  specialize (H p1 H1). rewrite forallb_forall in H. apply (H p2 H2).
Qed.

Lemma In_monthDateTable (leap : bool) (n : Z) :
  0 <= n < 366 -> In (n, monthDateText leap n) (monthDateTable leap).
Proof.
  intros H. unfold monthDateTable, daysOfYear. rewrite map_map.
  apply in_map_iff. exists (Z.to_nat n).
  rewrite Z2Nat.id by lia. split; [reflexivity|]. apply in_seq. lia.
Qed.

Lemma monthDateText_lt (leap : bool) (n1 n2 : Z) :
  0 <= n1 -> n1 < n2 -> n2 < 366 ->
  String.compare (monthDateText leap n1) (monthDateText leap n2) = Lt.
Proof.
  intros H0 H1 H2.
  pose proof (allOrdered_pair (monthDateTable leap) _ _ (monthDateOrdered_true leap)
                (In_monthDateTable leap n1 ltac:(lia))
                (In_monthDateTable leap n2 ltac:(lia))) as H.
  unfold orderedPair in H. cbn [fst snd] in H.
  replace (n1 <? n2) with true in H by (symmetry; apply Z.ltb_lt; exact H1).
  destruct (String.compare (monthDateText leap n1) (monthDateText leap n2));
    [discriminate H|reflexivity|discriminate H].
Qed.

Lemma keyOfDay_monthDateText (d : Z) :
  keyOfDay d
  = NumberToString (YearFromDay d)
    ++ String "-" (monthDateText (InLeapYear (YearFromDay d)) (DayWithinYear d)).
Proof. rewrite keyOfDay_form. reflexivity. Qed.

(** Within a year the keys are ordered as their days are. *)
Lemma keyOfDay_lt (d1 d2 : Z) :
  YearFromDay d1 = YearFromDay d2 -> d1 < d2 ->
  String.compare (keyOfDay d1) (keyOfDay d2) = Lt.
Proof.
  intros Ey Hlt. rewrite !keyOfDay_monthDateText, <- Ey.
  rewrite compare_append. cbn [String.compare].
  change (Ascii.compare "-" "-") with Eq. cbv iota.
  pose proof (DayWithinYear_bound d1) as B1. pose proof (DayWithinYear_bound d2) as B2.
  rewrite <- Ey in B2.
  assert (DayWithinYear d1 < DayWithinYear d2).
  { unfold DayWithinYear. rewrite <- Ey. lia. }
  apply monthDateText_lt; try lia.
  destruct (DaysInYear_cases (YearFromDay d1)) as [[_ E]|[_ E]]; lia.
Qed.

Lemma keyOfDay_leb (d1 d2 : Z) :
  YearFromDay d1 = YearFromDay d2 ->
  String.leb (keyOfDay d1) (keyOfDay d2) = true <-> d1 <= d2.
Proof.
  intros Ey. unfold String.leb. split.
  - intros H. destruct (Z.le_gt_cases d1 d2) as [Hle|Hgt]; [exact Hle|].
    pose proof (keyOfDay_lt d2 d1 (eq_sym Ey) Hgt) as C.
    rewrite String.compare_antisym, C in H. discriminate H.
  - intros Hle. destruct (Z.eq_dec d1 d2) as [->|Hne].
    + rewrite compare_refl. reflexivity.
    + rewrite (keyOfDay_lt d1 d2 Ey ltac:(lia)). reflexivity.
Qed.

End DateFacts.

(** ** Streaks *)

Module StreakFacts.
Import Js Dates Stats JsMapFacts DateFacts.

(** *** The scan on day numbers *)

Lemma scanDays_ge_longest (rest : list Z) :
  forall prev temp longest, longest <= scanDays prev rest temp longest.
Proof.
  induction rest as [|curr rest IH]; intros prev temp longest; cbn [scanDays].
  - lia.
  - destruct (curr - prev =? 1).
    + destruct (Z.gtb_spec (temp + 1) longest).
      * specialize (IH curr (temp + 1) (temp + 1)). lia.
      * apply IH.
    + apply IH.
Qed.

(** From a day reached with a run of [temp] days, [j] more consecutive days
    in the rest of the list make the longest run at least [temp + j]. *)
Lemma scanDays_run (rest : list Z) :
  forall prev temp longest j,
    StronglySorted Z.lt (prev :: rest) ->
    temp <= longest -> 0 <= j ->
    (forall i, 1 <= i <= j -> In (prev + i) rest) ->
    temp + j <= scanDays prev rest temp longest.
Proof.
  induction rest as [|curr rest IH]; intros prev temp longest j Hs Ht Hj Hin.
  - cbn [scanDays]. destruct (Z.eq_dec j 0) as [->|Hne]; [lia|].
    destruct (Hin 1 ltac:(lia)).
  - destruct (Z.eq_dec j 0) as [->|Hne].
    { pose proof (scanDays_ge_longest (curr :: rest) prev temp longest). lia. }
    apply StronglySorted_inv in Hs. destruct Hs as [Hs Hprev].
    pose proof Hs as Hs'. apply StronglySorted_inv in Hs'. destruct Hs' as [_ Hcurr].
    rewrite Forall_forall in Hprev, Hcurr.
    assert (Ecurr : curr = prev + 1).
    { pose proof (Hprev curr (or_introl eq_refl)) as H1.
      destruct (Hin 1 ltac:(lia)) as [E|Hr]; [lia|].
      specialize (Hcurr _ Hr). lia. }
    cbn [scanDays]. replace (curr - prev =? 1) with true by (symmetry; apply Z.eqb_eq; lia).
    replace (temp + j) with ((temp + 1) + (j - 1)) by lia.
    apply IH; try lia.
    + exact Hs.
    + destruct (Z.gtb_spec (temp + 1) longest); lia.
    + intros i Hi. destruct (Hin (i + 1) ltac:(lia)) as [E|Hr]; [lia|].
      replace (curr + i) with (prev + (i + 1)) by lia. exact Hr.
Qed.

(** A run of [1 + j] consecutive days anywhere in the list is found. *)
Lemma scanDays_contains (rest : list Z) :
  forall prev temp longest x j,
    StronglySorted Z.lt (prev :: rest) ->
    1 <= temp <= longest -> 0 <= j ->
    (forall i, 0 <= i <= j -> In (x + i) (prev :: rest)) ->
    1 + j <= scanDays prev rest temp longest.
Proof.
  induction rest as [|curr rest IH]; intros prev temp longest x j Hs Ht Hj Hin.
  - assert (x = prev).
    { destruct (Hin 0 ltac:(lia)) as [E|[]]. lia. }
    subst x. destruct (Z.eq_dec j 0) as [->|Hne]; [cbn; lia|].
    destruct (Hin 1 ltac:(lia)) as [E|[]]. lia.
  - destruct (Z.eq_dec x prev) as [->|Hne].
    + pose proof (scanDays_run (curr :: rest) prev temp longest j Hs ltac:(lia) Hj) as H.
      assert (forall i, 1 <= i <= j -> In (prev + i) (curr :: rest)).
      { intros i Hi. destruct (Hin i ltac:(lia)) as [E|Hr]; [lia|exact Hr]. }
      specialize (H H0). lia.
    + pose proof Hs as Hs'. apply StronglySorted_inv in Hs'. destruct Hs' as [Hs' Hprev].
      rewrite Forall_forall in Hprev.
      assert (Hx : prev < x).
      { destruct (Hin 0 ltac:(lia)) as [E|Hr]; [lia|].
        replace (x + 0) with x in Hr by lia. apply (Hprev _ Hr). }
      assert (Hin' : forall i, 0 <= i <= j -> In (x + i) (curr :: rest)).
      { intros i Hi. destruct (Hin i Hi) as [E|Hr]; [lia|exact Hr]. }
      cbn [scanDays]. destruct (curr - prev =? 1).
      * apply (IH curr (temp + 1) _ x j Hs'); try assumption.
        destruct (Z.gtb_spec (temp + 1) longest); lia.
      * apply (IH curr 1 longest x j Hs'); try assumption. lia.
Qed.

(** *** The scan on date keys *)

Lemma roundDiv_days (a b : Z) :
  roundDiv (b * msPerDay - a * msPerDay) (1000 * 60 * 60 * 24) = b - a.
Proof.
  unfold roundDiv, msPerDay. symmetry.
  apply (Z.div_unique _ _ _ 86400000); lia.
Qed.

Lemma scanFrom_days (keys : list string) :
  forall days prevKey prevDay i st,
    readsAs prevKey prevDay -> Forall2 readsAs keys days ->
    maxStreak (scanFrom prevKey keys i st)
    = scanDays prevDay days (tempStreak st) (maxStreak st).
Proof.
  induction keys as [|key keys IH]; intros days prevKey prevDay i st Hprev Hall;
    inversion Hall as [|? day ? days' Hkey Hrest]; subst; cbn [scanFrom scanDays].
  - reflexivity.
  - rewrite (IH days' key day (S i) _ Hkey Hrest). unfold scanStep.
    unfold readsAs in Hprev, Hkey. rewrite Hprev, Hkey. cbv zeta.
    rewrite roundDiv_days.
    destruct (day - prevDay =? 1); [|reflexivity].
    destruct (tempStreak st + 1 >? maxStreak st); reflexivity.
Qed.

(** *** Sorting the date keys *)

Lemma filter_all {A : Type} (f : A -> bool) (l : list A) :
  (forall x, In x l -> f x = true) -> filter f l = l.
Proof.
  induction l as [|x l IH]; intros H; cbn; [reflexivity|].
  rewrite (H x (or_introl eq_refl)). f_equal. apply IH. intros y Hy. apply H. right. exact Hy.
Qed.

Lemma insertBy_perm {A : Type} (cmp : A -> A -> Z) (x : A) (l : list A) :
  Permutation (insertBy cmp x l) (x :: l).
Proof.
  induction l as [|y l IH]; cbn; [apply Permutation_refl|].
  destruct (cmp x y <=? 0); [apply Permutation_refl|].
  apply (Permutation_trans (perm_skip y IH)). apply perm_swap.
Qed.

Lemma sortBy_perm {A : Type} (cmp : A -> A -> Z) (l : list A) :
  Permutation (sortBy cmp l) l.
Proof.
  unfold sortBy. induction l as [|x l IH]; cbn; [apply Permutation_refl|].
  apply (Permutation_trans (insertBy_perm cmp x _)). apply perm_skip, IH.
Qed.

Lemma dateKeyOf_day (year : Z) (key : string) :
  dateKeyOf year key ->
  YearFromDay (dayOf key) = year /\ key = keyOfDay (dayOf key) /\ readsAs key (dayOf key).
Proof.
  intros (Hy & d & Ed & ->). rewrite dayOf_keyOfDay by lia.
  split; [exact Ed|]. split; [reflexivity|].
  apply DateFromString_keyOfDay. lia.
Qed.

Lemma keyOrder_le (year : Z) (a b : string) :
  dateKeyOf year a -> dateKeyOf year b ->
  (keyOrder a b <=? 0) = (dayOf a <=? dayOf b).
Proof.
  intros Ha Hb.
  destruct (dateKeyOf_day year a Ha) as (Ya & Ea & _).
  destruct (dateKeyOf_day year b Hb) as (Yb & Eb & _).
  unfold keyOrder. rewrite Ea at 1. rewrite Eb at 1.
  pose proof (keyOfDay_leb (dayOf a) (dayOf b) ltac:(congruence)) as H.
  destruct (String.leb (keyOfDay (dayOf a)) (keyOfDay (dayOf b))).
  - symmetry. apply Z.leb_le, H. reflexivity.
  - symmetry. apply Z.leb_gt. destruct (Z.le_gt_cases (dayOf a) (dayOf b)) as [Hle|Hgt];
      [|lia]. apply H in Hle. discriminate Hle.
Qed.

Lemma insertBy_sorted (year : Z) (x : string) (l : list string) :
  dateKeyOf year x -> Forall (dateKeyOf year) l ->
  StronglySorted Z.le (map dayOf l) ->
  StronglySorted Z.le (map dayOf (insertBy keyOrder x l)).
Proof.
  intros Hx Hl Hs. induction l as [|y l IH]; cbn [insertBy map].
  - constructor; constructor.
  - inversion Hl as [|? ? Hy Hl']; subst.
    cbn [map] in Hs. apply StronglySorted_inv in Hs. destruct Hs as [Hs Hall].
    rewrite (keyOrder_le year x y Hx Hy).
    destruct (Z.leb_spec (dayOf x) (dayOf y)) as [Hle|Hgt]; cbn [map].
    + constructor; [constructor; assumption|].
      constructor; [exact Hle|].
      apply Forall_forall. intros d Hd. rewrite Forall_forall in Hall.
      specialize (Hall d Hd). lia.
    + constructor; [apply IH; assumption|].
      apply Forall_forall. intros d Hd. apply in_map_iff in Hd.
      destruct Hd as (k & <- & Hk). apply RankingFacts.In_insertBy in Hk.
      destruct Hk as [->|Hk]; [lia|].
      rewrite Forall_forall in Hall. apply Hall. apply in_map. exact Hk.
Qed.

Lemma sortBy_sorted (year : Z) (l : list string) :
  Forall (dateKeyOf year) l ->
  StronglySorted Z.le (map dayOf (sortBy keyOrder l)).
Proof.
  intros Hl. unfold sortBy. induction Hl as [|x l Hx Hl IH]; cbn [fold_right map].
  - constructor.
  - apply (insertBy_sorted year); [exact Hx| |exact IH].
    apply Forall_forall. intros k Hk.
    apply (Permutation_in _ (sortBy_perm keyOrder l)) in Hk.
    rewrite Forall_forall in Hl. apply Hl, Hk.
Qed.

Lemma sorted_NoDup_lt (l : list Z) :
  StronglySorted Z.le l -> NoDup l -> StronglySorted Z.lt l.
Proof.
  intros Hs Hn. induction Hs as [|x l Hs IH Hall]; [constructor|].
  inversion Hn as [|? ? Hx Hn']; subst.
  constructor; [apply IH, Hn'|].
  rewrite Forall_forall in *. intros y Hy. specialize (Hall y Hy).
  assert (x <> y) by (intros ->; contradiction). lia.
Qed.

Lemma dayOf_inj (year : Z) (a b : string) :
  dateKeyOf year a -> dateKeyOf year b -> dayOf a = dayOf b -> a = b.
Proof.
  intros Ha Hb E.
  destruct (dateKeyOf_day year a Ha) as (_ & Ea & _).
  destruct (dateKeyOf_day year b Hb) as (_ & Eb & _). congruence.
Qed.

(** *** Walking back from the anchor day *)

Section Walk.

Variable tz : Z.
Variable dailyActivity : JsMap.t Z.

Lemma has_formatDateKey (t : Z) :
  JsMap.has dailyActivity (formatDateKey tz t) = true
  <-> In (keyOfDay (Day (LocalTime tz t))) (JsMap.keys dailyActivity).
Proof. rewrite formatDateKey_keyOfDay. apply has_In. Qed.

(** The keys found on the way back are keys of the map, and they are the
    keys of the days before the day walked back from, one after the other. *)
Lemma daysBack_keys (fuel : nat) :
  forall t, incl (daysBack tz fuel dailyActivity t) (JsMap.keys dailyActivity).
Proof.
  induction fuel as [|fuel IH]; intros t key Hkey; cbn [daysBack] in Hkey;
    [contradiction|].
  cbv zeta in Hkey.
  destruct (JsMap.has dailyActivity (formatDateKey tz (t - 24 * 60 * 60 * 1000))) eqn:E;
    [|contradiction].
  destruct Hkey as [<-|Hkey]; [|apply (IH _ _ Hkey)].
  apply has_In, E.
Qed.

Lemma daysBack_form (fuel : nat) :
  forall t,
    daysBack tz fuel dailyActivity t
    = map (fun i => keyOfDay (Day (LocalTime tz t) - Z.of_nat i))
        (seq 1 (List.length (daysBack tz fuel dailyActivity t))).
Proof.
  induction fuel as [|fuel IH]; intros t; cbn [daysBack]; [reflexivity|].
  cbv zeta.
  destruct (JsMap.has dailyActivity (formatDateKey tz (t - 24 * 60 * 60 * 1000)));
    [|reflexivity].
  cbn [List.length seq map]. f_equal.
  - rewrite formatDateKey_keyOfDay, Day_LocalTime_back. reflexivity.
  - rewrite (IH (t - 24 * 60 * 60 * 1000)) at 1.
    rewrite <- (seq_shift _ 1), map_map. apply map_ext. intros i.
    rewrite Day_LocalTime_back. f_equal. lia.
Qed.

(** The count is the number of keys found, when the turns suffice. *)
Lemma countBack_daysBack (fuel : nat) :
  forall t streak,
    countBack tz fuel dailyActivity t streak
    = if (List.length (daysBack tz fuel dailyActivity t) <? fuel)%nat
      then Some (streak + Z.of_nat (List.length (daysBack tz fuel dailyActivity t)))
      else None.
Proof.
  induction fuel as [|fuel IH]; intros t streak; cbn [countBack daysBack];
    [reflexivity|].
  cbv zeta.
  destruct (JsMap.has dailyActivity (formatDateKey tz (t - 24 * 60 * 60 * 1000))).
  - rewrite IH. cbn [List.length].
    change (S (List.length (daysBack tz fuel dailyActivity (t - 24 * 60 * 60 * 1000)))
            <? S fuel)%nat
      with (List.length (daysBack tz fuel dailyActivity (t - 24 * 60 * 60 * 1000))
            <? fuel)%nat.
    destruct (_ <? fuel)%nat; [|reflexivity]. f_equal. lia.
  - cbn. f_equal. lia.
Qed.

Variable year : Z.

(** The day behind a key that is a date key of the year. *)
Lemma dateKeyOf_keyOfDay (d : Z) :
  dateKeyOf year (keyOfDay d) -> YearFromDay d = year /\ 1000 <= year <= 9999.
Proof.
  intros (Hy & d' & Ed & E). apply keyOfDay_inj in E; [|lia]. subst d'. auto.
Qed.

(** When the keys found are date keys of the year, they are distinct, so
    there are no more of them than keys in the map. *)
Lemma daysBack_length (fuel : nat) (t : Z) :
  Forall (dateKeyOf year) (daysBack tz fuel dailyActivity t) ->
  (List.length (daysBack tz fuel dailyActivity t) <= JsMap.size dailyActivity)%nat.
Proof.
  intros Hall. unfold JsMap.size.
  rewrite <- (length_map fst dailyActivity). fold (JsMap.keys dailyActivity).
  apply NoDup_incl_length; [|apply daysBack_keys].
  rewrite daysBack_form in Hall |- *.
  set (n := List.length (daysBack tz fuel dailyActivity t)) in *.
  rewrite Forall_forall in Hall.
  apply NoDup_map_NoDup_ForallPairs; [|apply seq_NoDup].
  intros x y Hx Hy E.
  assert (Hky : dateKeyOf year (keyOfDay (Day (LocalTime tz t) - Z.of_nat y))).
  { apply Hall. apply in_map_iff. exists y. split; [reflexivity|exact Hy]. }
  destruct (dateKeyOf_keyOfDay _ Hky) as [Hyy Hr].
  apply keyOfDay_inj in E; [lia|]. rewrite Hyy. exact Hr.
Qed.

(** The current streak counted from a moment [t] whose day has a key: the
    number of keys of the run that ends at that day. *)
Lemma countStreakBackwards_run (fuel : nat) (t : Z) :
  (JsMap.size dailyActivity < fuel)%nat ->
  Forall (dateKeyOf year) (daysBack tz fuel dailyActivity t) ->
  countStreakBackwards tz fuel dailyActivity t
  = Some (1 + Z.of_nat (List.length (daysBack tz fuel dailyActivity t))).
Proof.
  intros Hfuel Hall. unfold countStreakBackwards. rewrite countBack_daysBack.
  pose proof (daysBack_length fuel t Hall) as Hlen.
  replace (_ <? fuel)%nat with true; [reflexivity|].
  symmetry. apply Nat.ltb_lt. lia.
Qed.

End Walk.

(** *** The two streaks *)

Section Sorted.

Variable keys : list string.
Variable year : Z.
Hypothesis dateKeys : Forall (dateKeyOf year) keys.
Hypothesis distinct : NoDup keys.

Lemma sorted_dateKeys : Forall (dateKeyOf year) (sortBy keyOrder keys).
Proof.
  apply Forall_forall. intros key Hkey.
  apply (Permutation_in _ (sortBy_perm keyOrder keys)) in Hkey.
  pose proof dateKeys as Hall. rewrite Forall_forall in Hall. apply Hall, Hkey.
Qed.

Lemma sorted_readsAs :
  Forall2 readsAs (sortBy keyOrder keys) (map dayOf (sortBy keyOrder keys)).
Proof.
  pose proof sorted_dateKeys as H.
  induction H as [|key rest Hkey _ IH]; cbn [map]; constructor; [|exact IH].
  apply (dateKeyOf_day year key Hkey).
Qed.

Lemma sorted_increasing : StronglySorted Z.lt (map dayOf (sortBy keyOrder keys)).
Proof.
  apply sorted_NoDup_lt.
  - apply (sortBy_sorted year), dateKeys.
  - apply NoDup_map_NoDup_ForallPairs.
    + intros a b Ha Hb. pose proof sorted_dateKeys as Hall.
      rewrite Forall_forall in Hall. apply (dayOf_inj year); auto.
    + apply (Permutation_NoDup (Permutation_sym (sortBy_perm keyOrder keys))), distinct.
Qed.

Lemma sorted_day (d : Z) :
  In d (map dayOf keys) -> In d (map dayOf (sortBy keyOrder keys)).
Proof.
  apply Permutation_in, Permutation_map, Permutation_sym, sortBy_perm.
Qed.

(** The scan finds every run of consecutive days among the keys. *)
Lemma scan_finds_run (first : string) (rest : list string) (x j : Z) :
  sortBy keyOrder keys = first :: rest ->
  0 <= j ->
  (forall i, 0 <= i <= j -> In (x + i) (map dayOf keys)) ->
  1 + j
  <= maxStreak
       (scanFrom first rest 1
          {| maxStreak := 1; tempStreak := 1; tempStreakStart := 0;
             maxStreakStart := 0; maxStreakEnd := 0 |}).
Proof.
  intros E Hj Hrun.
  pose proof sorted_readsAs as Hr. pose proof sorted_increasing as Hs.
  rewrite E in Hr, Hs. cbn [map] in Hr, Hs.
  inversion Hr as [|? ? ? ? Hfirst Hrest]; subst.
  rewrite (scanFrom_days rest _ first (dayOf first) _ _ Hfirst Hrest).
  cbn [tempStreak maxStreak].
  apply (scanDays_contains _ _ _ _ x j Hs); [lia|exact Hj|].
  intros i Hi. pose proof (sorted_day _ (Hrun i Hi)) as H.
  rewrite E in H. exact H.
Qed.

End Sorted.

Lemma scan_at_least_one (first : string) (rest : list string) :
  1 <= maxStreak
         (scanFrom first rest 1
            {| maxStreak := 1; tempStreak := 1; tempStreakStart := 0;
               maxStreakStart := 0; maxStreakEnd := 0 |}).
Proof.
  assert (G : forall rest prev i st, maxStreak st <= maxStreak (scanFrom prev rest i st)).
  { clear. induction rest as [|curr rest IH]; intros prev i st; cbn [scanFrom]; [lia|].
    apply (Z.le_trans _ (maxStreak (scanStep prev curr i st))); [|apply IH].
    unfold scanStep.
    destruct (match DateFromString prev with
              | Some prevDate =>
                  match DateFromString curr with
                  | Some currDate =>
                      roundDiv (currDate - prevDate) (1000 * 60 * 60 * 24) =? 1
                  | None => false
                  end
              | None => false
              end); cbn [maxStreak]; [|lia].
    destruct (Z.gtb_spec (tempStreak st + 1) (maxStreak st)); cbn [maxStreak]; lia. }
  apply (G rest first 1%nat
           {| maxStreak := 1; tempStreak := 1; tempStreakStart := 0;
              maxStreakStart := 0; maxStreakEnd := 0 |}).
Qed.

Section Streaks.

Variable tz now : Z.
Variable fuel : nat.
Variable dailyActivity : JsMap.t Z.
Variable year : Z.

Hypothesis distinct : JsMap.wf dailyActivity.
Hypothesis dateKeys : Forall (dateKeyOf year) (keysOfYear dailyActivity year).

Lemma keysOfYear_day (d : Z) :
  In (keyOfDay d) (JsMap.keys dailyActivity) -> dateKeyOf year (keyOfDay d) ->
  In d (map dayOf (keysOfYear dailyActivity year)).
Proof.
  intros Hin Hkey. destruct (dateKeyOf_keyOfDay year d Hkey) as [Hy Hr].
  apply in_map_iff. exists (keyOfDay d). split; [apply dayOf_keyOfDay; lia|].
  apply filter_In. split; [exact Hin|]. rewrite <- Hy. apply keyOfDay_startsWith.
Qed.

(** A run of keys, walked back from a moment whose day has a key, that lies
    in the target year is no longer than the max streak. *)
Lemma run_le_maxStreak (first : string) (rest : list string) (t : Z) :
  activeDatesOf dailyActivity year = first :: rest ->
  JsMap.has dailyActivity (formatDateKey tz t) = true ->
  Forall (dateKeyOf year)
    (formatDateKey tz t :: daysBack tz fuel dailyActivity t) ->
  1 + Z.of_nat (List.length (daysBack tz fuel dailyActivity t))
  <= maxStreak
       (scanFrom first rest 1
          {| maxStreak := 1; tempStreak := 1; tempStreakStart := 0;
             maxStreakStart := 0; maxStreakEnd := 0 |}).
Proof.
  intros Ead Hhas Hrun.
  set (n := List.length (daysBack tz fuel dailyActivity t)).
  set (A := Day (LocalTime tz t)).
  apply (scan_finds_run (keysOfYear dailyActivity year) year dateKeys
           (NoDup_filter _ distinct) first rest (A - Z.of_nat n) (Z.of_nat n) Ead);
    [lia|].
  intros i Hi. rewrite Forall_forall in Hrun.
  destruct (Z.eq_dec i (Z.of_nat n)) as [->|Hne].
  - replace (A - Z.of_nat n + Z.of_nat n) with A by lia.
    apply keysOfYear_day.
    + apply has_formatDateKey, Hhas.
    + unfold A. rewrite <- formatDateKey_keyOfDay. apply Hrun. left. reflexivity.
  - assert (Hin : In (keyOfDay (A - Z.of_nat n + i)) (daysBack tz fuel dailyActivity t)).
    { rewrite daysBack_form. apply in_map_iff. exists (Z.to_nat (Z.of_nat n - i)).
      split; [f_equal; fold A; lia|]. apply in_seq. fold n. lia. }
    apply keysOfYear_day.
    + apply (daysBack_keys tz dailyActivity fuel t), Hin.
    + apply Hrun. right. exact Hin.
Qed.

End Streaks.

(** C4, amended: for a map of distinct keys in which every key that starts
    with the digits of the target year is a date key of that year (four
    digits, written as formatDateKey writes it), the streaks are computed,
    and the max streak is at least the current streak whenever the trailing
    run that anchors the current streak lies within the target year. *)
Theorem maxStreak_ge_currentStreak (tz now : Z) (fuel : nat)
    (dailyActivity : JsMap.t Z) (year : Z) :
  JsMap.wf dailyActivity ->
  Forall (dateKeyOf year) (keysOfYear dailyActivity year) ->
  Forall (dateKeyOf year) (trailingRun tz now fuel dailyActivity) ->
  (JsMap.size dailyActivity < fuel)%nat ->
  exists result,
    calculateStreaks tz now fuel dailyActivity year = Some result
    /\ resultCurrentStreak result <= resultMaxStreak result.
Proof.
  intros Hwf Hkeys Hrun Hfuel. unfold calculateStreaks. cbv zeta.
  destruct (activeDatesOf dailyActivity year) as [|first rest] eqn:Ead.
  { eexists. split; [reflexivity|]. cbn. lia. }
  unfold trailingRun in Hrun.
  destruct (JsMap.has dailyActivity (formatDateKey tz now)) eqn:Etoday.
  - rewrite (countStreakBackwards_run tz dailyActivity year fuel now Hfuel
               (Forall_inv_tail Hrun)).
    eexists. split; [reflexivity|]. cbn [resultCurrentStreak resultMaxStreak].
    apply (run_le_maxStreak tz fuel dailyActivity year Hwf Hkeys first rest now
             Ead Etoday Hrun).
  - destruct (JsMap.has dailyActivity (formatDateKey tz (now - 24 * 60 * 60 * 1000)))
      eqn:Eyesterday.
    + rewrite (countStreakBackwards_run tz dailyActivity year fuel _ Hfuel
                 (Forall_inv_tail Hrun)).
      eexists. split; [reflexivity|]. cbn [resultCurrentStreak resultMaxStreak].
      apply (run_le_maxStreak tz fuel dailyActivity year Hwf Hkeys first rest _
               Ead Eyesterday Hrun).
    + eexists. split; [reflexivity|]. cbn [resultCurrentStreak resultMaxStreak].
      pose proof (scan_at_least_one first rest). lia.
Qed.

(** The streaks on the first days of 2024, and on no activity at all. *)
Example calculateStreaks_firstDays2024 :
  calculateStreaks 0 january2024 5 firstDays2024 2024
  = Some {| resultMaxStreak := 3; resultCurrentStreak := 3;
            resultMaxStreakDays := ["2024-01-01"; "2024-01-02"; "2024-01-03"] |}.
Proof. vm_compute. reflexivity. Qed.

Example calculateStreaks_empty (tz now : Z) (fuel : nat) (year : Z) :
  calculateStreaks tz now fuel [] year
  = Some {| resultMaxStreak := 0; resultCurrentStreak := 0; resultMaxStreakDays := [] |}.
Proof. reflexivity. Qed.

Lemma maxStreak_ge_currentStreak_witness :
  exists result,
    calculateStreaks 0 january2025 10 threeYears 2025 = Some result
    /\ resultCurrentStreak result <= resultMaxStreak result.
Proof.
  apply maxStreak_ge_currentStreak.
  - unfold JsMap.wf. cbn. repeat constructor; cbn; intuition discriminate.
  - replace (keysOfYear threeYears 2025)
      with ["2025-01-01"; "2025-01-02"; "2025-01-03"] by reflexivity.
    repeat constructor; try lia.
    + exists 20089. split; reflexivity.
    + exists 20090. split; reflexivity.
    + exists 20091. split; reflexivity.
  - replace (trailingRun 0 january2025 10 threeYears)
      with ["2025-01-03"; "2025-01-02"; "2025-01-01"] by (vm_compute; reflexivity).
    repeat constructor; try lia.
    + exists 20091. split; reflexivity.
    + exists 20090. split; reflexivity.
    + exists 20089. split; reflexivity.
  - cbn. lia.
Defined.

(** C4, as stated, fails: the max streak is the longest run among the keys
    of the target year, the current streak is counted over all keys. In
    2025, for the target year 2024, the trailing run of three days in 2025 is
    neither the run the max streak reports nor the longest run of the
    history (five days in 2023), and yet the max streak, 1, is below the
    current streak, 3. *)
Lemma currentStreak_above_maxStreak :
  exists result,
    JsMap.wf threeYears
    /\ calculateStreaks 0 january2025 10 threeYears 2024 = Some result
    /\ resultMaxStreakDays result = ["2024-06-01"]
    /\ trailingRun 0 january2025 10 threeYears
       = ["2025-01-03"; "2025-01-02"; "2025-01-01"]
    /\ Forall (fun key => ~ In key (resultMaxStreakDays result))
         (trailingRun 0 january2025 10 threeYears)
    /\ Forall (fun key => JsMap.has threeYears key = true)
         ["2023-03-01"; "2023-03-02"; "2023-03-03"; "2023-03-04"; "2023-03-05"]
    /\ ~ (resultMaxStreak result >= resultCurrentStreak result).
Proof.
  exists {| resultMaxStreak := 1; resultCurrentStreak := 3;
            resultMaxStreakDays := ["2024-06-01"] |}.
  split; [|split; [|split; [|split; [|split; [|split]]]]].
  - unfold JsMap.wf. cbn. repeat constructor; cbn; intuition discriminate.
  - vm_compute. reflexivity.
  - reflexivity.
  - vm_compute. reflexivity.
  - replace (trailingRun 0 january2025 10 threeYears)
      with ["2025-01-03"; "2025-01-02"; "2025-01-01"] by (vm_compute; reflexivity).
    repeat constructor; cbn; intuition discriminate.
  - repeat constructor.
  - cbn. lia.
Qed.

End StreakFacts.

(** ** The summary *)

Module SummaryFacts.
Import Js Dates Models Stats.

(** The summary is made of the parts the properties above are about. *)
Lemma calculateStats_parts (tz now : Z) (fuel : nat) (cachedData : ModelsDevData)
    (getModelDisplayName getProviderDisplayName : string -> string)
    (year : Z) (usageData : UsageData) (stats : CodexStats) :
  calculateStats tz now fuel cachedData getModelDisplayName getProviderDisplayName
    year usageData = Some stats ->
  statsTotals stats = fst (aggregate (events usageData))
  /\ statsRanking stats
     = rankEvents cachedData getModelDisplayName getProviderDisplayName
         (events usageData)
  /\ calculateStreaks tz now fuel (dailyActivity usageData) year
     = Some (statsStreaks stats)
  /\ statsWeekdayActivity stats = weekdayActivity tz (dailyActivity usageData).
Proof.
  unfold calculateStats, rankEvents, weekdayActivity. cbv zeta.
  destruct (aggregate (events usageData)) as [tot modelUsageTotals].
  destruct (calculateStreaks tz now fuel (dailyActivity usageData) year) as [streaks|];
    [|discriminate].
  intros [= <-]. cbn. repeat split; reflexivity.
Qed.

End SummaryFacts.

(** ** Weekday activity *)

Module WeekdayPeakFacts.
Import Js Dates Stats Activity.

(** The scan of [buildWeekdayActivity] over the first [n] weekdays. *)
Lemma weekday_scan (counts : list Z) (n : nat) :
  let '(d, m) :=
    fold_left
      (fun (acc : Z * Z) (i : nat) =>
         let '(mostActiveDay, maxCount) := acc in
         if nth i counts 0 >? maxCount then (Z.of_nat i, nth i counts 0)
         else (mostActiveDay, maxCount))
      (seq 0 n) (0, 0) in
  0 <= m
  /\ 0 <= d
  /\ (forall i, (i < n)%nat -> nth i counts 0 <= m)
  /\ (0 < m ->
      d < Z.of_nat n /\ nth (Z.to_nat d) counts 0 = m
      /\ forall j, (j < Z.to_nat d)%nat -> nth j counts 0 < m)
  /\ (m = 0 -> d = 0).
Proof.
  induction n as [|n IH].
  - cbn. repeat split; lia.
  - rewrite seq_S, fold_left_app. cbn [fold_left Nat.add].
    destruct (fold_left _ (seq 0 n) (0, 0)) as [d m].
    destruct IH as (Hm & Hd & Hall & Hpos & Hzero).
    destruct (Z.gtb_spec (nth n counts 0) m) as [Hgt|Hle].
    + split; [lia|]. split; [lia|]. split; [|split].
      * intros i Hi. destruct (Nat.eq_dec i n) as [->|Hne]; [lia|].
        specialize (Hall i ltac:(lia)). lia.
      * intros _. rewrite Nat2Z.id. split; [lia|]. split; [reflexivity|].
        intros j Hj. specialize (Hall j Hj). lia.
      * lia.
    + split; [lia|]. split; [lia|]. split; [|split].
      * intros i Hi. destruct (Nat.eq_dec i n) as [->|Hne]; [lia|].
        apply Hall. lia.
      * intros Hp. destruct (Hpos Hp) as (H1 & H2 & H3).
        split; [lia|]. split; [exact H2|exact H3].
      * exact Hzero.
Qed.

(** X1: [buildWeekdayActivity] reports as [maxCount] the greatest of the
    seven counts, or 0 when none is positive; [mostActiveDay] is the first
    weekday that holds this count, and it is Sunday, index 0, when no count
    is positive; the name is the one of that weekday. *)
Theorem buildWeekdayActivity_peak (counts : list Z) :
  let w := buildWeekdayActivity counts in
  0 <= mostActiveDay w <= 6
  /\ 0 <= maxCount w
  /\ (forall i, (i < 7)%nat -> nth i counts 0 <= maxCount w)
  /\ (0 < maxCount w ->
      nth (Z.to_nat (mostActiveDay w)) counts 0 = maxCount w
      /\ forall j, (j < Z.to_nat (mostActiveDay w))%nat ->
                   nth j counts 0 < maxCount w)
  /\ ((forall i, (i < 7)%nat -> nth i counts 0 <= 0) ->
      mostActiveDay w = 0 /\ maxCount w = 0 /\ mostActiveDayName w = "Sunday")
  /\ In (mostActiveDayName w) WEEKDAY_NAMES_FULL.
Proof.
  pose proof (weekday_scan counts 7) as H.
  unfold buildWeekdayActivity. cbv zeta.
  destruct (fold_left _ (seq 0 7) (0, 0)) as [d m].
  destruct H as (Hm & Hd & Hall & Hpos & Hzero).
  cbn [mostActiveDay maxCount mostActiveDayName].
  assert (Hd6 : d <= 6).
  { destruct (Z.eq_dec m 0) as [E|N]; [rewrite (Hzero E); lia|].
    destruct (Hpos ltac:(lia)) as (H1 & _). lia. }
  split; [lia|]. split; [exact Hm|]. split; [exact Hall|].
  split; [intros Hp; apply Hpos, Hp|]. split.
  - intros Hnone.
    assert (E : m = 0).
    { destruct (Z.eq_dec m 0) as [E|N]; [exact E|].
      destruct (Hpos ltac:(lia)) as (H1 & H2 & _).
      specialize (Hnone (Z.to_nat d) ltac:(lia)). lia. }
    rewrite (Hzero E). split; [reflexivity|]. split; [exact E|reflexivity].
  - assert (Hc : d = 0 \/ d = 1 \/ d = 2 \/ d = 3 \/ d = 4 \/ d = 5 \/ d = 6) by lia.
    repeat (destruct Hc as [->|Hc]; [cbn; tauto|]). subst d. cbn. tauto.
Qed.






End WeekdayPeakFacts.

(** ** Numbers and keys read back *)

Module KeyFacts.
Import Js Dates Stats DateFacts MostActive.

Lemma length_append (s1 s2 : string) :
  String.length (s1 ++ s2) = (String.length s1 + String.length s2)%nat.
Proof. induction s1 as [|c s1 IH]; cbn; [|rewrite IH]; reflexivity. Qed.

Lemma append_inj (y1 y2 s1 s2 : string) :
  String.length s1 = String.length s2 ->
  y1 ++ s1 = y2 ++ s2 -> y1 = y2 /\ s1 = s2.
Proof.
  revert y2. induction y1 as [|c y1 IH]; intros [|c2 y2] Hlen E; cbn in E.
  - auto.
  - exfalso. apply (f_equal String.length) in E. cbn in E.
    rewrite length_append in E. lia.
  - exfalso. apply (f_equal String.length) in E. cbn in E.
    rewrite length_append in E. lia.
  - injection E as -> E. destruct (IH y2 Hlen E) as [-> ->]. auto.
Qed.

Lemma digitsValue_decimalDigits (fuel : nat) :
  forall n acc a,
    digitsValue (decimalDigits fuel n acc) a = digitsValue acc (horner fuel n a).
Proof.
  induction fuel as [|fuel IH]; intros n acc a.
  - cbn [decimalDigits digitsValue horner].
    rewrite digitValue_digitChar; [reflexivity|].
    pose proof (Z.mod_pos_bound n 10 ltac:(lia)). lia.
  - rewrite decimalDigits_step. cbn [horner].
    destruct (n / 10 =? 0).
    + cbn [digitsValue]. rewrite digitValue_digitChar; [reflexivity|].
      pose proof (Z.mod_pos_bound n 10 ltac:(lia)). lia.
    + rewrite IH. cbn [digitsValue]. rewrite digitValue_digitChar; [reflexivity|].
      pose proof (Z.mod_pos_bound n 10 ltac:(lia)). lia.
Qed.

Lemma horner_value (fuel : nat) :
  forall n, 0 <= n <= Z.of_nat fuel -> horner fuel n 0 = n.
Proof.
  induction fuel as [|fuel IH]; intros n Hn; cbn [horner].
  - replace n with 0 by lia. reflexivity.
  - destruct (Z.eqb_spec (n / 10) 0) as [E|N].
    + Z.div_mod_to_equations. lia.
    + rewrite IH by (Z.div_mod_to_equations; lia).
      Z.div_mod_to_equations. lia.
Qed.

(** Reading back the text of a number gives the number. *)
Lemma NumberOf_NumberToString (n : Z) :
  0 <= n -> NumberOf (NumberToString n) = Some n.
Proof.
  intros Hn. unfold NumberOf, NumberToString.
  replace (n <? 0) with false by (symmetry; apply Z.ltb_ge; exact Hn).
  rewrite digitsValue_decimalDigits. cbn [digitsValue].
  rewrite horner_value by lia. reflexivity.
Qed.

Lemma NumberToString_digit_first (n : Z) :
  0 <= n -> exists k rest, 0 <= k <= 9
                           /\ NumberToString n = String (digitChar k) rest.
Proof.
  intros Hn. unfold NumberToString.
  replace (n <? 0) with false by (symmetry; apply Z.ltb_ge; exact Hn).
  pose proof (decimalDigits_digits (Z.to_nat n) n EmptyString I) as Hd.
  pose proof (decimalDigits_longer (Z.to_nat n) n EmptyString) as Hl.
  destruct (decimalDigits (Z.to_nat n) n EmptyString) as [|c rest]; cbn in Hl; [lia|].
  cbn [allDigits] in Hd. destruct Hd as [(k & Hk & ->) _].
  exists k, rest. auto.
Qed.

Lemma NumberToString_inj (n m : Z) : NumberToString n = NumberToString m -> n = m.
Proof.
  intros E.
  assert (Hpos : forall a b, 0 <= a -> 0 <= b ->
                             NumberToString a = NumberToString b -> a = b).
  { intros a b Ha Hb Eab.
    pose proof (NumberOf_NumberToString a Ha) as H1.
    pose proof (NumberOf_NumberToString b Hb) as H2.
    rewrite Eab in H1. congruence. }
  assert (Hmix : forall a b, a < 0 -> 0 <= b ->
                             NumberToString a = NumberToString b -> False).
  { intros a b Ha Hb Eab.
    destruct (NumberToString_neg a Ha) as (r & Er).
    destruct (NumberToString_digit_first b Hb) as (k & rest & Hk & Ek).
    rewrite Er, Ek in Eab. injection Eab as Ec _.
    apply (digitChar_not_dash k Hk). symmetry. exact Ec. }
  destruct (Z.lt_ge_cases n 0) as [Hn|Hn]; destruct (Z.lt_ge_cases m 0) as [Hm|Hm].
  - unfold NumberToString in E.
    replace (n <? 0) with true in E by (symmetry; apply Z.ltb_lt; exact Hn).
    replace (m <? 0) with true in E by (symmetry; apply Z.ltb_lt; exact Hm).
    cbn [append] in E. injection E as E.
    assert (NumberToString (- n) = NumberToString (- m)).
    { unfold NumberToString.
      replace (- n <? 0) with false by (symmetry; apply Z.ltb_ge; lia).
      replace (- m <? 0) with false by (symmetry; apply Z.ltb_ge; lia).
      exact E. }
    pose proof (Hpos (- n) (- m) ltac:(lia) ltac:(lia) H). lia.
  - exfalso. apply (Hmix n m Hn Hm E).
  - exfalso. apply (Hmix m n Hm Hn). symmetry. exact E.
  - apply Hpos; assumption.
Qed.

Lemma digitChar_inj (a b : Z) :
  0 <= a <= 9 -> 0 <= b <= 9 -> digitChar a = digitChar b -> a = b.
Proof.
  intros Ha Hb E. pose proof (digitValue_digitChar a Ha) as H1.
  pose proof (digitValue_digitChar b Hb) as H2. rewrite E in H1. congruence.
Qed.

(** Two days with the same key are the same day, in whatever year. *)
Lemma keyOfDay_inj_all (d d' : Z) : keyOfDay d = keyOfDay d' -> d = d'.
Proof.
  intros E. rewrite !keyOfDay_form in E.
  apply append_inj in E; [|reflexivity]. destruct E as [Ey Es].
  apply NumberToString_inj in Ey.
  pose proof (day_fields_bound d) as (Hm & Hd & Hdm).
  pose proof (day_fields_bound d') as (Hm' & Hd' & Hdm').
  injection Es as E1 E2 E3 E4.
  apply digitChar_inj in E1, E2, E3, E4; try (Z.div_mod_to_equations; lia).
  assert (Em : MonthFromDay d = MonthFromDay d') by (Z.div_mod_to_equations; lia).
  assert (Ed : DateFromDay d = DateFromDay d') by (Z.div_mod_to_equations; lia).
  rewrite <- (MakeDay_of_day d), <- (MakeDay_of_day d'). congruence.
Qed.

End KeyFacts.

(** ** The days of the longest streak *)

Module RunFacts.
Import Js Dates Stats JsMapFacts DateFacts StreakFacts KeyFacts Runs.



Lemma nth_middle_string (done : list string) (x : string) (rest : list string) :
  nth (List.length done) (done ++ x :: rest)%list EmptyString = x.
Proof. apply nth_middle. Qed.



(** The days of a run are distinct. *)
Lemma nextDay_lt (a b : string) : nextDay a b -> dayOf a < dayOf b.
Proof.
  intros (t & Ea & Eb). unfold dayOf. rewrite Ea, Eb.
  unfold Day, msPerDay. Z.div_mod_to_equations. lia.
Qed.



(** *** The walk back always ends *)

Section WalkEnds.

Variable tz : Z.
Variable dailyActivity : JsMap.t Z.

(** The anchor day and the days found before it are distinct keys of the
    map. *)
Lemma anchored_run_length (fuel : nat) (t : Z) :
  JsMap.has dailyActivity (formatDateKey tz t) = true ->
  (S (List.length (daysBack tz fuel dailyActivity t))
   <= JsMap.size dailyActivity)%nat.
Proof.
  intros Hanchor. unfold JsMap.size.
  rewrite <- (length_map fst dailyActivity). fold (JsMap.keys dailyActivity).
  set (n := List.length (daysBack tz fuel dailyActivity t)).
  assert (E : (formatDateKey tz t :: daysBack tz fuel dailyActivity t)
              = map (fun i => keyOfDay (Day (LocalTime tz t) - Z.of_nat i))
                  (seq 0 (S n))).
  { cbn [seq map]. f_equal.
    - rewrite formatDateKey_keyOfDay. f_equal. lia.
    - apply daysBack_form. }
  replace (S n) with (List.length (formatDateKey tz t
                                     :: daysBack tz fuel dailyActivity t))
    by reflexivity.
  apply NoDup_incl_length.
  - rewrite E. apply NoDup_map_NoDup_ForallPairs; [|apply seq_NoDup].
    intros x y Hx Hy Exy. apply keyOfDay_inj_all in Exy. lia.
  - intros key [<-|Hkey].
    + apply has_In, Hanchor.
    + apply (daysBack_keys tz dailyActivity fuel t key Hkey).
Qed.

Lemma countStreakBackwards_ends (fuel : nat) (t : Z) :
  (JsMap.size dailyActivity < fuel)%nat ->
  JsMap.has dailyActivity (formatDateKey tz t) = true ->
  exists streak,
    countStreakBackwards tz fuel dailyActivity t = Some streak
    /\ 1 <= streak <= Z.of_nat (JsMap.size dailyActivity).
Proof.
  intros Hfuel Hanchor. unfold countStreakBackwards. rewrite countBack_daysBack.
  pose proof (anchored_run_length fuel t Hanchor) as Hlen.
  replace (_ <? fuel)%nat with true by (symmetry; apply Nat.ltb_lt; lia).
  eexists. split; [reflexivity|]. lia.
Qed.

End WalkEnds.

(** X4: the walk back of the current streak always ends: with more turns
    than the map has keys, [calculateStreaks] returns. The current streak is
    at most the number of keys; when some key starts with the year, it is 0
    exactly when neither today nor yesterday is a key. When no key starts
    with the year, both streaks are 0 and there are no days. *)
Theorem calculateStreaks_returns (tz now : Z) (fuel : nat)
    (dailyActivity : JsMap.t Z) (year : Z) :
  (JsMap.size dailyActivity < fuel)%nat ->
  exists result,
    calculateStreaks tz now fuel dailyActivity year = Some result
    /\ 0 <= resultCurrentStreak result <= Z.of_nat (JsMap.size dailyActivity)
    /\ (activeDatesOf dailyActivity year = [] ->
        result = {| resultMaxStreak := 0; resultCurrentStreak := 0;
                    resultMaxStreakDays := [] |})
    /\ (activeDatesOf dailyActivity year <> [] ->
        (resultCurrentStreak result = 0
         <-> JsMap.has dailyActivity (formatDateKey tz now) = false
             /\ JsMap.has dailyActivity
                  (formatDateKey tz (now - 24 * 60 * 60 * 1000)) = false)).
Proof.
  intros Hfuel. unfold calculateStreaks. cbv zeta.
  destruct (activeDatesOf dailyActivity year) as [|first rest] eqn:Eall.
  - eexists. split; [reflexivity|]. cbn [resultCurrentStreak].
    split; [lia|]. split; [reflexivity|]. intros N. contradiction N. reflexivity.
  - destruct (JsMap.has dailyActivity (formatDateKey tz now)) eqn:Htoday.
    + destruct (countStreakBackwards_ends tz dailyActivity fuel now Hfuel Htoday)
        as (streak & -> & Hs).
      eexists. split; [reflexivity|]. cbn [resultCurrentStreak].
      split; [lia|]. split; [discriminate|]. intros _.
      split; [lia|]. intros [N _]. discriminate N.
    + destruct (JsMap.has dailyActivity
                  (formatDateKey tz (now - 24 * 60 * 60 * 1000))) eqn:Hyesterday.
      * destruct (countStreakBackwards_ends tz dailyActivity fuel _ Hfuel Hyesterday)
          as (streak & -> & Hs).
        eexists. split; [reflexivity|]. cbn [resultCurrentStreak].
        split; [lia|]. split; [discriminate|]. intros _.
        split; [lia|]. intros [_ N]. discriminate N.
      * eexists. split; [reflexivity|]. cbn [resultCurrentStreak].
        split; [lia|]. split; [discriminate|]. intros _. split; auto.
Qed.

Lemma calculateStreaks_returns_witness :
  exists result,
    calculateStreaks 0 january2025 10 threeYears 2025 = Some result
    /\ 0 <= resultCurrentStreak result <= Z.of_nat (JsMap.size threeYears)
    /\ (activeDatesOf threeYears 2025 = [] ->
        result = {| resultMaxStreak := 0; resultCurrentStreak := 0;
                    resultMaxStreakDays := [] |})
    /\ (activeDatesOf threeYears 2025 <> [] ->
        (resultCurrentStreak result = 0
         <-> JsMap.has threeYears (formatDateKey 0 january2025) = false
             /\ JsMap.has threeYears
                  (formatDateKey 0 (january2025 - 24 * 60 * 60 * 1000)) = false)).
Proof.
  apply (calculateStreaks_returns 0 january2025 10 threeYears 2025).
  vm_compute. reflexivity.
Defined.

End RunFacts.

(** ** Date keys *)

Module DateKeyFacts.
Import Js Dates Stats JsMapFacts DateFacts KeyFacts MostActive.

(** X5: [formatDateKey] names the local calendar day and nothing else: two
    moments get the same key exactly when they fall on the same day of the
    local calendar, in any year and any zone of fixed offset. *)
Theorem formatDateKey_same_day (tz t1 t2 : Z) :
  formatDateKey tz t1 = formatDateKey tz t2
  <-> Day (LocalTime tz t1) = Day (LocalTime tz t2).
Proof.
  rewrite !formatDateKey_keyOfDay. split.
  - apply keyOfDay_inj_all.
  - intros ->. reflexivity.
Qed.

Lemma keyOfDay_length (d : Z) :
  1000 <= YearFromDay d <= 9999 -> String.length (keyOfDay d) = 10%nat.
Proof.
  intros Hy. rewrite keyOfDay_form, (NumberToString_4 _ Hy). reflexivity.
Qed.

(** X6: a key written by [formatDateKey] for a moment of a four-digit year
    has the ten characters YYYY-MM-DD, [new Date(key)] reads it back as
    midnight UTC of the local calendar day, and formatting that moment in
    UTC gives the key again. *)
Theorem formatDateKey_read_back (tz t : Z) :
  1000 <= getFullYear tz t <= 9999 ->
  String.length (formatDateKey tz t) = 10%nat
  /\ DateFromString (formatDateKey tz t) = Some (Day (LocalTime tz t) * msPerDay)
  /\ formatDateKey 0 (Day (LocalTime tz t) * msPerDay) = formatDateKey tz t.
Proof.
  unfold getFullYear. intros Hy. rewrite formatDateKey_keyOfDay.
  split; [apply keyOfDay_length, Hy|]. split; [apply DateFromString_keyOfDay, Hy|].
  reflexivity.
Qed.

Lemma formatDateKey_read_back_witness :
  String.length (formatDateKey (-300) 1704585600000) = 10%nat
  /\ DateFromString (formatDateKey (-300) 1704585600000)
     = Some (Day (LocalTime (-300) 1704585600000) * msPerDay)
  /\ formatDateKey 0 (Day (LocalTime (-300) 1704585600000) * msPerDay)
     = formatDateKey (-300) 1704585600000.
Proof.
  apply (formatDateKey_read_back (-300) 1704585600000).
  vm_compute. split; discriminate.
Defined.

(** *** The order of the keys of different years *)

Lemma digitChar_compare (a b : Z) :
  0 <= a <= 9 -> 0 <= b <= 9 ->
  Ascii.compare (digitChar a) (digitChar b) = (a ?= b).
Proof.
  intros Ha Hb.
  assert (Ca : a = 0 \/ a = 1 \/ a = 2 \/ a = 3 \/ a = 4 \/ a = 5 \/ a = 6
               \/ a = 7 \/ a = 8 \/ a = 9) by lia.
  assert (Cb : b = 0 \/ b = 1 \/ b = 2 \/ b = 3 \/ b = 4 \/ b = 5 \/ b = 6
               \/ b = 7 \/ b = 8 \/ b = 9) by lia.
  repeat (destruct Ca as [->|Ca]);
    repeat (destruct Cb as [->|Cb]); subst; reflexivity.
Qed.

Lemma year4_compare (y1 y2 : Z) (r1 r2 : string) :
  1000 <= y1 <= 9999 -> 1000 <= y2 <= 9999 -> y1 < y2 ->
  String.compare (NumberToString y1 ++ r1) (NumberToString y2 ++ r2) = Lt.
Proof.
  intros H1 H2 Hlt. rewrite (NumberToString_4 _ H1), (NumberToString_4 _ H2).
  cbn [append String.compare].
  rewrite !digitChar_compare by (Z.div_mod_to_equations; lia).
  destruct (Z.compare_spec (y1 / 1000) (y2 / 1000)) as [E1|L1|G1];
    [|reflexivity|exfalso; Z.div_mod_to_equations; lia].
  destruct (Z.compare_spec (y1 / 100 mod 10) (y2 / 100 mod 10)) as [E2|L2|G2];
    [|reflexivity|exfalso; Z.div_mod_to_equations; lia].
  destruct (Z.compare_spec (y1 / 10 mod 10) (y2 / 10 mod 10)) as [E3|L3|G3];
    [|reflexivity|exfalso; Z.div_mod_to_equations; lia].
  destruct (Z.compare_spec (y1 mod 10) (y2 mod 10)) as [E4|L4|G4];
    [|reflexivity|exfalso; Z.div_mod_to_equations; lia].
  exfalso. Z.div_mod_to_equations. lia.
Qed.

Lemma YearFromDay_mono (d1 d2 : Z) : d1 <= d2 -> YearFromDay d1 <= YearFromDay d2.
Proof.
  intros H. pose proof (YearFromDay_spec d1) as S1.
  pose proof (YearFromDay_spec d2) as S2.
  destruct (Z.le_gt_cases (YearFromDay d1) (YearFromDay d2)) as [Hle|Hgt];
    [exact Hle|].
  pose proof (DayFromYear_mono (YearFromDay d2 + 1) (YearFromDay d1) ltac:(lia)). lia.
Qed.

Lemma keyOfDay_lt_years (d1 d2 : Z) :
  1000 <= YearFromDay d1 <= 9999 -> 1000 <= YearFromDay d2 <= 9999 ->
  d1 < d2 -> String.compare (keyOfDay d1) (keyOfDay d2) = Lt.
Proof.
  intros H1 H2 Hlt.
  pose proof (YearFromDay_mono d1 d2 ltac:(lia)) as Hy.
  destruct (Z.eq_dec (YearFromDay d1) (YearFromDay d2)) as [E|N].
  - apply keyOfDay_lt; assumption.
  - rewrite !keyOfDay_form. apply year4_compare; try assumption. lia.
Qed.

(** X7: the keys of four-digit years are ordered, as strings, the way
    their days are ordered in time; so sorting keys with the default
    comparator, as [calculateStreaks] does, sorts the days. *)
Theorem formatDateKey_order (tz t1 t2 : Z) :
  1000 <= getFullYear tz t1 <= 9999 ->
  1000 <= getFullYear tz t2 <= 9999 ->
  String.compare (formatDateKey tz t1) (formatDateKey tz t2)
  = (Day (LocalTime tz t1) ?= Day (LocalTime tz t2))
  /\ (keyOrder (formatDateKey tz t1) (formatDateKey tz t2) <= 0
      <-> Day (LocalTime tz t1) <= Day (LocalTime tz t2)).
Proof.
  unfold getFullYear. intros H1 H2. rewrite !formatDateKey_keyOfDay.
  set (d1 := Day (LocalTime tz t1)) in *. set (d2 := Day (LocalTime tz t2)) in *.
  assert (Hc : String.compare (keyOfDay d1) (keyOfDay d2) = (d1 ?= d2)).
  { destruct (Z.compare_spec d1 d2) as [E|L|G].
    - rewrite E. apply compare_refl.
    - apply keyOfDay_lt_years; assumption.
    - rewrite String.compare_antisym, (keyOfDay_lt_years d2 d1) by assumption.
      reflexivity. }
  split; [exact Hc|].
  unfold keyOrder, String.leb. rewrite Hc.
  destruct (Z.compare_spec d1 d2); split; intros; lia.
Qed.

Lemma formatDateKey_order_witness :
  String.compare (formatDateKey 60 1704585600000) (formatDateKey 60 1735689600000)
  = (Day (LocalTime 60 1704585600000) ?= Day (LocalTime 60 1735689600000))
  /\ (keyOrder (formatDateKey 60 1704585600000) (formatDateKey 60 1735689600000) <= 0
      <-> Day (LocalTime 60 1704585600000) <= Day (LocalTime 60 1735689600000)).
Proof.
  apply (formatDateKey_order 60 1704585600000 1735689600000);
    vm_compute; split; discriminate.
Defined.

End DateKeyFacts.

(** ** The most active day *)

Module MostActiveFacts.
Import Js Dates Stats JsMapFacts DateFacts KeyFacts MostActive.

(** The loop from any state: either nothing beat the count it started
    with, or the winner is the first entry with the greatest count. *)
Lemma greatest_from (dailyActivity : JsMap.t Z) :
  forall (maxDate0 : string) (maxCount0 : Z),
    let '(maxDate, maxCount) :=
      fold_left
        (fun (acc : string * Z) '(date, count) =>
           let '(maxDate, maxCount) := acc in
           if count >? maxCount then (date, count) else (maxDate, maxCount))
        dailyActivity (maxDate0, maxCount0) in
    (maxDate = maxDate0 /\ maxCount = maxCount0
     /\ Forall (fun kv => snd kv <= maxCount0) dailyActivity)
    \/ (maxCount0 < maxCount
        /\ exists before after,
             dailyActivity = (before ++ (maxDate, maxCount) :: after)%list
             /\ Forall (fun kv => snd kv < maxCount) before
             /\ Forall (fun kv => snd kv <= maxCount) after).
Proof.
  induction dailyActivity as [|[date count] rest IH]; intros maxDate0 maxCount0.
  - cbn. left. auto.
  - cbn [fold_left].
    destruct (Z.gtb_spec count maxCount0) as [Hgt|Hle].
    + specialize (IH date count).
      destruct (fold_left _ rest (date, count)) as [maxDate maxCount].
      right. destruct IH as [(-> & -> & Hall)|(Hlt & before & after & -> & Hb & Ha)].
      * split; [exact Hgt|]. exists [], rest. split; [reflexivity|]. split; [constructor|exact Hall].
      * split; [lia|]. exists ((date, count) :: before), after.
        split; [reflexivity|]. split; [|exact Ha].
        constructor; [cbn; lia|exact Hb].
    + specialize (IH maxDate0 maxCount0).
      destruct (fold_left _ rest (maxDate0, maxCount0)) as [maxDate maxCount].
      destruct IH as [(-> & -> & Hall)|(Hlt & before & after & -> & Hb & Ha)].
      * left. split; [reflexivity|]. split; [reflexivity|].
        constructor; [cbn; lia|exact Hall].
      * right. split; [exact Hlt|]. exists ((date, count) :: before), after.
        split; [reflexivity|]. split; [|exact Ha].
        constructor; [cbn; lia|exact Hb].
Qed.

(** X8: [findMostActiveDay] returns the first entry, in the order of the
    map, that holds the greatest count: every entry before it has a smaller
    count, none after it has a greater one, and the count is positive. It
    returns nothing exactly when no entry has a positive count (the keys
    being non-empty, as date keys are). *)
Theorem findMostActiveDay_first_greatest (tz : Z) (dailyActivity : JsMap.t Z) :
  Forall (fun kv => fst kv <> EmptyString) dailyActivity ->
  match findMostActiveDay tz dailyActivity with
  | None => Forall (fun kv => snd kv <= 0) dailyActivity
  | Some day =>
      0 < count day
      /\ exists before after,
           dailyActivity = (before ++ (date day, count day) :: after)%list
           /\ Forall (fun kv => snd kv < count day) before
           /\ Forall (fun kv => snd kv <= count day) after
  end.
Proof.
  intros Hkeys. unfold findMostActiveDay, greatest.
  destruct dailyActivity as [|entry rest] eqn:Em; [constructor|].
  rewrite <- Em in *. replace (JsMap.size dailyActivity =? 0)%nat with false
    by (rewrite Em; reflexivity).
  pose proof (greatest_from dailyActivity EmptyString 0) as H.
  destruct (fold_left _ dailyActivity (EmptyString, 0)) as [maxDate maxCount].
  destruct H as [(-> & -> & Hall)|(Hlt & before & after & E & Hb & Ha)].
  - cbn. exact Hall.
  - assert (Hne : maxDate <> EmptyString).
    { rewrite Forall_forall in Hkeys.
      apply (Hkeys (maxDate, maxCount)). rewrite E. apply in_elt. }
    unfold Models.truthyString.
    destruct (String.eqb_spec maxDate EmptyString) as [Ee|_]; [contradiction|].
    cbn [negb date count]. split; [exact Hlt|]. exists before, after. auto.
Qed.

Lemma findMostActiveDay_first_greatest_witness :
  match findMostActiveDay 0 threeYears with
  | None => Forall (fun kv => snd kv <= 0) threeYears
  | Some day =>
      0 < count day
      /\ exists before after,
           threeYears = (before ++ (date day, count day) :: after)%list
           /\ Forall (fun kv => snd kv < count day) before
           /\ Forall (fun kv => snd kv <= count day) after
  end.
Proof.
  apply (findMostActiveDay_first_greatest 0 threeYears).
  unfold threeYears. repeat constructor; discriminate.
Defined.

(** *** The label of the day *)

(** No dash among digits. *)
Lemma splitOn_digits (s : string) :
  allDigits s -> splitOn "-" s = [s].
Proof.
  induction s as [|c s IH]; intros H; [reflexivity|].
  cbn [allDigits] in H. destruct H as [(k & Hk & ->) Hs].
  cbn [splitOn]. rewrite (IH Hs).
  destruct (Ascii.eqb_spec (digitChar k) "-") as [E|_]; [|reflexivity].
  exfalso. apply (digitChar_not_dash k Hk E).
Qed.

Lemma splitOn_append (s rest : string) :
  allDigits s -> splitOn "-" (s ++ String "-" rest) = s :: splitOn "-" rest.
Proof.
  induction s as [|c s IH]; intros H; [reflexivity|].
  cbn [allDigits] in H. destruct H as [(k & Hk & ->) Hs].
  cbn [append splitOn]. rewrite (IH Hs).
  destruct (Ascii.eqb_spec (digitChar k) "-") as [E|_]; [|reflexivity].
  exfalso. apply (digitChar_not_dash k Hk E).
Qed.

Lemma NumberToString_digits (n : Z) : 0 <= n -> allDigits (NumberToString n).
Proof.
  intros Hn. unfold NumberToString.
  replace (n <? 0) with false by (symmetry; apply Z.ltb_ge; exact Hn).
  apply decimalDigits_digits. exact I.
Qed.

Lemma NumberOf_two_digits (k : Z) :
  0 <= k <= 99 ->
  NumberOf (String (digitChar (k / 10)) (String (digitChar (k mod 10)) EmptyString))
  = Some k.
Proof.
  intros Hk. unfold NumberOf. cbn [digitsValue].
  rewrite !digitValue_digitChar by (Z.div_mod_to_equations; lia).
  f_equal. Z.div_mod_to_equations. lia.
Qed.

Lemma two_digits (a b : Z) :
  0 <= a <= 9 -> 0 <= b <= 9 ->
  allDigits (String (digitChar a) (String (digitChar b) EmptyString)).
Proof. intros Ha Hb. cbn [allDigits]. eauto 10. Qed.

(** The day of a year no later than 200000 is within the range of dates. *)
Lemma day_in_range (d : Z) :
  100 <= YearFromDay d <= 200000 -> -100000000 < d < 99000000.
Proof.
  intros Hy. pose proof (YearFromDay_spec d) as S.
  pose proof (DayFromYear_mono 100 (YearFromDay d) ltac:(lia)) as Hlo.
  pose proof (DayFromYear_mono (YearFromDay d + 1) 200001 ltac:(lia)) as Hhi.
  assert (E0 : DayFromYear 100 = -683003) by reflexivity.
  assert (E1 : DayFromYear 200001 = 72329338) by reflexivity.
  lia.
Qed.

Lemma formattedDateOf_keyOfDay (tz d : Z) :
  100 <= YearFromDay d <= 200000 -> -1440 <= tz <= 1440 ->
  formattedDateOf tz (keyOfDay d)
  = Some (nth (Z.to_nat (MonthFromDay d)) monthNames "undefined"
          ++ " " ++ NumberToString (DateFromDay d)).
Proof.
  intros Hy Htz. pose proof (day_fields_bound d) as (Hm & Hd & Hdm).
  unfold formattedDateOf. rewrite keyOfDay_form.
  rewrite splitOn_append by (apply NumberToString_digits; lia).
  change (String (digitChar ((MonthFromDay d + 1) / 10))
            (String (digitChar ((MonthFromDay d + 1) mod 10))
               (String "-"
                  (String (digitChar (DateFromDay d / 10))
                     (String (digitChar (DateFromDay d mod 10)) EmptyString)))))
    with (String (digitChar ((MonthFromDay d + 1) / 10))
            (String (digitChar ((MonthFromDay d + 1) mod 10)) EmptyString)
          ++ String "-"
               (String (digitChar (DateFromDay d / 10))
                  (String (digitChar (DateFromDay d mod 10)) EmptyString))).
  rewrite splitOn_append by (apply two_digits; Z.div_mod_to_equations; lia).
  rewrite splitOn_digits by (apply two_digits; Z.div_mod_to_equations; lia).
  cbn [map].
  rewrite NumberOf_NumberToString by lia.
  rewrite !NumberOf_two_digits by lia.
  f_equal. unfold DateOf, fullYear, MakeDayOf.
  replace ((0 <=? YearFromDay d) && (YearFromDay d <=? 99)) with false
    by (symmetry; apply andb_false_iff; right; apply Z.leb_gt; lia).
  replace (MonthFromDay d + 1 - 1) with (MonthFromDay d) by lia.
  rewrite Z.div_small, Z.mod_small, Z.add_0_r by lia.
  rewrite MakeDay_of_day.
  pose proof (day_in_range d Hy) as Hr.
  unfold TimeClip, maxTime, msPerDay.
  replace (Z.abs (d * 86400000 - tz * 60000) <=? 8640000000000000) with true
    by (symmetry; apply Z.leb_le; lia).
  unfold monthAndDate, getMonth, getDate, LocalTime.
  replace (d * 86400000 - tz * 60000 + tz * 60000) with (d * msPerDay)
    by (unfold msPerDay; lia).
  rewrite Day_of_day. reflexivity.
Qed.

(** X9: the label of the most active day is the local calendar date its
    key was written for, in whatever zone: when the winning key is the key
    [formatDateKey] gives a moment [t], the label is the short name of the
    month of [t] and the day of the month of [t], both read on the local
    calendar. *)
Theorem findMostActiveDay_label (tz t : Z) (dailyActivity : JsMap.t Z)
    (day : MostActiveDay) :
  100 <= getFullYear tz t <= 200000 -> -1440 <= tz <= 1440 ->
  findMostActiveDay tz dailyActivity = Some day ->
  date day = formatDateKey tz t ->
  formattedDate day
  = Some (nth (Z.to_nat (getMonth tz t)) monthNames "undefined"
          ++ " " ++ NumberToString (getDate tz t)).
Proof.
  unfold getFullYear. intros Hy Htz Hfind Hkey.
  unfold findMostActiveDay in Hfind.
  destruct (JsMap.size dailyActivity =? 0)%nat; [discriminate|].
  destruct (greatest dailyActivity) as [maxDate maxCount].
  destruct (negb (Models.truthyString maxDate)); [discriminate|].
  injection Hfind as <-. cbn [formattedDate date] in *. subst maxDate.
  rewrite formatDateKey_keyOfDay. apply formattedDateOf_keyOfDay; assumption.
Qed.

Lemma findMostActiveDay_label_witness :
  formattedDate
    {| date := "2023-03-03"; count := 4; formattedDate := Some "Mar 3" |}
  = Some (nth (Z.to_nat (getMonth (-480) 1677884400000)) monthNames "undefined"
          ++ " " ++ NumberToString (getDate (-480) 1677884400000)).
Proof.
  apply (findMostActiveDay_label (-480) 1677884400000 threeYears).
  - vm_compute. split; discriminate.
  - lia.
  - vm_compute. reflexivity.
  - vm_compute. reflexivity.
Defined.

End MostActiveFacts.

(** ** What reaches the terminal *)

Module StreamFacts.
Import Js Terminal TerminalFacts DisplayFacts.

(** The loop on any stream: it returns after writing every frame from [i]
    on, or it throws after writing some of them, the first ones, in order. *)
Lemma kittyLoop_prefix accepts (b : string) (i : nat) :
  forall out,
    match kittyLoop accepts b i out with
    | Returned _ out' => out' = (out ++ map frameText (kittyFrames b i))%list
    | Thrown out' =>
        exists written rest,
          out' = (out ++ written)%list
          /\ map frameText (kittyFrames b i) = (written ++ rest)%list
          /\ rest <> []
    end.
Proof.
  funelim (kittyFrames b i); intros out.
  - rewrite kittyLoop_lt by assumption. unfold bind.
    unfold stdout_write at 1.
    set (frame := {| isFirst := (i =? 0)%nat;
                     moreData := negb (String.length base64Data <=? i + chunkSize)%nat;
                     chunk := slice base64Data i (i + chunkSize) |}).
    destruct (accepts out (frameText frame)).
    + specialize (H accepts (out ++ [frameText frame])%list).
      destruct (kittyLoop accepts base64Data (i + chunkSize)
                  (out ++ [frameText frame])%list) as [u out'|out'].
      * rewrite H, <- app_assoc. reflexivity.
      * destruct H as (written & rest & -> & E & Hrest).
        exists (frameText frame :: written), rest.
        rewrite <- app_assoc. cbn [map app]. rewrite E. auto.
    + exists [], (map frameText (frame :: kittyFrames base64Data (i + chunkSize))).
      rewrite app_nil_r. split; [reflexivity|]. split; [reflexivity|discriminate].
  - rewrite kittyLoop_ge by lia. cbn. rewrite app_nil_r. reflexivity.
Qed.

(** X10: on any stream and with any encoder, the chunked protocol writes
    its frames in order and stops at the first failure: when it returns, the
    stream has received every frame and then the newline; when it throws,
    the stream has received a proper prefix of that sequence and nothing
    else. What was there before stays. *)
Theorem displayKittyProtocol_prefix
    (encodes : Buffer -> bool) (accepts : list string -> string -> bool)
    (pngBuffer : Buffer) (out : list string) :
  let complete :=
    (map frameText (kittyFrames (toBase64 pngBuffer) 0) ++ [LF])%list in
  match displayKittyProtocol encodes accepts pngBuffer out with
  | Returned _ out' => out' = (out ++ complete)%list
  | Thrown out' =>
      exists written rest,
        out' = (out ++ written)%list
        /\ complete = (written ++ rest)%list
        /\ rest <> []
  end.
Proof.
  cbv zeta. unfold displayKittyProtocol, toStringBase64.
  destruct (encodes pngBuffer).
  - unfold bind at 1. unfold ret at 1. unfold bind.
    pose proof (kittyLoop_prefix accepts (toBase64 pngBuffer) 0 out) as H.
    destruct (kittyLoop accepts (toBase64 pngBuffer) 0 out) as [u out'|out'].
    + subst out'. unfold stdout_write.
      destruct (accepts _ LF).
      * rewrite <- app_assoc. reflexivity.
      * exists (map frameText (kittyFrames (toBase64 pngBuffer) 0)), [LF].
        split; [reflexivity|]. split; [reflexivity|discriminate].
    + destruct H as (written & rest & -> & E & Hrest).
      exists written, (rest ++ [LF])%list.
      split; [reflexivity|]. split; [rewrite E, app_assoc; reflexivity|].
      destruct rest; [contradiction Hrest; reflexivity|discriminate].
  - unfold bind, throw.
    exists [], (map frameText (kittyFrames (toBase64 pngBuffer) 0) ++ [LF])%list.
    rewrite app_nil_r. split; [reflexivity|]. split; [reflexivity|].
    destruct (map frameText _); discriminate.
Qed.

Lemma displayITerm2Protocol_reliable (pngBuffer : Buffer) :
  displayITerm2Protocol anyBuffer reliable pngBuffer []
  = Returned tt
      [ESC ++ "]1337;File=name=Y29kZXgtd3JhcHBlZC1ub3lybGltaXQucG5n;size="
         ++ NumberToString (Z.of_nat (List.length pngBuffer))
         ++ ";inline=1:" ++ toBase64 pngBuffer ++ BEL ++ LF].
Proof. reflexivity. Qed.

(** X11: when nothing fails, [displayInTerminal] shows the image exactly
    when a terminal family was detected: the result is true for every type
    but standard, for which it is false and nothing is written. A terminal
    with the chunked protocol gets the chunked frames, also when it supports
    the single-frame protocol as well; any other detected terminal gets the
    one string of the single-frame protocol, which declares the payload's
    size in bytes. *)
Theorem displayInTerminal_by_family (env : Env) (pngBuffer : Buffer) :
  exists shown out,
    displayInTerminal anyBuffer reliable env pngBuffer [] = Returned shown out
    /\ (shown = true <-> type (detectTerminal env) <> standard)
    /\ (shown = false -> out = [])
    /\ (supportsKittyProtocol (detectTerminal env) = true ->
        out = (map frameText (kittyFrames (toBase64 pngBuffer) 0) ++ [LF])%list)
    /\ (supportsKittyProtocol (detectTerminal env) = false -> shown = true ->
        out = [ESC ++ "]1337;File=name=Y29kZXgtd3JhcHBlZC1ub3lybGltaXQucG5n;size="
                 ++ NumberToString (Z.of_nat (List.length pngBuffer))
                 ++ ";inline=1:" ++ toBase64 pngBuffer ++ BEL ++ LF]).
Proof.
  unfold displayInTerminal. rewrite detectTerminal_signals.
  unfold detectBySignals.
  pose proof (displayKittyProtocol_reliable pngBuffer) as Hk.
  unfold emitsFrames in Hk.
  pose proof (displayITerm2Protocol_reliable pngBuffer) as Hi.
  assert (Hkitty : forall t,
             supportsKittyProtocol t = true ->
             displayOn anyBuffer reliable t pngBuffer []
             = Returned true
                 (map frameText (kittyFrames (toBase64 pngBuffer) 0) ++ [LF])%list).
  { intros t Ht. unfold displayOn, tryCatch. rewrite Ht. unfold bind.
    rewrite Hk. reflexivity. }
  assert (Hiterm : forall t,
             supportsKittyProtocol t = false -> supportsITerm2Protocol t = true ->
             displayOn anyBuffer reliable t pngBuffer []
             = Returned true
                 [ESC ++ "]1337;File=name=Y29kZXgtd3JhcHBlZC1ub3lybGltaXQucG5n;size="
                    ++ NumberToString (Z.of_nat (List.length pngBuffer))
                    ++ ";inline=1:" ++ toBase64 pngBuffer ++ BEL ++ LF]).
  { intros t Ht1 Ht2. unfold displayOn, tryCatch. rewrite Ht1, Ht2. unfold bind.
    rewrite Hi. reflexivity. }
  destruct (firstSignal env) as [[p family]|]; [destruct family|].
  1,2,4,5,7:
    eexists; eexists; split; [apply Hkitty; reflexivity|];
    cbn [familyInfo type supportsKittyProtocol familyProtocols fst snd];
    (split; [split; [discriminate|reflexivity]|]);
    (split; [discriminate|]); split; [reflexivity|discriminate].
  1,2:
    eexists; eexists; split; [apply Hiterm; reflexivity|];
    cbn [familyInfo type supportsKittyProtocol familyProtocols fst snd];
    (split; [split; [discriminate|reflexivity]|]);
    (split; [discriminate|]); split; [discriminate|reflexivity].
  1,2:
    exists false, []; split; [reflexivity|];
    cbn [familyInfo type supportsKittyProtocol familyProtocols fst snd];
    (split; [split; [discriminate|intros N; contradiction N; reflexivity]|]);
    (split; [reflexivity|]); split; discriminate.
Qed.

(** *** Frames by the size of the payload *)

Lemma toBase64_length_bound (n : nat) :
  forall buf : Buffer,
    (List.length buf <= n)%nat ->
    String.length (toBase64 buf) = (4 * ceilDiv (List.length buf) 3)%nat.
Proof.
  induction n as [|n IH]; intros buf Hn.
  - destruct buf; [reflexivity|cbn in Hn; lia].
  - destruct buf as [|a [|b [|c rest]]]; try reflexivity.
    cbn [toBase64 String.length List.length].
    rewrite (IH rest) by (cbn in Hn; lia).
    rewrite (ceilDiv_step (S (S (S (List.length rest)))) 3) by lia.
    replace (S (S (S (List.length rest))) - 3)%nat with (List.length rest) by lia.
    lia.
Qed.

Lemma toBase64_length (buf : Buffer) :
  String.length (toBase64 buf) = (4 * ceilDiv (List.length buf) 3)%nat.
Proof. apply (toBase64_length_bound (List.length buf)). lia. Qed.

Lemma length_substring (s : string) (n m : nat) :
  String.length (substring n m s) = Nat.min m (String.length s - n).
Proof.
  revert n m. induction s as [|c s IH]; intros [|n] [|m]; cbn; try reflexivity.
  - rewrite (IH 0%nat m). rewrite Nat.sub_0_r. reflexivity.
  - rewrite (IH n 0%nat). reflexivity.
  - apply (IH n (S m)).
Qed.

(** The lengths of the chunks, when the text is made of groups of four
    characters and the loop stands at a multiple of four. *)
Lemma kittyFrames_chunk_lengths (b : string) (i : nat) :
  (String.length b mod 4 = 0)%nat -> (i mod 4 = 0)%nat ->
  Forall (fun f => (String.length (chunk f) mod 4 = 0)%nat
                   /\ (0 < String.length (chunk f))%nat) (kittyFrames b i)
  /\ (forall f, In f (removelast (kittyFrames b i)) ->
                String.length (chunk f) = chunkSize).
Proof.
  funelim (kittyFrames b i); intros Hb Hi.
  - assert (Hi' : ((i + chunkSize) mod 4 = 0)%nat).
    { unfold chunkSize. replace (i + 4096)%nat with (i + 1024 * 4)%nat by lia.
      rewrite Nat.Div0.mod_add. exact Hi. }
    destruct (H Hb Hi') as [Hall Hinit].
    assert (Hlen : String.length (slice base64Data i (i + chunkSize))
                   = Nat.min chunkSize (String.length base64Data - i)).
    { unfold slice. rewrite length_substring. f_equal. lia. }
    split.
    + constructor; [|exact Hall]. cbn [chunk]. rewrite Hlen.
      destruct (le_lt_dec chunkSize (String.length base64Data - i)) as [Hle|Hgt].
      * rewrite Nat.min_l by exact Hle. unfold chunkSize. split; [reflexivity|lia].
      * rewrite Nat.min_r by lia. split; [|lia].
        pose proof (Nat.div_mod_eq (String.length base64Data) 4) as E1.
        pose proof (Nat.div_mod_eq i 4) as E2.
        rewrite Hb in E1. rewrite Hi in E2.
        replace (String.length base64Data - i)%nat
          with ((String.length base64Data / 4 - i / 4) * 4)%nat by lia.
        apply Nat.Div0.mod_mul.
    + destruct (le_lt_dec (String.length base64Data) (i + chunkSize)) as [Hle|Hgt].
      * rewrite (kittyFrames_nil base64Data (i + chunkSize) Hle).
        cbn [removelast]. contradiction.
      * rewrite (kittyFrames_cons base64Data (i + chunkSize) Hgt) in Hinit |- *.
        cbn [removelast]. intros f [<-|Hin].
        -- cbn [chunk]. rewrite Hlen. apply Nat.min_l. lia.
        -- apply Hinit, Hin.
  - split; [constructor|contradiction].
Qed.

(** X12: the number of frames follows from the number of bytes: the base64
    text of [n] bytes has 4 * ceil(n / 3) characters, so the payload goes in
    ceil(4 * ceil(n / 3) / 4096) frames, one frame for 1 to 3072 bytes. Every
    frame but the last carries exactly 4096 characters, and every chunk is
    a non-empty whole number of four-character base64 groups. *)
Theorem kitty_frames_by_bytes (pngBuffer : Buffer) :
  exists fs : list KittyFrame,
    emitsFrames pngBuffer fs
    /\ String.length (toBase64 pngBuffer)
       = (4 * ceilDiv (List.length pngBuffer) 3)%nat
    /\ List.length fs = ceilDiv (4 * ceilDiv (List.length pngBuffer) 3) 4096
    /\ (forall f, In f (removelast fs) -> String.length (chunk f) = 4096%nat)
    /\ Forall (fun f => (String.length (chunk f) mod 4 = 0)%nat
                        /\ (0 < String.length (chunk f))%nat) fs
    /\ ((0 < List.length pngBuffer <= 3072)%nat -> List.length fs = 1%nat).
Proof.
  exists (kittyFrames (toBase64 pngBuffer) 0).
  pose proof (toBase64_length pngBuffer) as Hlen.
  assert (Hmod : (String.length (toBase64 pngBuffer) mod 4 = 0)%nat).
  { rewrite Hlen, Nat.mul_comm. apply Nat.Div0.mod_mul. }
  destruct (kittyFrames_chunk_lengths (toBase64 pngBuffer) 0 Hmod eq_refl)
    as [Hall Hinit].
  split; [apply displayKittyProtocol_reliable|].
  split; [exact Hlen|].
  split; [rewrite kittyFrames_length, Nat.sub_0_r, Hlen; reflexivity|].
  split; [exact Hinit|]. split; [exact Hall|].
  intros [Hpos Hle]. rewrite kittyFrames_length, Nat.sub_0_r, Hlen.
  unfold chunkSize.
  assert (H3 : (1 <= ceilDiv (List.length pngBuffer) 3 <= 1024)%nat).
  { destruct (ceilDiv_least (List.length pngBuffer) 3 ltac:(lia)) as [H1 H2].
    specialize (H2 1024%nat ltac:(lia)). lia. }
  destruct (ceilDiv_least (4 * ceilDiv (List.length pngBuffer) 3) 4096 ltac:(lia))
    as [H1 H2].
  specialize (H2 1%nat ltac:(lia)). lia.
Qed.

End StreamFacts.

(** ** Dates of the heatmap *)

Module HeatmapFacts.
Import Js Dates Stats DateFacts KeyFacts MostActive Heatmap.

(** *** Intensity levels *)

(** The quotient against a fraction, as a comparison of integers. *)
Lemma ratio_le (count maxCount : Z) (p : Z) (q : positive) :
  0 < maxCount ->
  Qle_bool (inject_Z count / inject_Z maxCount) (p # q)
  = (count * Zpos q <=? p * maxCount).
Proof.
  intros Hm. destruct maxCount as [|m|m]; try lia.
  unfold Qle_bool, Qdiv, Qmult, Qinv, inject_Z. cbn [Qnum Qden].
  f_equal; lia.
Qed.

Lemma getIntensityLevel_cases (count maxCount : Z) :
  0 < maxCount -> count <> 0 ->
  getIntensityLevel count maxCount
  = if 10 * count <=? maxCount then 1
    else if 4 * count <=? maxCount then 2
    else if 5 * count <=? 2 * maxCount then 3
    else if 5 * count <=? 3 * maxCount then 4
    else if 5 * count <=? 4 * maxCount then 5
    else 6.
Proof.
  intros Hm Hc. unfold getIntensityLevel.
  destruct (Z.eqb_spec count 0) as [E|_]; [contradiction|].
  destruct (Z.eqb_spec maxCount 0) as [E|_]; [lia|].
  cbv zeta. rewrite !ratio_le by exact Hm.
  replace (count * 10 <=? 1 * maxCount) with (10 * count <=? maxCount)
    by (f_equal; lia).
  replace (count * 4 <=? 1 * maxCount) with (4 * count <=? maxCount)
    by (f_equal; lia).
  replace (count * 5 <=? 2 * maxCount) with (5 * count <=? 2 * maxCount)
    by (f_equal; lia).
  replace (count * 5 <=? 3 * maxCount) with (5 * count <=? 3 * maxCount)
    by (f_equal; lia).
  replace (count * 5 <=? 4 * maxCount) with (5 * count <=? 4 * maxCount)
    by (f_equal; lia).
  reflexivity.
Qed.

Lemma getIntensityLevel_zero (maxCount : Z) : getIntensityLevel 0 maxCount = 0.
Proof. reflexivity. Qed.

(** X13: the intensity level of a day grows with its count and shrinks as
    the greatest count grows: for counts from 0 up and a positive greatest
    count, the level lies between 0 and 6, it is 0 exactly for the count 0,
    a greater count never has a lower level, a greater maximum never gives
    a higher level, and a count above four fifths of the maximum, the
    maximum itself included, has level 6. *)
Theorem getIntensityLevel_monotone (count count' maxCount maxCount' : Z) :
  0 <= count <= count' -> 0 < maxCount <= maxCount' ->
  0 <= getIntensityLevel count maxCount <= 6
  /\ (getIntensityLevel count maxCount = 0 <-> count = 0)
  /\ getIntensityLevel count maxCount <= getIntensityLevel count' maxCount
  /\ getIntensityLevel count maxCount' <= getIntensityLevel count maxCount
  /\ (4 * maxCount < 5 * count -> getIntensityLevel count maxCount = 6).
Proof.
  intros Hc Hm.
  destruct (Z.eq_dec count 0) as [->|Hne].
  - rewrite !getIntensityLevel_zero.
    destruct (Z.eq_dec count' 0) as [->|Hne'].
    + rewrite getIntensityLevel_zero. repeat split; lia.
    + rewrite (getIntensityLevel_cases count' maxCount) by lia.
      repeat match goal with
             | |- context [if ?a <=? ?b then _ else _] => destruct (Z.leb_spec a b)
             end; repeat split; lia.
  - rewrite (getIntensityLevel_cases count maxCount),
      (getIntensityLevel_cases count' maxCount),
      (getIntensityLevel_cases count maxCount') by lia.
    repeat match goal with
           | |- context [if ?a <=? ?b then _ else _] => destruct (Z.leb_spec a b)
           end; repeat split; lia.
Qed.

Lemma getIntensityLevel_monotone_witness :
  0 <= getIntensityLevel 3 10 <= 6
  /\ (getIntensityLevel 3 10 = 0 <-> 3 = 0)
  /\ getIntensityLevel 3 10 <= getIntensityLevel 7 10
  /\ getIntensityLevel 3 20 <= getIntensityLevel 3 10
  /\ (4 * 10 < 5 * 3 -> getIntensityLevel 3 10 = 6).
Proof. apply (getIntensityLevel_monotone 3 7 10 20); lia. Defined.

End HeatmapFacts.

(** *** The weeks of a year *)

Module WeeksFacts.
Import Js Dates Stats DateFacts StreakFacts KeyFacts MostActive Heatmap.

Lemma keyOfDay_not_empty (d : Z) :
  negb (String.eqb (keyOfDay d) EmptyString) = true.
Proof.
  rewrite keyOfDay_form.
  destruct (NumberToString (YearFromDay d)); reflexivity.
Qed.

Lemma keysFrom_snoc (first : Z) (n : nat) :
  keysFrom first (S n) = (keysFrom first n ++ [keyOfDay (first + Z.of_nat n)])%list.
Proof. unfold keysFrom. rewrite seq_S, map_app. reflexivity. Qed.

Lemma WeekDay_range (d : Z) : 0 <= WeekDay d <= 6.
Proof. unfold WeekDay. pose proof (Z.mod_pos_bound (d + 4) 7 ltac:(lia)). lia. Qed.

Lemma WeekDay_succ (d : Z) :
  WeekDay (d + 1) = if WeekDay d =? 6 then 0 else WeekDay d + 1.
Proof.
  unfold WeekDay. destruct (Z.eqb_spec ((d + 4) mod 7) 6);
    Z.div_mod_to_equations; lia.
Qed.

Lemma WeekDay_sub (d : Z) : WeekDay (d - WeekDay d) = 0.
Proof. unfold WeekDay. Z.div_mod_to_equations. lia. Qed.

Lemma YearFromDay_iff (d year : Z) :
  YearFromDay d = year
  <-> DayFromYear year <= d < DayFromYear year + DaysInYear year.
Proof.
  rewrite <- DayFromYear_succ. split.
  - intros <-. apply YearFromDay_spec.
  - apply YearFromDay_unique.
Qed.

Lemma MakeDay_december_31 (year : Z) :
  MakeDay year 11 31 = DayFromYear year + DaysInYear year - 1.
Proof.
  unfold MakeDay.
  destruct (DaysInYear_cases year) as [[-> ->]|[-> ->]]; cbn; lia.
Qed.

Lemma MakeDay_january_1 (year : Z) : MakeDay year 0 1 = DayFromYear year.
Proof. unfold MakeDay. cbn. lia. Qed.

Lemma pushWeek_dates (weeks : list (list string)) (week : list string) :
  filter (fun d => negb (String.eqb d EmptyString)) (List.concat (pushWeek weeks week))
  = filter (fun d => negb (String.eqb d EmptyString)) (List.concat weeks ++ week)%list.
Proof.
  unfold pushWeek.
  destruct ((0 <? List.length week)%nat && hasDate week) eqn:E.
  - rewrite concat_app. cbn [List.concat]. rewrite app_nil_r. reflexivity.
  - rewrite filter_app.
    assert (Hnone : filter (fun d => negb (String.eqb d EmptyString)) week = []).
    { apply andb_false_iff in E. destruct E as [E|E].
      - apply Nat.ltb_ge in E. destruct week; [reflexivity|cbn in E; lia].
      - unfold hasDate in E. clear -E. induction week as [|x week IH]; [reflexivity|].
        cbn in E |- *. apply orb_false_iff in E. destruct E as [-> E].
        apply IH, E. }
    rewrite Hnone, app_nil_r. reflexivity.
Qed.

Lemma pushWeek_kept (weeks : list (list string)) (week : list string) :
  Forall keptWeek weeks -> (List.length week <= 7)%nat ->
  Forall keptWeek (pushWeek weeks week).
Proof.
  intros Hall Hlen. unfold pushWeek.
  destruct ((0 <? List.length week)%nat && hasDate week) eqn:E; [|exact Hall].
  apply andb_true_iff in E. destruct E as [E1 E2]. apply Nat.ltb_lt in E1.
  apply Forall_app. split; [exact Hall|]. constructor; [|constructor].
  split; [lia|exact E2].
Qed.

Lemma pushWeek_no_padding (weeks : list (list string)) (week : list string) :
  Forall (fun d => d <> EmptyString) (List.concat weeks ++ week)%list ->
  Forall (fun d => d <> EmptyString) (List.concat (pushWeek weeks week)).
Proof.
  intros H. unfold pushWeek.
  destruct ((0 <? List.length week)%nat && hasDate week).
  - rewrite concat_app. cbn [List.concat]. rewrite app_nil_r. exact H.
  - apply Forall_app in H. apply H.
Qed.

Section Weeks.

Variable tz : Z.
Variable now : Z.
Variable year : Z.
Hypothesis Htz : -1440 <= tz <= 1440.
Hypothesis Hyear : 1000 <= year <= 9999.

(** The first day of the year and the last day listed. *)
Lemma listed_in_year :
  DayFromYear year <= lastListed tz now year
  < DayFromYear year + DaysInYear year.
Proof.
  unfold lastListed. destruct (Z.eqb_spec year (getFullYear tz now)) as [E|N].
  - unfold getFullYear in E. symmetry in E. apply YearFromDay_iff in E. exact E.
  - rewrite MakeDay_december_31.
    destruct (DaysInYear_cases year) as [[_ ->]|[_ ->]]; lia.
Qed.

Lemma year_days_bound : -354285 <= DayFromYear year <= 2932532.
Proof.
  pose proof (DayFromYear_mono 1000 year ltac:(lia)) as H1.
  pose proof (DayFromYear_mono year 9999 ltac:(lia)) as H2.
  assert (E1 : DayFromYear 1000 = -354285) by reflexivity.
  assert (E2 : DayFromYear 9999 = 2932532) by reflexivity.
  lia.
Qed.

Lemma midnight_valid (d : Z) :
  -400000 <= d <= 3000000 -> TimeClip (midnight tz d) = Some (midnight tz d).
Proof.
  intros Hd. unfold TimeClip, midnight, maxTime, msPerDay.
  replace (Z.abs (d * 86400000 - tz * 60000) <=? 8640000000000000) with true;
    [reflexivity|]. symmetry. apply Z.leb_le. lia.
Qed.

Lemma Day_midnight (d : Z) : Day (LocalTime tz (midnight tz d)) = d.
Proof.
  unfold LocalTime, midnight.
  replace (d * msPerDay - tz * 60000 + tz * 60000) with (d * msPerDay) by lia.
  apply Day_of_day.
Qed.

Lemma setDate_midnight (d k : Z) :
  -400000 <= d + k <= 3000000 ->
  setDate tz (Some (midnight tz d)) (Some (DateFromDay d + k))
  = Some (midnight tz (d + k)).
Proof.
  intros Hd. unfold setDate. cbv zeta. rewrite Day_midnight.
  pose proof (day_fields_bound d) as (Hm & _).
  unfold MakeDayOf. rewrite Z.div_small, Z.mod_small, Z.add_0_r by lia.
  assert (E : MakeDay (YearFromDay d) (MonthFromDay d) (DateFromDay d + k) = d + k).
  { pose proof (MakeDay_of_day d) as H. unfold MakeDay in *. lia. }
  rewrite E.
  assert (E2 : TimeWithinDay (LocalTime tz (midnight tz d)) = 0).
  { unfold TimeWithinDay, LocalTime, midnight.
    replace (d * msPerDay - tz * 60000 + tz * 60000) with (d * msPerDay) by lia.
    apply Z.mod_mul. unfold msPerDay. lia. }
  rewrite E2, Z.add_0_r. fold (midnight tz (d + k)). apply midnight_valid, Hd.
Qed.

Lemma dateLe_end (d : Z) :
  dateLe (Some (midnight tz d)) (endDateOf tz now year) = (d <=? lastListed tz now year).
Proof.
  unfold endDateOf, lastListed.
  destruct (year =? getFullYear tz now).
  - cbn [dateLe]. unfold midnight, Day, LocalTime, msPerDay.
    destruct (Z.leb_spec (d * 86400000 - tz * 60000) now);
      destruct (Z.leb_spec d ((now + tz * 60000) / 86400000)); try reflexivity;
      exfalso; Z.div_mod_to_equations; lia.
  - unfold DateOf, fullYear, MakeDayOf.
    replace ((0 <=? year) && (year <=? 99)) with false
      by (symmetry; apply andb_false_iff; right; apply Z.leb_gt; lia).
    change (11 / 12) with 0. change (11 mod 12) with 11. rewrite Z.add_0_r.
    fold (midnight tz (MakeDay year 11 31)).
    pose proof year_days_bound as Hb.
    rewrite midnight_valid.
    + cbn [dateLe]. unfold midnight, msPerDay.
      destruct (Z.leb_spec (d * 86400000 - tz * 60000)
                  (MakeDay year 11 31 * 86400000 - tz * 60000));
        destruct (Z.leb_spec d (MakeDay year 11 31)); try reflexivity; lia.
    + rewrite MakeDay_december_31.
      destruct (DaysInYear_cases year) as [[_ ->]|[_ ->]]; lia.
Qed.

(** One turn of the loop, on the day the current date stands at. *)
Lemma weeksLoop_step (fuel : nat) (d : Z) (currentWeek : list string)
    (weeks : list (list string)) :
  -399999 <= d <= 2999999 ->
  weeksLoop tz (S fuel) year (endDateOf tz now year) (Some (midnight tz d)) currentWeek weeks
  = if (d <=? lastListed tz now year) || (0 <? List.length currentWeek)%nat then
      let currentWeek1 :=
        if (YearFromDay d =? year) && (d <=? lastListed tz now year)
        then (currentWeek ++ [keyOfDay d])%list
        else if YearFromDay d =? year then (currentWeek ++ [EmptyString])%list
        else currentWeek in
      let weeks1 := if WeekDay d =? 6 then pushWeek weeks currentWeek1 else weeks in
      let currentWeek2 := if WeekDay d =? 6 then [] else currentWeek1 in
      if YearFromDay (d + 1) >? year + 1 then Some (weeks1, currentWeek2)
      else weeksLoop tz fuel year (endDateOf tz now year) (Some (midnight tz (d + 1)))
             currentWeek2 weeks1
    else Some (weeks, currentWeek).
Proof.
  intros Hd. cbn [weeksLoop]. rewrite dateLe_end.
  destruct ((d <=? lastListed tz now year) || (0 <? List.length currentWeek)%nat);
    [|reflexivity].
  cbv zeta. cbn [option_map].
  unfold getFullYear, getDay, getDate.
  rewrite formatDateKey_keyOfDay, !Day_midnight.
  rewrite (setDate_midnight d 1) by lia.
  rewrite Day_midnight. reflexivity.
Qed.

Lemma weeksLoop_stop (fuel : nat) (d : Z) (currentWeek : list string)
    (weeks : list (list string)) :
  ((d <=? lastListed tz now year) || (0 <? List.length currentWeek)%nat) = false ->
  weeksLoop tz (S fuel) year (endDateOf tz now year) (Some (midnight tz d)) currentWeek weeks
  = Some (weeks, currentWeek).
Proof. intros H. cbn [weeksLoop]. rewrite dateLe_end, H. reflexivity. Qed.

Lemma weeksOk_step (d : Z) (currentWeek : list string) (weeks : list (list string)) :
  weeksOk tz now year d currentWeek weeks ->
  ((d <=? lastListed tz now year) || (0 <? List.length currentWeek)%nat) = true ->
  let currentWeek1 :=
    if (YearFromDay d =? year) && (d <=? lastListed tz now year)
    then (currentWeek ++ [keyOfDay d])%list
    else if YearFromDay d =? year then (currentWeek ++ [EmptyString])%list
    else currentWeek in
  let weeks1 := if WeekDay d =? 6 then pushWeek weeks currentWeek1 else weeks in
  let currentWeek2 := if WeekDay d =? 6 then [] else currentWeek1 in
  weeksOk tz now year (d + 1) currentWeek2 weeks1
  /\ turnsLeft tz now year (d + 1) currentWeek2 < turnsLeft tz now year d currentWeek
  /\ d <= lastListed tz now year + 6.
Proof.
  intros (Ha & Hb & Hc & He & Hp) Hcond. cbv zeta.
  pose proof listed_in_year as Hlast.
  pose proof (WeekDay_range d) as Hw.
  pose proof (WeekDay_succ d) as Hs.
  set (E := lastListed tz now year) in *.
  set (first := DayFromYear year) in *.
  pose proof (YearFromDay_iff d year) as Hin. fold first in Hin.
  assert (Hnonempty : E < d -> currentWeek <> []).
  { intros Hd. apply orb_true_iff in Hcond. destruct Hcond as [C|C].
    - apply Z.leb_le in C. lia.
    - apply Nat.ltb_lt in C. destruct currentWeek; [cbn in C; lia|discriminate]. }
  assert (Hfar : d <= E + 6).
  { destruct (Z.le_gt_cases d E) as [Hle|Hgt]; [lia|].
    specialize (He Hgt (Hnonempty Hgt)). lia. }
  set (ne := fun s => negb (String.eqb s EmptyString)) in *.
  (* the week after this day's entry *)
  set (currentWeek1 :=
         if (YearFromDay d =? year) && (d <=? E)
         then (currentWeek ++ [keyOfDay d])%list
         else if YearFromDay d =? year then (currentWeek ++ [EmptyString])%list
         else currentWeek).
  assert (H1 : filter ne (List.concat weeks ++ currentWeek1)%list
               = keysFrom first (Z.to_nat (Z.min (d + 1) (E + 1) - first))
               /\ (List.length currentWeek1 <= S (List.length currentWeek))%nat
               /\ (currentWeek <> [] -> currentWeek1 <> [])
               /\ (year <> getFullYear tz now ->
                   Forall (fun s => s <> EmptyString)
                     (List.concat weeks ++ currentWeek1)%list)).
  { unfold currentWeek1.
    destruct (Z.eqb_spec (YearFromDay d) year) as [Ey|Ny].
    - apply Hin in Ey. destruct (Z.leb_spec d E) as [Hle|Hgt]; cbn [andb].
      + rewrite app_assoc, filter_app, Ha. cbn [filter].
        unfold ne at 1. rewrite keyOfDay_not_empty.
        replace (Z.to_nat (Z.min (d + 1) (E + 1) - first))
          with (S (Z.to_nat (Z.min d (E + 1) - first))) by lia.
        rewrite keysFrom_snoc.
        replace (first + Z.of_nat (Z.to_nat (Z.min d (E + 1) - first))) with d by lia.
        split; [reflexivity|]. split; [rewrite length_app; cbn; lia|].
        split; [intros _; destruct currentWeek; discriminate|].
        intros Hpast. apply Forall_app. split; [apply Hp, Hpast|].
        constructor; [|constructor]. intros Ek.
        pose proof (keyOfDay_not_empty d) as Hk. rewrite Ek in Hk. discriminate Hk.
      + rewrite app_assoc, filter_app, Ha. cbn [filter]. unfold ne at 1.
        cbn [String.eqb negb]. rewrite app_nil_r.
        replace (Z.min (d + 1) (E + 1)) with (Z.min d (E + 1)) by lia.
        split; [reflexivity|]. split; [rewrite length_app; cbn; lia|].
        split; [intros _; destruct currentWeek; discriminate|].
        intros Hpast. exfalso. unfold E, lastListed in Hgt.
        destruct (Z.eqb_spec year (getFullYear tz now)) as [Ec|_]; [contradiction|].
        rewrite MakeDay_december_31 in Hgt. fold first in Hgt. lia.
    - cbn [andb].
      assert (Hout : d < first \/ first + DaysInYear year <= d).
      { destruct (Z.lt_ge_cases d first) as [?|?]; [left; assumption|].
        destruct (Z.lt_ge_cases d (first + DaysInYear year)) as [?|?];
          [|right; assumption].
        exfalso. apply Ny, Hin. lia. }
      rewrite Ha.
      replace (Z.to_nat (Z.min (d + 1) (E + 1) - first))
        with (Z.to_nat (Z.min d (E + 1) - first)) by lia.
      split; [reflexivity|]. split; [lia|]. split; [auto|exact Hp]. }
  destruct H1 as (Ha1 & Hlen1 & Hne1 & Hp1).
  destruct (Z.eqb_spec (WeekDay d) 6) as [Esat|Nsat].
  - (* Saturday: the week is closed *)
    split; [|split; [|exact Hfar]].
    + unfold weeksOk. fold E first ne. rewrite Hs.
      split; [rewrite app_nil_r, pushWeek_dates; exact Ha1|].
      split; [cbn; lia|]. split; [apply pushWeek_kept; [exact Hc|lia]|].
      split; [intros _ N; contradiction N; reflexivity|].
      intros Hpast. rewrite app_nil_r. apply pushWeek_no_padding, Hp1, Hpast.
    + unfold turnsLeft. fold E. cbn [List.length Nat.eqb].
      destruct (Z.leb_spec (d + 1) E); destruct (Z.leb_spec d E); try lia.
      destruct (List.length currentWeek =? 0)%nat eqn:El.
      * apply Nat.eqb_eq in El. destruct currentWeek; [|discriminate El].
        exfalso. apply (Hnonempty ltac:(lia)). reflexivity.
      * lia.
  - split; [|split; [|exact Hfar]].
    + unfold weeksOk. fold E first ne. rewrite Hs.
      split; [exact Ha1|]. split; [lia|]. split; [exact Hc|].
      split; [|exact Hp1].
      intros Hd _. destruct (Z.le_gt_cases d E) as [Hle|Hgt]; [lia|].
      specialize (He Hgt (Hnonempty Hgt)). lia.
    + unfold turnsLeft. fold E. rewrite Hs.
      destruct (Z.leb_spec (d + 1) E); destruct (Z.leb_spec d E); try lia.
      * destruct (List.length currentWeek1 =? 0)%nat; lia.
      * destruct (List.length currentWeek =? 0)%nat eqn:El.
        -- apply Nat.eqb_eq in El. destruct currentWeek; [|discriminate El].
           exfalso. apply (Hnonempty ltac:(lia)). reflexivity.
        -- destruct (List.length currentWeek1 =? 0)%nat; lia.
Qed.

Lemma weeksLoop_ends (fuel : nat) :
  forall (d : Z) (currentWeek : list string) (weeks : list (list string)),
    DayFromYear year - 6 <= d ->
    weeksOk tz now year d currentWeek weeks ->
    turnsLeft tz now year d currentWeek < Z.of_nat fuel ->
    exists weeks' currentWeek',
      weeksLoop tz fuel year (endDateOf tz now year) (Some (midnight tz d)) currentWeek weeks
      = Some (weeks', currentWeek')
      /\ filter (fun s => negb (String.eqb s EmptyString))
           (List.concat weeks' ++ currentWeek')%list
         = keysFrom (DayFromYear year)
             (Z.to_nat (lastListed tz now year + 1 - DayFromYear year))
      /\ Forall keptWeek weeks'
      /\ (List.length currentWeek' <= 7)%nat
      /\ (year <> getFullYear tz now ->
          Forall (fun s => s <> EmptyString)
            (List.concat weeks' ++ currentWeek')%list).
Proof.
  pose proof listed_in_year as Hlast. pose proof year_days_bound as Hb.
  assert (HL : DaysInYear year <= 366).
  { destruct (DaysInYear_cases year) as [[_ ->]|[_ ->]]; lia. }
  induction fuel as [|fuel IH]; intros d currentWeek weeks Hd Hok Hturns.
  - exfalso. unfold turnsLeft in Hturns. pose proof (WeekDay_range d).
    destruct (Z.leb_spec d (lastListed tz now year));
      destruct (List.length currentWeek =? 0)%nat;
      change (Z.of_nat 0) with 0 in Hturns; lia.
  - destruct ((d <=? lastListed tz now year) || (0 <? List.length currentWeek)%nat)
      eqn:Hcond.
    + pose proof (weeksOk_step d currentWeek weeks Hok Hcond) as Hstep.
      cbv zeta in Hstep. destruct Hstep as (Hok' & Hless & Hfar).
      rewrite weeksLoop_step by lia. rewrite Hcond. cbv zeta.
      destruct (Z.gtb_spec (YearFromDay (d + 1)) (year + 1)) as [Hbreak|Hgo].
      * (* the guard against running away: the listing is complete by then *)
        destruct Hok' as (Ha & Hb' & Hc & He & Hp).
        assert (Hpast : lastListed tz now year < d + 1).
        { pose proof (YearFromDay_spec (d + 1)) as S.
          pose proof (DayFromYear_mono (year + 1) (YearFromDay (d + 1)) ltac:(lia)).
          rewrite DayFromYear_succ in H. lia. }
        eexists. eexists. split; [reflexivity|].
        replace (Z.min (d + 1) (lastListed tz now year + 1))
          with (lastListed tz now year + 1) in Ha by lia.
        split; [exact Ha|]. split; [exact Hc|]. split; [|exact Hp].
        pose proof (WeekDay_range (d + 1)). lia.
      * apply IH; [lia|exact Hok'|lia].
    + rewrite weeksLoop_stop by exact Hcond.
      apply orb_false_iff in Hcond. destruct Hcond as [C1 C2].
      apply Z.leb_gt in C1. apply Nat.ltb_ge in C2.
      destruct currentWeek; [|cbn in C2; lia].
      destruct Hok as (Ha & _ & Hc & _ & Hp).
      eexists. eexists. split; [reflexivity|].
      replace (Z.min d (lastListed tz now year + 1))
        with (lastListed tz now year + 1) in Ha by lia.
      split; [exact Ha|]. split; [exact Hc|]. split; [cbn; lia|exact Hp].
Qed.

End Weeks.

(** X14: [generateWeeksForYear] lists every day of the year exactly once
    and in order, from the 1st of January to the last day to show (today in
    the current year, the 31st of December in any other): the dates of the
    weeks, put end to end with the padding left out, are the keys of these
    days. Every week has between one and seven entries and at least one
    date, and a year other than the current one has no padding at all. The
    loop ends: 381 turns always suffice. *)
Theorem generateWeeksForYear_lists_days (tz now : Z) (fuel : nat) (year : Z) :
  -1440 <= tz <= 1440 -> 1000 <= year <= 9999 -> (380 < fuel)%nat ->
  exists weeks,
    generateWeeksForYear tz now fuel year = Some weeks
    /\ datesOf weeks
       = keysFrom (MakeDay year 0 1)
           (Z.to_nat (lastListed tz now year + 1 - MakeDay year 0 1))
    /\ Forall keptWeek weeks
    /\ (year <> getFullYear tz now ->
        Forall (fun s => s <> EmptyString) (List.concat weeks)
        /\ List.length (List.concat weeks) = Z.to_nat (DaysInYear year)).
Proof.
  intros Htz Hyear Hfuel.
  pose proof (listed_in_year tz now year) as Hlast.
  pose proof (year_days_bound year Hyear) as Hb.
  pose proof (WeekDay_range (DayFromYear year)) as Hw.
  rewrite MakeDay_january_1.
  set (first := DayFromYear year) in *.
  assert (Estart : DateOf tz year 0 1 = Some (midnight tz first)).
  { unfold DateOf, fullYear, MakeDayOf.
    replace ((0 <=? year) && (year <=? 99)) with false
      by (symmetry; apply andb_false_iff; right; apply Z.leb_gt; lia).
    change (0 / 12) with 0. change (0 mod 12) with 0.
    rewrite Z.add_0_r, MakeDay_january_1. fold first. fold (midnight tz first).
    apply midnight_valid; lia. }
  assert (Eadjusted :
            match option_map (getDay tz) (DateOf tz year 0 1) with
            | Some 0 => DateOf tz year 0 1
            | Some w =>
                setDate tz (DateOf tz year 0 1)
                  (option_map (fun t => getDate tz t - w) (DateOf tz year 0 1))
            | None => setDate tz (DateOf tz year 0 1) None
            end
            = Some (midnight tz (first - WeekDay first))).
  { rewrite Estart. cbn [option_map]. unfold getDay, getDate.
    rewrite Day_midnight.
    destruct (WeekDay first) as [|w|w] eqn:Ew.
    - rewrite Z.sub_0_r. reflexivity.
    - replace (DateFromDay first - Z.pos w) with (DateFromDay first + - Z.pos w) by lia.
      rewrite (setDate_midnight tz Htz first (- Z.pos w)) by lia.
      f_equal; f_equal; lia.
    - lia. }
  unfold generateWeeksForYear. cbv zeta. rewrite Eadjusted.
  fold (endDateOf tz now year).
  destruct (weeksLoop_ends tz now year Htz Hyear fuel (first - WeekDay first) [] [])
    as (weeks' & currentWeek' & -> & Hdates & Hkept & Hlen & Hpast).
  - fold first. lia.
  - unfold weeksOk. fold first. cbn [List.concat app filter List.length].
    replace (Z.to_nat (Z.min (first - WeekDay first) (lastListed tz now year + 1)
                       - first)) with 0%nat by lia.
    split; [reflexivity|]. rewrite WeekDay_sub.
    split; [cbn; lia|]. split; [constructor|].
    split; [intros _ N; contradiction N; reflexivity|]. intros _. constructor.
  - unfold turnsLeft.
    assert (HL : DaysInYear year <= 366).
    { destruct (DaysInYear_cases year) as [[_ ->]|[_ ->]]; lia. }
    replace (first - WeekDay first <=? lastListed tz now year) with true
      by (symmetry; apply Z.leb_le; lia).
    lia.
  - eexists. split; [reflexivity|].
    split; [unfold datesOf; rewrite pushWeek_dates; exact Hdates|].
    split; [apply pushWeek_kept; assumption|].
    intros Hne. specialize (Hpast Hne).
    pose proof (pushWeek_no_padding _ _ Hpast) as Hpad. split; [exact Hpad|].
    assert (Eall : List.concat (pushWeek weeks' currentWeek')
                   = datesOf (pushWeek weeks' currentWeek')).
    { unfold datesOf. symmetry. apply filter_all.
      intros s Hs. rewrite Forall_forall in Hpad. specialize (Hpad s Hs).
      destruct (String.eqb_spec s EmptyString); [contradiction|reflexivity]. }
    rewrite Eall. unfold datesOf. rewrite pushWeek_dates, Hdates.
    unfold keysFrom. rewrite length_map, length_seq.
    unfold lastListed.
    destruct (Z.eqb_spec year (getFullYear tz now)); [contradiction|].
    rewrite MakeDay_december_31. f_equal. fold first. lia.
Qed.

Lemma generateWeeksForYear_lists_days_witness :
  exists weeks,
    generateWeeksForYear 60 january2025 400 2025 = Some weeks
    /\ datesOf weeks
       = keysFrom (MakeDay 2025 0 1)
           (Z.to_nat (lastListed 60 january2025 2025 + 1 - MakeDay 2025 0 1))
    /\ Forall keptWeek weeks
    /\ (2025 <> getFullYear 60 january2025 ->
        Forall (fun s => s <> EmptyString) (List.concat weeks)
        /\ List.length (List.concat weeks) = Z.to_nat (DaysInYear 2025)).
Proof.
  apply (generateWeeksForYear_lists_days 60 january2025 400 2025); lia.
Defined.

End WeeksFacts.

(** ** Display names *)

Module NameFacts.
Import Js Models Names KeyFacts.

(** Every character, case by case. *)
Ltac each_char c :=
  destruct c as [ [|] [|] [|] [|] [|] [|] [|] [|] ];
  vm_compute; try reflexivity; try discriminate.

Lemma isWordChar_lower (c : ascii) : isWordChar (toLowerChar c) = isWordChar c.
Proof. each_char c. Qed.

Lemma toLowerChar_idem (c : ascii) : toLowerChar (toLowerChar c) = toLowerChar c.
Proof. each_char c. Qed.

Lemma toLowerChar_upper (c : ascii) : toLowerChar (toUpperChar c) = toLowerChar c.
Proof. each_char c. Qed.

Lemma wordEnds_lower (c : ascii) : wordEnds (Some (toLowerChar c)) = wordEnds (Some c).
Proof. each_char c. Qed.

Lemma dashOrDigit_lower (c : ascii) :
  dashOrDigit (Some (toLowerChar c)) = dashOrDigit (Some c).
Proof. each_char c. Qed.

Lemma letter_is_word (l c : ascii) :
  l = "g"%char \/ l = "p"%char \/ l = "t"%char ->
  Ascii.eqb (toLowerChar c) l = true -> isWordChar c = true.
Proof.
  intros [ -> | [ -> | -> ] ]; each_char c.
Qed.

Lemma length_mapString (f : ascii -> ascii) (s : string) :
  String.length (mapString f s) = String.length s.
Proof. induction s as [|c s IH]; cbn; [|rewrite IH]; reflexivity. Qed.

Lemma mapString_append (f : ascii -> ascii) (s1 s2 : string) :
  mapString f (s1 ++ s2) = mapString f s1 ++ mapString f s2.
Proof. induction s1 as [|c s1 IH]; cbn; [|rewrite IH]; reflexivity. Qed.

(** The scan, one step at a time. *)
Lemma replaceGpt_unfold (after : option ascii -> bool) (prevWord : bool) (s : string) :
  replaceGpt after prevWord s
  = if gptHead after prevWord s
    then String "G" (String "P" (String "T"
           (replaceGpt after true (dropString 3 s))))
    else match s with
         | EmptyString => EmptyString
         | String c s1 => String c (replaceGpt after (isWordChar c) s1)
         end.
Proof.
  destruct s as [|c [|p [|t rest]]]; reflexivity.
Qed.

Lemma gptHead_length (after : option ascii -> bool) (prevWord : bool) (s : string) :
  gptHead after prevWord s = true ->
  (3 <= String.length s)%nat
  /\ String.length (dropString 3 s) = (String.length s - 3)%nat
  /\ toLowerCase s = String "g" (String "p" (String "t" (toLowerCase (dropString 3 s))))
  /\ prevWord = false
  /\ after (headChar (dropString 3 s)) = true.
Proof.
  destruct s as [|c [|p [|t rest]]]; try discriminate.
  cbn [gptHead dropString String.length]. unfold gptAt.
  rewrite !andb_true_iff. intros ((((H1 & H2) & H3) & H4) & H5).
  apply Ascii.eqb_eq in H2, H3, H4.
  split; [lia|]. split; [lia|]. split.
  - unfold toLowerCase. cbn [mapString]. rewrite H2, H3, H4. reflexivity.
  - split; [destruct prevWord; [discriminate|reflexivity]|exact H5].
Qed.

Lemma gptHead_word (after : option ascii -> bool) (s : string) :
  gptHead after true s = false.
Proof. destruct s as [|c [|p [|t rest]]]; reflexivity. Qed.

Lemma headChar_lower (s s' : string) :
  toLowerCase s = toLowerCase s' ->
  option_map toLowerChar (headChar s) = option_map toLowerChar (headChar s').
Proof.
  destruct s, s'; cbn; try discriminate; [reflexivity|].
  intros E. injection E as E _. rewrite E. reflexivity.
Qed.

Lemma caseBlind_head (after : option ascii -> bool) (s s' : string) :
  caseBlind after -> toLowerCase s = toLowerCase s' ->
  after (headChar s) = after (headChar s').
Proof.
  intros Hb E. apply headChar_lower in E.
  destruct s as [|c s], s' as [|c' s']; cbn in E |- *; try discriminate;
    [reflexivity|].
  injection E as E. rewrite <- (Hb c), <- (Hb c'), E. reflexivity.
Qed.

(** Whether the expression matches depends on the text only up to case. *)
Lemma gptHead_lower (after : option ascii -> bool) (prevWord : bool) (s s' : string) :
  caseBlind after -> toLowerCase s = toLowerCase s' ->
  gptHead after prevWord s = gptHead after prevWord s'.
Proof.
  intros Hb E.
  destruct s as [|c [|p [|t rest]]], s' as [|c' [|p' [|t' rest']]];
    cbn in E; try discriminate; try reflexivity.
  injection E as Ec Ep Et Er. cbn [gptHead]. unfold gptAt.
  rewrite Ec, Ep, Et. rewrite (caseBlind_head after rest rest' Hb Er). reflexivity.
Qed.

Lemma replaceGpt_keeps (after : option ascii -> bool) (n : nat) :
  forall (prevWord : bool) (s : string),
    (String.length s <= n)%nat ->
    String.length (replaceGpt after prevWord s) = String.length s
    /\ toLowerCase (replaceGpt after prevWord s) = toLowerCase s.
Proof.
  induction n as [|n IH]; intros prevWord s Hn.
  - destruct s; [split; reflexivity|cbn in Hn; lia].
  - rewrite replaceGpt_unfold.
    destruct (gptHead after prevWord s) eqn:Eh.
    + destruct (gptHead_length _ _ _ Eh) as (H3 & Hd & El & _).
      destruct (IH true (dropString 3 s) ltac:(lia)) as [IH1 IH2].
      cbn [String.length]. rewrite IH1, Hd. split; [lia|].
      rewrite El. unfold toLowerCase in *. cbn [mapString]. rewrite IH2. reflexivity.
    + destruct s as [|c s1]; [split; reflexivity|].
      destruct (IH (isWordChar c) s1 ltac:(cbn in Hn; lia)) as [IH1 IH2].
      cbn [String.length]. rewrite IH1. split; [reflexivity|].
      unfold toLowerCase in *. cbn [mapString]. rewrite IH2. reflexivity.
Qed.

Lemma replaceGpt_length (after : option ascii -> bool) (prevWord : bool) (s : string) :
  String.length (replaceGpt after prevWord s) = String.length s.
Proof. apply (replaceGpt_keeps after (String.length s)). lia. Qed.

Lemma replaceGpt_lower (after : option ascii -> bool) (prevWord : bool) (s : string) :
  toLowerCase (replaceGpt after prevWord s) = toLowerCase s.
Proof. apply (replaceGpt_keeps after (String.length s)). lia. Qed.

Lemma dropString_three (a b c : ascii) (x : string) :
  dropString 3 (String a (String b (String c x))) = x.
Proof. reflexivity. Qed.

(** Replacing once more changes nothing. *)
Lemma replaceGpt_again (after : option ascii -> bool) (n : nat) :
  caseBlind after ->
  forall (prevWord : bool) (s : string),
    (String.length s <= n)%nat ->
    replaceGpt after prevWord (replaceGpt after prevWord s)
    = replaceGpt after prevWord s.
Proof.
  intros Hb. induction n as [|n IH]; intros prevWord s Hn.
  - destruct s; [reflexivity|cbn in Hn; lia].
  - rewrite (replaceGpt_unfold after prevWord (replaceGpt after prevWord s)).
    rewrite (gptHead_lower after prevWord _ s Hb (replaceGpt_lower _ _ _)).
    rewrite (replaceGpt_unfold after prevWord s).
    destruct (gptHead after prevWord s) eqn:Eh.
    + destruct (gptHead_length _ _ _ Eh) as (H3 & Hd & _).
      rewrite dropString_three, IH by lia. reflexivity.
    + destruct s as [|c s1]; [reflexivity|].
      rewrite IH by (cbn in Hn; lia). reflexivity.
Qed.

Lemma wordEnds_blind : caseBlind wordEnds.
Proof. intros c. apply wordEnds_lower. Qed.

Lemma dashOrDigit_blind : caseBlind dashOrDigit.
Proof. intros c. apply dashOrDigit_lower. Qed.

Lemma wordEndsOrDigit_blind : caseBlind wordEndsOrDigit.
Proof.
  intros c. unfold wordEndsOrDigit. rewrite wordEnds_lower, dashOrDigit_lower.
  reflexivity.
Qed.

Lemma gptHead_either (prevWord : bool) (s : string) :
  gptHead wordEndsOrDigit prevWord s
  = gptHead wordEnds prevWord s || gptHead dashOrDigit prevWord s.
Proof.
  destruct s as [|c [|p [|t rest]]]; try reflexivity.
  cbn [gptHead]. unfold gptAt, wordEndsOrDigit.
  destruct (negb prevWord), (Ascii.eqb (toLowerChar c) "g"),
    (Ascii.eqb (toLowerChar p) "p"), (Ascii.eqb (toLowerChar t) "t"),
    (wordEnds (headChar rest)), (dashOrDigit (headChar rest)); reflexivity.
Qed.

(** The second replacement on a text that starts with GPT after a place
    where a word may start. *)
Lemma replaceGpt_GPT (after : option ascii -> bool) (prevWord : bool) (x : string) :
  replaceGpt after prevWord (String "G" (String "P" (String "T" x)))
  = String "G" (String "P" (String "T" (replaceGpt after true x))).
Proof.
  rewrite replaceGpt_unfold. cbn [dropString].
  destruct (gptHead after prevWord _); [reflexivity|].
  change (isWordChar "G") with true.
  rewrite (replaceGpt_unfold after true), gptHead_word.
  change (isWordChar "P") with true.
  rewrite (replaceGpt_unfold after true), gptHead_word.
  reflexivity.
Qed.

(** The first replacement where only the second one matches. *)
Lemma replaceGpt_letters (after : option ascii -> bool) (s : string) :
  gptHead dashOrDigit false s = true ->
  exists c p t,
    replaceGpt after true s
    = String c (String p (String t (replaceGpt after true (dropString 3 s))))
    /\ (gptHead after false s = false ->
        replaceGpt after false s
        = String c (String p (String t (replaceGpt after true (dropString 3 s))))).
Proof.
  destruct s as [|c [|p [|t rest]]]; try discriminate.
  cbn [gptHead dropString]. unfold gptAt. rewrite !andb_true_iff.
  intros ((((_ & Hg) & Hp) & Ht) & _).
  pose proof (letter_is_word "g" c ltac:(auto) Hg) as Wg.
  pose proof (letter_is_word "p" p ltac:(auto) Hp) as Wp.
  pose proof (letter_is_word "t" t ltac:(auto) Ht) as Wt.
  exists c, p, t.
  assert (Etail : replaceGpt after true (String p (String t rest))
                  = String p (String t (replaceGpt after true rest))).
  { rewrite replaceGpt_unfold, gptHead_word, Wp.
    rewrite (replaceGpt_unfold after true (String t rest)), gptHead_word, Wt.
    reflexivity. }
  split.
  - rewrite replaceGpt_unfold, gptHead_word, Wg, Etail. reflexivity.
  - intros Hno. rewrite replaceGpt_unfold.
    change (gptHead after false (String c (String p (String t rest))))
      with (gptAt after false c p t rest).
    unfold gptAt. rewrite Hno, Wg, Etail. reflexivity.
Qed.

Lemma two_passes (n : nat) :
  forall (prevWord : bool) (s : string),
    (String.length s <= n)%nat ->
    replaceGpt dashOrDigit prevWord (replaceGpt wordEnds prevWord s)
    = replaceGpt wordEndsOrDigit prevWord s.
Proof.
  induction n as [|n IH]; intros prevWord s Hn.
  - destruct s; [reflexivity|cbn in Hn; lia].
  - rewrite (replaceGpt_unfold wordEndsOrDigit prevWord s), gptHead_either.
    destruct (gptHead wordEnds prevWord s) eqn:E1.
    + destruct (gptHead_length _ _ _ E1) as (H3 & Hd & _).
      rewrite (replaceGpt_unfold wordEnds prevWord s), E1.
      rewrite replaceGpt_GPT, IH by lia. reflexivity.
    + cbn [orb].
      rewrite (replaceGpt_unfold dashOrDigit prevWord (replaceGpt wordEnds prevWord s)).
      rewrite (gptHead_lower dashOrDigit prevWord _ s dashOrDigit_blind
                 (replaceGpt_lower _ _ _)).
      destruct (gptHead dashOrDigit prevWord s) eqn:E2.
      * destruct (gptHead_length _ _ _ E2) as (H3 & Hd & _ & -> & _).
        destruct (replaceGpt_letters wordEnds s E2) as (c & p & t & _ & ->);
          [|exact E1].
        rewrite dropString_three, IH by lia. reflexivity.
      * rewrite (replaceGpt_unfold wordEnds prevWord s), E1.
        destruct s as [|c s1]; [reflexivity|].
        rewrite IH by (cbn in Hn; lia). reflexivity.
Qed.

Lemma normalizeModelName_replace (name : string) :
  normalizeModelName name = replaceGpt wordEndsOrDigit false name.
Proof. unfold normalizeModelName. apply (two_passes (String.length name)). lia. Qed.

Lemma normalizeModelName_idem (name : string) :
  normalizeModelName (normalizeModelName name) = normalizeModelName name.
Proof.
  rewrite !normalizeModelName_replace.
  apply (replaceGpt_again wordEndsOrDigit (String.length name) wordEndsOrDigit_blind).
  lia.
Qed.

(** X15: the two replacements of [normalizeModelName] amount to one: gpt,
    in any case, is written GPT where it starts a word and is followed by
    the end of the word or by a digit. Nothing else changes: the length and
    the text up to the case of letters are kept, and normalizing a
    normalized name changes nothing. *)
Theorem normalizeModelName_one_pass (name : string) :
  normalizeModelName name = replaceGpt wordEndsOrDigit false name
  /\ normalizeModelName (normalizeModelName name) = normalizeModelName name
  /\ String.length (normalizeModelName name) = String.length name
  /\ toLowerCase (normalizeModelName name) = toLowerCase name.
Proof.
  split; [apply normalizeModelName_replace|].
  split; [apply normalizeModelName_idem|].
  rewrite normalizeModelName_replace.
  split; [apply replaceGpt_length|apply replaceGpt_lower].
Qed.

(** *** Names made from identifiers *)

Lemma formatPart_keeps (part : string) :
  String.length (formatPart part) = String.length part
  /\ toLowerCase (formatPart part) = toLowerCase part.
Proof.
  unfold formatPart.
  destruct (match headChar part with Some c => isDigitChar c | None => false end);
    [split; reflexivity|].
  destruct (String.eqb_spec (toLowerCase part) "gpt") as [E|N].
  - split; [|rewrite E; reflexivity].
    apply (f_equal String.length) in E. unfold toLowerCase in E.
    rewrite length_mapString in E. rewrite E. reflexivity.
  - destruct part as [|c rest]; [split; reflexivity|].
    cbn [capitalize String.length]. split; [reflexivity|].
    unfold toLowerCase. cbn [mapString]. rewrite toLowerChar_upper. reflexivity.
Qed.

Lemma concat_formatPart (parts : list string) :
  String.length (String.concat " " (map formatPart parts))
  = String.length (String.concat " " parts)
  /\ toLowerCase (String.concat " " (map formatPart parts))
     = toLowerCase (String.concat " " parts).
Proof.
  induction parts as [|part parts IH]; [split; reflexivity|].
  destruct (formatPart_keeps part) as [Hl Hc].
  destruct parts as [|part' parts]; [cbn; auto|].
  cbn [map] in IH |- *. destruct IH as [IH1 IH2].
  change (String.concat " " (formatPart part :: formatPart part' :: map formatPart parts))
    with (formatPart part ++ " " ++ String.concat " " (formatPart part' :: map formatPart parts)).
  change (String.concat " " (part :: part' :: parts))
    with (part ++ " " ++ String.concat " " (part' :: parts)).
  split.
  - rewrite !length_append, Hl, IH1. reflexivity.
  - unfold toLowerCase in *. rewrite !mapString_append, Hc, IH2. reflexivity.
Qed.

Lemma splitBy_not_nil (isSep : ascii -> bool) (s : string) : splitBy isSep s <> [].
Proof.
  induction s as [|c s IH]; cbn; [discriminate|].
  destruct (isSep c); [discriminate|]. destruct (splitBy isSep s); discriminate.
Qed.

(** Joining the parts with a space puts a space for every separator. *)
Lemma join_split (s : string) :
  String.concat " " (splitBy isSeparator s) = spaced s.
Proof.
  induction s as [|c s IH]; [reflexivity|].
  cbn [splitBy spaced mapString]. fold (spaced s).
  pose proof (splitBy_not_nil isSeparator s) as Hne.
  destruct (isSeparator c).
  - destruct (splitBy isSeparator s) as [|part parts] eqn:E; [contradiction|].
    change (String.concat " " (EmptyString :: part :: parts))
      with (EmptyString ++ " " ++ String.concat " " (part :: parts)).
    rewrite IH. reflexivity.
  - destruct (splitBy isSeparator s) as [|part parts] eqn:E; [contradiction|].
    rewrite <- IH. destruct parts; reflexivity.
Qed.

Lemma formatModelIdAsName_keeps (modelId : string) :
  String.length (formatModelIdAsName modelId) = String.length modelId
  /\ toLowerCase (formatModelIdAsName modelId) = toLowerCase (spaced modelId).
Proof.
  unfold formatModelIdAsName.
  destruct (concat_formatPart (splitBy isSeparator modelId)) as [H1 H2].
  rewrite H1, H2, join_split. split; [|reflexivity].
  unfold spaced. apply length_mapString.
Qed.

Example display_names :
  map (getModelDisplayName EMPTY_DATA)
    ["gpt-5-codex"; "gpt-5.1-codex-max"; "o3"; "gpt4o-mini"; "chatgpt_4"]
  = ["GPT 5 Codex"; "GPT 5.1 Codex Max"; "O3"; "GPT4o Mini"; "Chatgpt 4"]
  /\ map normalizeModelName ["gpt-5"; "my gpt model"; "chatgpt"; "gpt_x"; "Gpt4"]
     = ["GPT-5"; "my GPT model"; "chatgpt"; "gpt_x"; "GPT4"].
Proof. split; reflexivity. Qed.

(** X16: a display name is always normalized, whatever the tables hold;
    and for a model the tables do not know, the name is made from the
    identifier alone: it has the length of the identifier and is, up to the
    case of letters, the identifier with a space for every dash and
    underscore. *)
Theorem getModelDisplayName_from_id (cachedData : ModelsDevData) (modelId : string) :
  normalizeModelName (getModelDisplayName cachedData modelId)
  = getModelDisplayName cachedData modelId
  /\ (isAscii modelId ->
      JsMap.get (models cachedData) modelId = None ->
      inheritedName modelId = None ->
      getModelDisplayName cachedData modelId
      = normalizeModelName (formatModelIdAsName modelId)
      /\ String.length (getModelDisplayName cachedData modelId)
         = String.length modelId
      /\ toLowerCase (getModelDisplayName cachedData modelId)
         = toLowerCase (spaced modelId)).
Proof.
  split.
  - unfold getModelDisplayName.
    destruct (JsMap.get (models cachedData) modelId) as [info|].
    + destruct (truthyString (name info)); apply normalizeModelName_idem.
    + destruct (inheritedName modelId); apply normalizeModelName_idem.
  - intros _ Hget Hinh. unfold getModelDisplayName. rewrite Hget, Hinh.
    destruct (formatModelIdAsName_keeps modelId) as [Fl Fc].
    split; [reflexivity|]. rewrite normalizeModelName_replace.
    rewrite replaceGpt_length, replaceGpt_lower. split; assumption.
Qed.

End NameFacts.

(** ** Platform packages *)

Module PackagingFacts.
Import Js MostActive Packaging.

(** The target the installer means by what it detects. *)
Lemma getPackageName_target (o : Os) (a : Arch) (detectAVX2 detectMusl : bool) :
  getPackageName (osText o) (archText a) detectAVX2 detectMusl
  = Some (getTargetName
            {| os := o; arch := a;
               musl := match o with linux => detectMusl | _ => false end;
               baseline := match a with x64 => negb detectAVX2 | arm64 => false end |}).
Proof. destruct o, a, detectAVX2, detectMusl; reflexivity. Qed.

Lemma getPackageName_some (platform arch : string) (detectAVX2 detectMusl : bool)
    (packageName : string) :
  getPackageName platform arch detectAVX2 detectMusl = Some packageName ->
  exists o a, platform = osText o /\ arch = archText a.
Proof.
  unfold getPackageName.
  destruct (String.eqb_spec platform "darwin") as [->|_];
    [|destruct (String.eqb_spec platform "linux") as [->|_];
      [|destruct (String.eqb_spec platform "win32") as [->|_]; [|discriminate]]];
    (destruct (String.eqb_spec arch "x64") as [->|_];
     [|destruct (String.eqb_spec arch "arm64") as [->|_]; [|discriminate]]);
    intros _.
  - exists darwin, x64. auto.
  - exists darwin, arm64. auto.
  - exists linux, x64. auto.
  - exists linux, arm64. auto.
  - exists win32, x64. auto.
  - exists win32, arm64. auto.
Qed.


(** X18: the package the installer falls back on is never a platform
    package: the first three parts of a package name, cut at the dashes, are
    the three words of the main package's own name, so for every platform
    the fallback is codex-wrapped-noyrlimit, which differs from the name
    asked for. *)
Theorem basePackage_is_main (platform arch : string) (detectAVX2 detectMusl : bool)
    (packageName : string) :
  getPackageName platform arch detectAVX2 detectMusl = Some packageName ->
  basePackage packageName = targetpackageName
  /\ basePackage packageName <> packageName.
Proof.
  intros E. destruct (getPackageName_some _ _ _ _ _ E) as (o & a & -> & ->).
  rewrite getPackageName_target in E. injection E as <-.
  destruct o, a, detectAVX2, detectMusl; vm_compute; split;
    try reflexivity; discriminate.
Qed.

Lemma basePackage_is_main_witness :
  basePackage "codex-wrapped-noyrlimit-linux-x64-baseline-musl" = targetpackageName
  /\ basePackage "codex-wrapped-noyrlimit-linux-x64-baseline-musl"
     <> "codex-wrapped-noyrlimit-linux-x64-baseline-musl".
Proof.
  apply (basePackage_is_main "linux" "x64" false true). reflexivity.
Defined.

End PackagingFacts.

(** ** Tallies *)

Module TallyFacts.
Import Js Models Stats JsMapFacts AggregateFacts RankingFacts StreakFacts Tally.

(** *** Totals *)

Lemma keys_set {V : Type} (m : JsMap.t V) (k : string) (v : V) :
  JsMap.keys (JsMap.set m k v)
  = if JsMap.has m k then JsMap.keys m else (JsMap.keys m ++ [k])%list.
Proof.
  unfold JsMap.has, JsMap.keys.
  induction m as [|[k' v'] m IH]; cbn; [reflexivity|].
  destruct (String.eqb_spec k' k) as [->|N]; cbn; [reflexivity|].
  rewrite IH. destruct (JsMap.get m k); reflexivity.
Qed.

Lemma has_existsb {V : Type} (m : JsMap.t V) (k : string) :
  JsMap.has m k = existsb (String.eqb k) (JsMap.keys m).
Proof.
  unfold JsMap.has, JsMap.keys.
  induction m as [|[k' v'] m IH]; cbn; [reflexivity|].
  rewrite (String.eqb_sym k k').
  destruct (String.eqb k' k); cbn; [reflexivity|exact IH].
Qed.

Lemma set_wf {V : Type} (m : JsMap.t V) (k : string) (v : V) :
  JsMap.wf m -> JsMap.wf (JsMap.set m k v).
Proof.
  unfold JsMap.wf. intros H. rewrite keys_set.
  destruct (JsMap.has m k) eqn:E; [exact H|].
  apply NoDup_app; [exact H|repeat constructor; intros []|].
  intros x Hx [<-|[]].
  apply has_In in Hx. congruence.
Qed.

(** The five sums of one turn. *)
Lemma addEvent_sums tot map event :
  let map' := snd (addEvent (tot, map) event) in
  sumBy Usage.inputTokens map' = sumBy Usage.inputTokens map + Event.inputTokens event
  /\ sumBy Usage.cachedInputTokens map'
     = sumBy Usage.cachedInputTokens map + Event.cachedInputTokens event
  /\ sumBy Usage.outputTokens map'
     = sumBy Usage.outputTokens map + Event.outputTokens event
  /\ sumBy Usage.reasoningTokens map'
     = sumBy Usage.reasoningTokens map + Event.reasoningOutputTokens event
  /\ sumBy Usage.totalTokens map' = sumBy Usage.totalTokens map + getEventTotal event.
Proof.
  cbv zeta. rewrite addEvent_snd, !sumBy_set. unfold ModelUsageTotals in *.
  destruct (JsMap.get map (Event.model event)); cbn; repeat split; lia.
Qed.

Lemma addToTotals_fields tot event :
  totalInputTokens (addToTotals tot event)
  = totalInputTokens tot + Event.inputTokens event
  /\ totalCachedInputTokens (addToTotals tot event)
     = totalCachedInputTokens tot + Event.cachedInputTokens event
  /\ totalOutputTokens (addToTotals tot event)
     = totalOutputTokens tot + Event.outputTokens event
  /\ totalReasoningTokens (addToTotals tot event)
     = totalReasoningTokens tot + Event.reasoningOutputTokens event
  /\ totalTokens (addToTotals tot event) = totalTokens tot + getEventTotal event.
Proof.
  unfold addToTotals, addEvent.
  destruct (getOrCreateModelUsage [] (Event.model event)). cbn. repeat split.
Qed.

(** What the loop over the events keeps true, from any state. *)
Lemma aggregate_from_sums events :
  forall tot map,
    let result := fold_left addEvent events (tot, map) in
    (totalInputTokens (fst result)
     = totalInputTokens tot + eventSum Event.inputTokens events
     /\ totalCachedInputTokens (fst result)
        = totalCachedInputTokens tot + eventSum Event.cachedInputTokens events
     /\ totalOutputTokens (fst result)
        = totalOutputTokens tot + eventSum Event.outputTokens events
     /\ totalReasoningTokens (fst result)
        = totalReasoningTokens tot + eventSum Event.reasoningOutputTokens events
     /\ totalTokens (fst result) = totalTokens tot + eventSum getEventTotal events)
    /\ (sumBy Usage.inputTokens (snd result)
        = sumBy Usage.inputTokens map + eventSum Event.inputTokens events
        /\ sumBy Usage.cachedInputTokens (snd result)
           = sumBy Usage.cachedInputTokens map + eventSum Event.cachedInputTokens events
        /\ sumBy Usage.outputTokens (snd result)
           = sumBy Usage.outputTokens map + eventSum Event.outputTokens events
        /\ sumBy Usage.reasoningTokens (snd result)
           = sumBy Usage.reasoningTokens map
             + eventSum Event.reasoningOutputTokens events
        /\ sumBy Usage.totalTokens (snd result)
           = sumBy Usage.totalTokens map + eventSum getEventTotal events)
    /\ (JsMap.wf map -> JsMap.wf (snd result))
    /\ JsMap.keys (snd result)
       = fold_left
           (fun seen event =>
              if existsb (String.eqb (Event.model event)) seen then seen
              else (seen ++ [Event.model event])%list)
           events (JsMap.keys map).
Proof.
  induction events as [|e events IH]; intros tot map; cbv zeta; cbn [fold_left].
  - unfold eventSum. cbn [fold_right fst snd]. repeat split; try lia. auto.
  - destruct (addEvent (tot, map) e) as [tot' map'] eqn:E.
    pose proof (addEvent_fst tot map e) as Hf. rewrite E in Hf. cbn [fst] in Hf.
    pose proof (addEvent_sums tot map e) as Hs. cbv zeta in Hs.
    rewrite E in Hs. cbn [snd] in Hs.
    pose proof (addEvent_snd tot map e) as Hm. rewrite E in Hm. cbn [snd] in Hm.
    pose proof (addToTotals_fields tot e) as Ht. rewrite <- Hf in Ht.
    specialize (IH tot' map'). cbv zeta in IH.
    destruct IH as (I1 & I2 & I3 & I4).
    unfold eventSum in *. cbn [fold_right].
    split; [|split; [|split]].
    + destruct I1 as (A1 & A2 & A3 & A4 & A5).
      destruct Ht as (B1 & B2 & B3 & B4 & B5). repeat split; lia.
    + destruct I2 as (A1 & A2 & A3 & A4 & A5).
      destruct Hs as (B1 & B2 & B3 & B4 & B5). repeat split; lia.
    + intros Hwf. apply I3. rewrite Hm. apply set_wf, Hwf.
    + rewrite I4. f_equal. rewrite Hm, keys_set, has_existsb. reflexivity.
Qed.

(** X19: the aggregation conserves every count: each of the five grand
    totals is the sum of that count over the events (the effective total
    for totalTokens), the per-model totals add up to the grand totals,
    counter by counter, and the map holds one entry for each model of the
    events, in the order the models are first seen. *)
Theorem aggregate_conserves (events : list CodexUsageEvent) :
  let tot := fst (aggregate events) in
  let modelUsageTotals := snd (aggregate events) in
  (totalInputTokens tot = eventSum Event.inputTokens events
   /\ totalCachedInputTokens tot = eventSum Event.cachedInputTokens events
   /\ totalOutputTokens tot = eventSum Event.outputTokens events
   /\ totalReasoningTokens tot = eventSum Event.reasoningOutputTokens events
   /\ totalTokens tot = eventSum getEventTotal events)
  /\ (sumBy Usage.inputTokens modelUsageTotals = totalInputTokens tot
      /\ sumBy Usage.cachedInputTokens modelUsageTotals = totalCachedInputTokens tot
      /\ sumBy Usage.outputTokens modelUsageTotals = totalOutputTokens tot
      /\ sumBy Usage.reasoningTokens modelUsageTotals = totalReasoningTokens tot
      /\ sumBy Usage.totalTokens modelUsageTotals = totalTokens tot)
  /\ JsMap.wf modelUsageTotals
  /\ JsMap.keys modelUsageTotals = modelsSeen events.
Proof.
  cbv zeta. unfold aggregate.
  pose proof (aggregate_from_sums events zeroTotals []) as H. cbv zeta in H.
  destruct H as ((A1 & A2 & A3 & A4 & A5) & (B1 & B2 & B3 & B4 & B5) & Hwf & Hkeys).
  cbn [zeroTotals totalInputTokens totalCachedInputTokens totalOutputTokens
         totalReasoningTokens totalTokens] in A1, A2, A3, A4, A5.
  unfold sumBy at 2 in B1. unfold sumBy at 2 in B2. unfold sumBy at 2 in B3.
  unfold sumBy at 2 in B4. unfold sumBy at 2 in B5. cbn [fold_right] in B1, B2, B3, B4, B5.
  rewrite Z.add_0_l in A1, A2, A3, A4, A5, B1, B2, B3, B4, B5.
  split; [repeat split; assumption|].
  split; [|split; [apply Hwf; constructor|exact Hkeys]].
  split; [exact (eq_trans B1 (eq_sym A1))|].
  split; [exact (eq_trans B2 (eq_sym A2))|].
  split; [exact (eq_trans B3 (eq_sym A3))|].
  split; [exact (eq_trans B4 (eq_sym A4))|exact (eq_trans B5 (eq_sym A5))].
Qed.

End TallyFacts.

(** ** The order of the ranking *)

Module RankOrderFacts.
Import Js Models Stats JsMapFacts AggregateFacts RankingFacts StreakFacts Tally
  TallyFacts.

Section Descending.

Context {A : Type}.
Variable key : A -> Z.

(** Sorting with [(a, b) => key(b) - key(a)] puts the greatest first. *)
Lemma insertBy_descending (x : A) (l : list A) :
  StronglySorted (fun a b => key a >= key b) l ->
  StronglySorted (fun a b => key a >= key b) (insertBy (fun a b => key b - key a) x l).
Proof.
  intros Hs. induction Hs as [|y l Hs IH Hy]; cbn [insertBy].
  - repeat constructor.
  - destruct (Z.leb_spec (key y - key x) 0) as [Hle|Hgt].
    + constructor; [constructor; assumption|].
      constructor; [lia|].
      rewrite Forall_forall in Hy |- *. intros z Hz. specialize (Hy z Hz). lia.
    + constructor; [exact IH|].
      rewrite Forall_forall in Hy |- *. intros z Hz.
      apply In_insertBy in Hz. destruct Hz as [->|Hz]; [lia|apply Hy, Hz].
Qed.

Lemma sortBy_descending (l : list A) :
  StronglySorted (fun a b => key a >= key b) (sortBy (fun a b => key b - key a) l).
Proof.
  unfold sortBy. induction l as [|x l IH]; cbn [fold_right]; [constructor|].
  apply insertBy_descending, IH.
Qed.

Lemma sorted_app (l1 l2 : list A) :
  StronglySorted (fun a b => key a >= key b) (l1 ++ l2) ->
  StronglySorted (fun a b => key a >= key b) l1
  /\ Forall (fun b => Forall (fun a => key b <= key a) l1) l2.
Proof.
  induction l1 as [|x l1 IH]; cbn [app]; intros Hs.
  - split; [constructor|]. apply Forall_forall. intros b _. constructor.
  - apply StronglySorted_inv in Hs. destruct Hs as [Hs Hx].
    destruct (IH Hs) as [H1 H2]. apply Forall_app in Hx. destruct Hx as [Hx1 Hx2].
    split; [constructor; assumption|].
    rewrite Forall_forall in H2, Hx2 |- *. intros b Hb.
    constructor; [specialize (Hx2 b Hb); lia|apply H2, Hb].
Qed.

(** The first [n] of the sorted list: they are in descending order, and
    nothing left out is greater than any of them. *)
Lemma top_of_sorted (n : nat) (l : list A) :
  let sorted := sortBy (fun a b => key b - key a) l in
  List.length (firstn n sorted) = Nat.min n (List.length l)
  /\ StronglySorted (fun a b => key a >= key b) (firstn n sorted)
  /\ Permutation l (firstn n sorted ++ skipn n sorted)
  /\ Forall (fun b => Forall (fun a => key b <= key a) (firstn n sorted))
       (skipn n sorted).
Proof.
  cbv zeta. set (sorted := sortBy (fun a b => key b - key a) l).
  pose proof (sortBy_perm (fun a b => key b - key a) l) as Hp. fold sorted in Hp.
  pose proof (sortBy_descending l) as Hs. fold sorted in Hs.
  rewrite <- (firstn_skipn n sorted) in Hs. apply sorted_app in Hs.
  destruct Hs as [H1 H2].
  split; [rewrite length_firstn, (Permutation_length Hp); reflexivity|].
  split; [exact H1|]. split; [|exact H2].
  rewrite firstn_skipn. apply Permutation_sym, Hp.
Qed.

End Descending.

Section Collect.

Variable cachedData : ModelsDevData.
Variable getModelDisplayName : string -> string.

Lemma collect_models entries :
  forall providerCounts modelStats,
    snd (collectModelStats cachedData getModelDisplayName entries providerCounts modelStats)
    = (modelStats ++ map (statOf cachedData getModelDisplayName) (rankedEntries entries))%list.
Proof.
  induction entries as [|[modelId usage] entries IH]; intros pc ms;
    cbn [collectModelStats rankedEntries filter snd].
  - rewrite app_nil_r. reflexivity.
  - cbv zeta. fold (rankedEntries entries).
    destruct (Z.leb_spec (tokenTotalOf usage) 0) as [Hle|Hgt].
    + replace (0 <? tokenTotalOf usage) with false by (symmetry; apply Z.ltb_ge; lia).
      apply IH.
    + replace (0 <? tokenTotalOf usage) with true by (symmetry; apply Z.ltb_lt; lia).
      rewrite IH, <- app_assoc. reflexivity.
Qed.

Lemma countOf_set (providerCounts : JsMap.t Z) (k p : string) (n : Z) :
  countOf (JsMap.set providerCounts k n) p
  = if String.eqb k p then n else countOf providerCounts p.
Proof.
  unfold countOf. destruct (String.eqb_spec k p) as [->|N].
  - rewrite get_set_same. reflexivity.
  - rewrite get_set_other by exact N. reflexivity.
Qed.

Lemma collect_providers entries :
  forall providerCounts modelStats providerId,
    let providerCounts' :=
      fst (collectModelStats cachedData getModelDisplayName entries
             providerCounts modelStats) in
    countOf providerCounts' providerId
    = countOf providerCounts providerId
      + sumBy tokenTotalOf
          (filter (fun kv => String.eqb (resolveProviderId cachedData (fst kv)) providerId)
             (rankedEntries entries))
    /\ (JsMap.wf providerCounts -> JsMap.wf providerCounts').
Proof.
  induction entries as [|[modelId usage] entries IH]; intros pc ms p; cbv zeta;
    cbn [collectModelStats rankedEntries filter fst snd].
  - unfold sumBy. cbn. split; [lia|auto].
  - fold (rankedEntries entries).
    destruct (Z.leb_spec (tokenTotalOf usage) 0) as [Hle|Hgt].
    + replace (0 <? tokenTotalOf usage) with false by (symmetry; apply Z.ltb_ge; lia).
      apply IH.
    + replace (0 <? tokenTotalOf usage) with true by (symmetry; apply Z.ltb_lt; lia).
      specialize (IH (JsMap.set pc (resolveProviderId cachedData modelId)
                        (match JsMap.get pc (resolveProviderId cachedData modelId) with
                         | Some n => n
                         | None => 0
                         end + tokenTotalOf usage))
                    (ms ++ [ {| ModelStats.id := modelId;
                                ModelStats.name := getModelDisplayName modelId;
                                ModelStats.providerId :=
                                  resolveProviderId cachedData modelId;
                                ModelStats.count := tokenTotalOf usage;
                                ModelStats.percentage := 0%Q |} ])%list p).
      cbv zeta in IH. destruct IH as [IH1 IH2].
      split; [|intros Hwf; apply IH2, set_wf, Hwf].
      rewrite IH1, countOf_set. cbn [filter fst].
      fold (countOf pc (resolveProviderId cachedData modelId)).
      destruct (String.eqb_spec (resolveProviderId cachedData modelId) p) as [->|N].
      * unfold sumBy at 2. cbn [fold_right snd].
        fold (sumBy tokenTotalOf
                (filter (fun kv => String.eqb (resolveProviderId cachedData (fst kv)) p)
                   (rankedEntries entries))).
        lia.
      * reflexivity.
Qed.

End Collect.

Lemma providerShare_nonneg (cachedData : ModelsDevData) (providerId : string)
    (modelUsageTotals : JsMap.t ModelUsageTotals) :
  0 <= providerShare cachedData providerId modelUsageTotals.
Proof.
  unfold providerShare, rankedEntries, sumBy.
  induction modelUsageTotals as [|[k u] l IH]; cbn [filter fold_right fst snd]; [lia|].
  destruct (Z.ltb_spec 0 (tokenTotalOf u)) as [Hpos|Hle]; [|exact IH].
  cbn [filter fst].
  destruct (String.eqb (resolveProviderId cachedData k) providerId);
    cbn [fold_right snd]; lia.
Qed.

Lemma In_wf_get {V : Type} (m : JsMap.t V) (k : string) (v : V) :
  JsMap.wf m -> In (k, v) m -> JsMap.get m k = Some v.
Proof.
  unfold JsMap.wf, JsMap.keys. induction m as [|[k' v'] m IH]; cbn; [contradiction|].
  intros Hnd [E|Hin].
  - injection E as -> ->. rewrite String.eqb_refl. reflexivity.
  - inversion Hnd as [|? ? Hnot Hnd']; subst.
    destruct (String.eqb_spec k' k) as [->|N].
    + exfalso. apply Hnot. apply in_map_iff. exists (k, v). auto.
    + apply IH; assumption.
Qed.

(** X20: topModels holds the three models with the greatest token totals,
    or all of them when there are fewer, among the models whose total is
    positive: they come in descending order of count, each carries its own
    provider and the percentage of its count, and no model left out has a
    greater count than a listed one. *)
Theorem topModels_greatest (cachedData : ModelsDevData)
    (getModelDisplayName getProviderDisplayName : string -> string)
    (totalTokens : Z) (modelUsageTotals : JsMap.t ModelUsageTotals) :
  let r := rank cachedData getModelDisplayName getProviderDisplayName
             totalTokens modelUsageTotals in
  let ranked := rankedEntries modelUsageTotals in
  List.length (topModels r) = Nat.min 3 (List.length ranked)
  /\ StronglySorted (fun a b => ModelStats.count a >= ModelStats.count b) (topModels r)
  /\ Forall (fun m =>
               0 < ModelStats.count m
               /\ ModelStats.providerId m = resolveProviderId cachedData (ModelStats.id m)
               /\ ModelStats.percentage m
                  = percentOf (ModelStats.count m) (percentageDenominator r))
       (topModels r)
  /\ exists others,
       Permutation (map (fun kv => (fst kv, tokenTotalOf (snd kv))) ranked)
         (map (fun m => (ModelStats.id m, ModelStats.count m)) (topModels r) ++ others)
       /\ Forall (fun other =>
                    Forall (fun m => snd other <= ModelStats.count m) (topModels r))
            others.
Proof.
  cbv zeta. unfold rank.
  pose proof (collect_models cachedData getModelDisplayName modelUsageTotals [] [])
    as Hms.
  destruct (collectModelStats cachedData getModelDisplayName modelUsageTotals [] [])
    as [providerCounts modelStats].
  cbn [snd app] in Hms. subst modelStats.
  cbn [topModels percentageDenominator]. cbv zeta.
  set (all := map (statOf cachedData getModelDisplayName)
                (rankedEntries modelUsageTotals)).
  set (denominator := if totalTokens >? 0 then totalTokens else _).
  destruct (top_of_sorted ModelStats.count 3 all) as (Hlen & Hsorted & Hperm & Hrest).
  cbv zeta in Hlen, Hsorted, Hperm, Hrest.
  set (top := firstn 3 (sortBy (fun a b => ModelStats.count b - ModelStats.count a) all))
    in *.
  set (rest := skipn 3 (sortBy (fun a b => ModelStats.count b - ModelStats.count a) all))
    in *.
  assert (Hall : forall m, In m all ->
                           0 < ModelStats.count m
                           /\ ModelStats.providerId m
                              = resolveProviderId cachedData (ModelStats.id m)).
  { intros m Hm. unfold all in Hm. apply in_map_iff in Hm.
    destruct Hm as ([k u] & <- & Hin). unfold rankedEntries in Hin.
    apply filter_In in Hin. destruct Hin as [_ Hpos]. cbn in Hpos |- *.
    apply Z.ltb_lt in Hpos. auto. }
  assert (Htop : forall m, In m top -> In m all).
  { intros m Hm. apply (Permutation_in _ (Permutation_sym Hperm)).
    apply in_or_app. left. exact Hm. }
  split; [|split; [|split]].
  - rewrite length_map, Hlen. unfold all. rewrite length_map. reflexivity.
  - clear -Hsorted. induction Hsorted as [|m l Hs IH Hm]; cbn [map]; constructor.
    + exact IH.
    + rewrite Forall_forall in Hm |- *. intros y Hy. apply in_map_iff in Hy.
      destruct Hy as (x & <- & Hx). cbn. apply Hm, Hx.
  - apply Forall_forall. intros m Hm. apply in_map_iff in Hm.
    destruct Hm as (x & <- & Hx). cbn.
    destruct (Hall x (Htop x Hx)) as [H1 H2]. auto.
  - exists (map (fun m => (ModelStats.id m, ModelStats.count m)) rest).
    split.
    + rewrite map_map. cbn [ModelStats.id ModelStats.count].
      rewrite <- map_app.
      replace (map (fun kv => (fst kv, tokenTotalOf (snd kv)))
                 (rankedEntries modelUsageTotals))
        with (map (fun m => (ModelStats.id m, ModelStats.count m)) all)
        by (unfold all; rewrite map_map; reflexivity).
      apply Permutation_map, Hperm.
    + apply Forall_forall. intros other Hother. apply in_map_iff in Hother.
      destruct Hother as (x & <- & Hx). cbn [snd].
      rewrite Forall_forall in Hrest. specialize (Hrest x Hx).
      apply Forall_forall. intros m Hm. apply in_map_iff in Hm.
      destruct Hm as (y & <- & Hy). cbn.
      rewrite Forall_forall in Hrest. apply Hrest, Hy.
Qed.

(** X21: the count of a listed provider is the sum of the token totals of
    the ranked models that resolve to it; topProviders lists at most three
    providers, each once, in descending order of count, and no provider
    left out has a greater count. *)
Theorem topProviders_add_up (cachedData : ModelsDevData)
    (getModelDisplayName getProviderDisplayName : string -> string)
    (totalTokens : Z) (modelUsageTotals : JsMap.t ModelUsageTotals) :
  let r := rank cachedData getModelDisplayName getProviderDisplayName
             totalTokens modelUsageTotals in
  (List.length (topProviders r) <= 3)%nat
  /\ StronglySorted (fun a b => ProviderStats.count a >= ProviderStats.count b)
       (topProviders r)
  /\ NoDup (map ProviderStats.id (topProviders r))
  /\ Forall (fun p =>
               ProviderStats.count p
               = providerShare cachedData (ProviderStats.id p) modelUsageTotals
               /\ ProviderStats.name p = getProviderDisplayName (ProviderStats.id p))
       (topProviders r)
  /\ (forall providerId,
         ~ In providerId (map ProviderStats.id (topProviders r)) ->
         Forall (fun p =>
                   providerShare cachedData providerId modelUsageTotals
                   <= ProviderStats.count p)
           (topProviders r)).
Proof.
  cbv zeta. unfold rank.
  pose proof (fun p =>
                collect_providers cachedData getModelDisplayName modelUsageTotals [] [] p)
    as Hpc.
  destruct (collectModelStats cachedData getModelDisplayName modelUsageTotals [] [])
    as [providerCounts modelStats].
  cbv zeta in Hpc. cbn [fst] in Hpc.
  cbn [topProviders]. cbv zeta.
  set (denominator := if totalTokens >? 0 then totalTokens else _).
  assert (Hwf : JsMap.wf providerCounts).
  { apply (Hpc EmptyString). constructor. }
  assert (Hshare : forall p, countOf providerCounts p
                             = providerShare cachedData p modelUsageTotals).
  { intros p. destruct (Hpc p) as [H _]. rewrite H. unfold providerShare.
    change (countOf [] p) with 0. apply Z.add_0_l. }
  destruct (top_of_sorted (fun kv : string * Z => snd kv) 3 providerCounts)
    as (Hlen & Hsorted & Hperm & Hrest).
  cbv zeta in Hlen, Hsorted, Hperm, Hrest.
  set (top := firstn 3 (sortBy (fun a b : string * Z => snd b - snd a) providerCounts))
    in *.
  set (rest := skipn 3 (sortBy (fun a b : string * Z => snd b - snd a) providerCounts))
    in *.
  assert (Hin : forall kv, In kv top -> In kv providerCounts).
  { intros kv Hkv. apply (Permutation_in _ (Permutation_sym Hperm)).
    apply in_or_app. left. exact Hkv. }
  assert (Hnd : NoDup (map fst (top ++ rest))).
  { apply (Permutation_NoDup (Permutation_map fst Hperm)). exact Hwf. }
  split; [|split; [|split; [|split]]].
  - rewrite length_map, Hlen. lia.
  - clear -Hsorted. induction Hsorted as [|[k c] l Hs IH Hm]; cbn [map]; constructor.
    + exact IH.
    + rewrite Forall_forall in Hm |- *. intros y Hy. apply in_map_iff in Hy.
      destruct Hy as ([k' c'] & <- & Hx). cbn. apply (Hm _ Hx).
  - rewrite map_map.
    replace (map (fun x : string * Z =>
                    ProviderStats.id
                      (let '(id, count) := x in
                       {| ProviderStats.id := id;
                          ProviderStats.name := getProviderDisplayName id;
                          ProviderStats.count := count;
                          ProviderStats.percentage := percentOf count denominator |}))
               top)
      with (map fst top)
      by (apply map_ext; intros [k c]; reflexivity).
    rewrite map_app in Hnd. apply NoDup_app_remove_r in Hnd. exact Hnd.
  - apply Forall_forall. intros p Hp. apply in_map_iff in Hp.
    destruct Hp as ([k c] & <- & Hx). cbn. split; [|reflexivity].
    rewrite <- Hshare. unfold countOf.
    rewrite (In_wf_get providerCounts k c Hwf (Hin _ Hx)). reflexivity.
  - intros p Hnot. apply Forall_forall. intros q Hq. apply in_map_iff in Hq.
    destruct Hq as ([k c] & <- & Hx). cbn [ProviderStats.count].
    rewrite <- Hshare. unfold countOf.
    destruct (JsMap.get providerCounts p) as [n|] eqn:Eg.
    + apply get_In in Eg.
      apply (Permutation_in _ Hperm) in Eg. apply in_app_or in Eg.
      destruct Eg as [Etop|Erest].
      * exfalso. apply Hnot. apply in_map_iff.
        exists {| ProviderStats.id := p;
                  ProviderStats.name := getProviderDisplayName p;
                  ProviderStats.count := n;
                  ProviderStats.percentage := percentOf n denominator |}.
        split; [reflexivity|]. apply in_map_iff. exists (p, n). auto.
      * rewrite Forall_forall in Hrest. specialize (Hrest _ Erest).
        rewrite Forall_forall in Hrest. apply (Hrest _ Hx).
    + (* a provider of no ranked model: its share is 0, and counts are sums of
         positive totals *)
      assert (Hc : c = providerShare cachedData k modelUsageTotals).
      { rewrite <- Hshare. unfold countOf.
        rewrite (In_wf_get providerCounts k c Hwf (Hin _ Hx)). reflexivity. }
      rewrite Hc. apply providerShare_nonneg.
Qed.

End RankOrderFacts.

(** ** The first session *)

Module FirstSessionFacts.
Import Js Tally.

(** X22: firstSessionDate is the earlier of the collector's date and the
    history's date when both are there and valid, the one that is there
    when only one is, and the present moment when neither is; an invalid
    collector date is kept as it is.  daysSinceFirstSession is the number of
    whole days from firstSessionDate to Date.now(), never negative when the
    clock has not gone back beyond it, and never less than the whole days
    since either of the two dates. *)
Theorem firstSessionDate_earliest (now dateNow : Z)
    (earliestSessionDate : option (option Z)) (historyFirstTs : option Z) :
  let first := firstSessionDateOf now earliestSessionDate historyFirstTs in
  let day := 1000 * 60 * 60 * 24 in
  (forall e h, earliestSessionDate = Some (Some e) ->
               historyDateOf historyFirstTs = Some (Some h) ->
               first = Some (Z.min e h))
  /\ (forall e, earliestSessionDate = Some (Some e) ->
                historyDateOf historyFirstTs = None
                \/ historyDateOf historyFirstTs = Some None ->
                first = Some e)
  /\ (earliestSessionDate = Some None -> first = None)
  /\ (forall h, earliestSessionDate = None ->
                historyDateOf historyFirstTs = Some h -> first = h)
  /\ (earliestSessionDate = None -> historyDateOf historyFirstTs = None ->
      first = Some now)
  /\ (forall t, first = Some t ->
        exists d, daysSinceFirstSession dateNow first = Some d
                  /\ d * day <= dateNow - t < (d + 1) * day
                  /\ (t <= dateNow -> 0 <= d)
                  /\ (forall e, earliestSessionDate = Some (Some e) ->
                                (dateNow - e) / day <= d)
                  /\ (forall h, historyDateOf historyFirstTs = Some (Some h) ->
                                (dateNow - h) / day <= d)).
Proof.
  cbv zeta. unfold firstSessionDateOf.
  destruct (historyDateOf historyFirstTs) as [[h|]|] eqn:Eh;
    destruct earliestSessionDate as [[e|]|]; cbn [dateLt];
    (split; [intros e' h' Ee Ehh | split; [intros e' Ee Ehh | split; [intros Ee |
       split; [intros h' Ee Ehh | split; [intros Ee Ehh | intros t Et] ] ] ] ]);
    try discriminate; try (destruct Ehh; discriminate); try reflexivity;
    try (injection Ee as <-); try (injection Ehh as <-);
    try (destruct (Z.ltb_spec h e); f_equal; lia);
    try congruence.
  all: rewrite Et; cbn [daysSinceFirstSession]; eexists; split; [reflexivity|].
  all: assert (Hday : 0 < 1000 * 60 * 60 * 24) by lia.
  all: pose proof (Z.mul_div_le (dateNow - t) _ Hday) as Hlo.
  all: pose proof (Z.mul_succ_div_gt (dateNow - t) _ Hday) as Hhi.
  all: split; [lia|].
  all: split; [intros Hle; apply Z.div_pos; lia|].
  all: split; [intros e' Ee|intros h' Ehh]; try discriminate.
  all: try (injection Ee as <-); try (injection Ehh as <-).
  all: apply Z.div_le_mono; [lia|].
  all: try (destruct (Z.ltb_spec h e); injection Et as <-; lia).
  all: try (injection Et as <-; lia).
Qed.

End FirstSessionFacts.

(** ** The publish script *)

Module PublishFacts.
Import Js Names KeyFacts Publish.

Lemma prefix_split (p s : string) :
  startsWith s p = true -> s = p ++ dropString (String.length p) s.
Proof.
  unfold startsWith. revert s. induction p as [|c p IH]; intros s H; cbn.
  - destruct s; reflexivity.
  - destruct s as [|d s]; cbn in H; [discriminate|].
    destruct (Ascii.ascii_dec c d) as [->|N]; [|discriminate].
    f_equal. apply IH, H.
Qed.

Lemma dropString_append (p v : string) : dropString (String.length p) (p ++ v) = v.
Proof.
  induction p as [|c p IH]; cbn.
  - destruct v; reflexivity.
  - exact IH.
Qed.

Lemma eqPrefix_not_full (flag v : string) :
  String.eqb (eqPrefixOf flag ++ v) (fullOf flag) = false.
Proof.
  apply String.eqb_neq. intros E. apply (f_equal String.length) in E.
  unfold eqPrefixOf in E. rewrite !length_append in E. cbn in E. lia.
Qed.

(** X23: getFlagValue gives the value of the first argument that names the
    flag: of [--flag value] when the next argument is not empty and does not
    start with two dashes, of [--flag=value] whatever the value; it gives
    nothing when no argument names the flag, and the arguments after the
    first that names it are never looked at. *)
Theorem getFlagValue_first (args : list string) (flag : string) :
  (forall value,
      getFlagValue args flag = Some value <->
      exists before after,
        args = (before ++ after)%list
        /\ Forall (fun arg => namesFlag flag arg = false) before
        /\ ((exists rest, after = fullOf flag :: value :: rest
                          /\ value <> EmptyString
                          /\ startsWith value "--" = false)
            \/ (exists rest, after = (eqPrefixOf flag ++ value) :: rest)))
  /\ (Forall (fun arg => namesFlag flag arg = false) args ->
      getFlagValue args flag = None)
  /\ (forall before rest next,
         Forall (fun arg => namesFlag flag arg = false) before ->
         next = EmptyString \/ startsWith next "--" = true ->
         getFlagValue (before ++ fullOf flag :: next :: rest)%list flag = None).
Proof.
  unfold getFlagValue. split; [|split].
  - intros value. split.
    + induction args as [|arg args IH]; cbn [getFlagValueFrom]; [discriminate|].
      destruct (String.eqb_spec arg (fullOf flag)) as [->|Nfull].
      * destruct args as [|next rest]; [discriminate|].
        destruct next as [|c next]; [discriminate|].
        destruct (startsWith (String c next) "--") eqn:Ep; [discriminate|].
        cbn [negb]. intros E. injection E as <-.
        exists [], (fullOf flag :: String c next :: rest).
        split; [reflexivity|]. split; [constructor|]. left. exists rest.
        split; [reflexivity|]. split; [discriminate|exact Ep].
      * destruct (startsWith arg (eqPrefixOf flag)) eqn:Ep.
        -- intros E. injection E as <-.
           exists [], (arg :: args). split; [reflexivity|]. split; [constructor|].
           right. exists args. f_equal. apply prefix_split, Ep.
        -- intros E. destruct (IH E) as (before & after & -> & Hb & Ha).
           exists (arg :: before), after. split; [reflexivity|].
           split; [|exact Ha]. constructor; [|exact Hb].
           unfold namesFlag. rewrite Ep.
           apply String.eqb_neq in Nfull. rewrite Nfull. reflexivity.
    + intros (before & after & -> & Hb & Ha).
      induction Hb as [|arg before Harg Hb IH]; cbn [app getFlagValueFrom].
      * destruct Ha as [(rest & -> & Hne & Hp)|(rest & ->)]; cbn [getFlagValueFrom].
        -- rewrite String.eqb_refl. destruct value as [|c value]; [contradiction|].
           rewrite Hp. reflexivity.
        -- rewrite eqPrefix_not_full. unfold startsWith.
           rewrite DateFacts.prefix_append, dropString_append. reflexivity.
      * unfold namesFlag in Harg. apply orb_false_iff in Harg.
        destruct Harg as [H1 H2]. rewrite H1, H2. exact IH.
  - intros Hall. induction Hall as [|arg args Harg Hall IH]; cbn [getFlagValueFrom];
      [reflexivity|].
    unfold namesFlag in Harg. apply orb_false_iff in Harg.
    destruct Harg as [H1 H2]. rewrite H1, H2. exact IH.
  - intros before rest next Hb Hnext.
    induction Hb as [|arg before Harg Hb IH]; cbn [app getFlagValueFrom].
    + rewrite String.eqb_refl. destruct Hnext as [->|Hp]; [reflexivity|].
      destruct next; [reflexivity|]. rewrite Hp. reflexivity.
    + unfold namesFlag in Harg. apply orb_false_iff in Harg.
      destruct Harg as [H1 H2]. rewrite H1, H2. exact IH.
Qed.

Section RetryFacts.

Variable Error : Type.
Variable isRateLimited : Error -> bool.
Variable dryRun : bool.
Variable publish : nat -> option Error.
Variable jitterMs : nat -> Z.
Variable targetPath : string.

Lemma retried_step (first calls : nat) :
  retried dryRun jitterMs targetPath first (S calls)
  = (NpmPublish dryRun targetPath
       :: Log ((waitMs jitterMs first + 500) / 1000)
       :: Sleep (waitMs jitterMs first)
       :: retried dryRun jitterMs targetPath (S first) calls).
Proof. reflexivity. Qed.

Lemma slept_retried (first calls : nat) (effects : list Effect) :
  slept (retried dryRun jitterMs targetPath first calls ++ effects)
  = fold_right (fun attempt acc => waitMs jitterMs attempt + acc) (slept effects)
      (seq first calls).
Proof.
  revert first. induction calls as [|calls IH]; intros first; [reflexivity|].
  rewrite retried_step. cbn [app slept fold_right seq]. f_equal.
  apply IH.
Qed.

(** The loop makes one call after the other until one succeeds, throws an
    error that tells of no rate limit, or is the last. *)
Lemma retryFrom_calls (turns : nat) :
  forall attempt,
    (attempt + turns = maxRetries + 1)%nat -> (0 < turns)%nat ->
    exists calls,
      (attempt <= calls <= maxRetries)%nat
      /\ (forall k error, (attempt <= k < calls)%nat -> publish k = Some error ->
                          isRateLimited error = true)
      /\ (forall k, (attempt <= k < calls)%nat -> publish k <> None)
      /\ fst (retryFrom isRateLimited dryRun publish jitterMs targetPath turns attempt)
         = (retried dryRun jitterMs targetPath attempt (calls - attempt)
              ++ [NpmPublish dryRun targetPath])%list
      /\ match publish calls with
         | None =>
             snd (retryFrom isRateLimited dryRun publish jitterMs targetPath turns attempt)
             = Returned
         | Some error =>
             snd (retryFrom isRateLimited dryRun publish jitterMs targetPath turns attempt)
             = Thrown error
             /\ (isRateLimited error = false \/ calls = maxRetries)
         end.
Proof.
  induction turns as [|turns IH]; intros attempt Hsum Hpos; [lia|].
  cbn [retryFrom].
  destruct (publish attempt) as [error|] eqn:Ep.
  - destruct (isRateLimited error) eqn:El; cbn [negb orb].
    + destruct (Nat.eqb_spec attempt maxRetries) as [Hlast|Hmore].
      * exists attempt. rewrite Nat.sub_diag, Ep. cbn [fst snd].
        split; [lia|]. split; [intros; lia|]. split; [intros; lia|].
        split; [reflexivity|]. split; [reflexivity|]. right. exact Hlast.
      * destruct (IH (S attempt)) as (calls & Hc & Hlim & Hsome & Heff & Hres);
          [lia|unfold maxRetries in *; lia|].
        destruct (retryFrom isRateLimited dryRun publish jitterMs targetPath turns
                    (S attempt)) as [effects completion].
        cbn [fst snd] in *. exists calls.
        split; [lia|]. split; [|split; [|split] ].
        -- intros k e Hk Hp. destruct (Nat.eq_dec k attempt) as [->|N].
           ++ rewrite Ep in Hp. injection Hp as <-. exact El.
           ++ apply (Hlim k e); [lia|exact Hp].
        -- intros k Hk. destruct (Nat.eq_dec k attempt) as [->|N].
           ++ rewrite Ep. discriminate.
           ++ apply Hsome. lia.
        -- replace (calls - attempt)%nat with (S (calls - S attempt)) by lia.
           rewrite retried_step, Heff. reflexivity.
        -- exact Hres.
    + exists attempt. rewrite Nat.sub_diag, Ep. cbn [fst snd].
      split; [unfold maxRetries in *; lia|]. split; [intros; lia|].
      split; [intros; lia|].
      split; [reflexivity|]. split; [reflexivity|]. left. exact El.
  - exists attempt. rewrite Nat.sub_diag, Ep. cbn [fst snd].
    split; [unfold maxRetries in *; lia|]. split; [intros; lia|].
    split; [intros; lia|].
    split; [reflexivity|]. reflexivity.
Qed.

(** X24: publishWithRetry calls npm publish at most seven times, one call
    after each wait: it returns when a call succeeds, throws the error of a
    call that tells of no rate limit at once, and throws the error of the
    seventh call whatever it is.  The wait after the k-th failed call is
    30 s doubled k times, at most 10 min, plus the jitter, and all the waits
    together stay under 26 minutes. *)
Theorem publishWithRetry_schedule :
  (forall attempt, 0 <= jitterMs attempt < 5000) ->
  let effects := fst (publishWithRetry isRateLimited dryRun publish jitterMs targetPath) in
  let completion :=
    snd (publishWithRetry isRateLimited dryRun publish jitterMs targetPath) in
  exists calls,
    (calls <= maxRetries)%nat
    /\ effects = (retried dryRun jitterMs targetPath 0 calls
                    ++ [NpmPublish dryRun targetPath])%list
    /\ (forall k, (k < calls)%nat ->
                  exists error, publish k = Some error /\ isRateLimited error = true)
    /\ match publish calls with
       | None => completion = Returned
       | Some error =>
           completion = Thrown error
           /\ (isRateLimited error = false \/ calls = maxRetries)
       end
    /\ (forall k, (k < calls)%nat ->
                  Z.min 600000 (30000 * 2 ^ Z.of_nat k) <= waitMs jitterMs k
                  < Z.min 600000 (30000 * 2 ^ Z.of_nat k) + 5000)
    /\ 0 <= slept effects < 26 * 60000.
Proof.
  intros Hjitter. cbv zeta. unfold publishWithRetry.
  destruct (retryFrom_calls (maxRetries + 1) 0) as (calls & Hc & Hlim & Hsome & Heff & Hres);
    [reflexivity|unfold maxRetries; lia|].
  rewrite Nat.sub_0_r in Heff.
  exists calls. split; [lia|]. split; [exact Heff|]. split; [|split; [exact Hres|split] ].
  - intros k Hk. destruct (publish k) as [error|] eqn:Ep.
    + exists error. split; [reflexivity|]. apply (Hlim k error); [lia|exact Ep].
    + exfalso. apply (Hsome k); [lia|exact Ep].
  - intros k Hk. unfold waitMs, delayMs.
    change (10 * 60000) with 600000. specialize (Hjitter k). lia.
  - rewrite Heff, slept_retried.
    change (slept [NpmPublish dryRun targetPath]) with 0.
    assert (Hw : forall k, 0 <= waitMs jitterMs k < delayMs k + 5000).
    { intros k. unfold waitMs. specialize (Hjitter k).
      assert (0 <= delayMs k); [|lia].
      unfold delayMs. apply Z.min_glb; [lia|].
      apply Z.mul_nonneg_nonneg; [lia|]. apply Z.pow_nonneg. lia. }
    pose proof (Hw 0%nat) as H0. pose proof (Hw 1%nat) as H1.
    pose proof (Hw 2%nat) as H2. pose proof (Hw 3%nat) as H3.
    pose proof (Hw 4%nat) as H4. pose proof (Hw 5%nat) as H5.
    change (delayMs 0) with 30000 in H0. change (delayMs 1) with 60000 in H1.
    change (delayMs 2) with 120000 in H2. change (delayMs 3) with 240000 in H3.
    change (delayMs 4) with 480000 in H4. change (delayMs 5) with 600000 in H5.
    unfold maxRetries in Hc.
    destruct calls as [|[|[|[|[|[|[|calls] ] ] ] ] ] ]; cbn [seq fold_right]; lia.
Qed.

End RetryFacts.

(** The first call fails with a rate limit, the second succeeds. *)
Lemma publishWithRetry_schedule_witness :
  let publish := fun k : nat => match k with O => Some true | _ => None end in
  let jitterMs := fun _ : nat => 1234 in
  let effects :=
    fst (publishWithRetry (fun limited : bool => limited) false publish jitterMs
           "dist/pkg") in
  (forall attempt, 0 <= jitterMs attempt < 5000)
  /\ exists calls,
       (calls <= maxRetries)%nat
       /\ effects
          = (retried false jitterMs "dist/pkg" 0 calls ++ [NpmPublish false "dist/pkg"])%list
       /\ 0 <= slept effects < 26 * 60000.
Proof.
  cbv zeta.
  assert (Hj : forall attempt : nat, 0 <= 1234 < 5000) by (intros; lia).
  split; [exact Hj|].
  destruct (publishWithRetry_schedule bool (fun limited : bool => limited) false
              (fun k : nat => match k with O => Some true | _ => None end)
              (fun _ : nat => 1234) "dist/pkg" Hj)
    as (calls & Hc & Heff & _ & _ & _ & Hslept).
  exists calls. split; [exact Hc|]. split; [exact Heff|exact Hslept].
Defined.

End PublishFacts.
